(** * Docling Serve on Cloudflare Workers: the ingestion and task pipeline

    A shallow embedding of the route handlers of [src/index.ts] that write
    and read the D1 database (URL ingestion, file ingestion, asynchronous
    ingestion, result retrieval, status polling, the progress callback and
    the default-vectorizer bootstrap), over the schema of [schema.sql], and
    the properties of chunked content storage, task updates and vectorizer
    deduplication proved about them. *)

From stdpp Require Import base decidable option list numbers strings.
From Stdlib Require Import ZArith Lia.

(** ** JavaScript strings

    A JavaScript string is a sequence of UTF-16 code units; [length],
    [substring] and [join] count and cut code units.  The handlers only
    measure, cut, concatenate and compare strings, so a code unit is kept
    as a number.  What a TEXT column gives back for a string bound to it
    is [to_text] below. *)

Abbreviation code_unit := N (only parsing).
Abbreviation jsstring := (list N) (only parsing).

(** A source-code string literal whose characters are all ASCII. *)
Definition lit (s : string) : jsstring :=
  map Ascii.N_of_ascii (String.list_ascii_of_string s).

(** The double-quote character, U+0022. *)
Definition dquote : code_unit := 34%N.

(** [JSON.stringify] of a string that needs no escaping. *)
Definition JSON_stringify_string (s : jsstring) : jsstring :=
  dquote :: s ++ [dquote].

(** [JSON.stringify({k: v})] for one string-valued property. *)
Definition JSON_stringify_object1 (k v : jsstring) : jsstring :=
  lit "{" ++ JSON_stringify_string k ++ lit ":" ++ JSON_stringify_string v ++ lit "}".

(** Truthiness of a string: every string but the empty one. *)
Definition truthy (s : jsstring) : bool :=
  match s with [] => false | _ :: _ => true end.

(** [a || b] where [a] is a string that may be [null]/[undefined]. *)
Definition or_else (a : option jsstring) (b : jsstring) : jsstring :=
  match a with
  | Some s => if truthy s then s else b
  | None => b
  end.

(** [a || null] where [a] is a string that may be [undefined]. *)
Definition or_null (a : option jsstring) : option jsstring :=
  match a with
  | Some s => if truthy s then Some s else None
  | None => None
  end.

(** [s.substring(start, end)] on non-negative integer arguments: both
    indices are clamped to the length and swapped when out of order. *)
Definition substring (s : jsstring) (start end_ : nat) : jsstring :=
  let a := start `min` length s in
  let b := end_ `min` length s in
  take ((a `max` b) - (a `min` b)) (drop (a `min` b) s).

(** [array.join('')]. *)
Definition join (l : list jsstring) : jsstring := concat l.

(** ** Text columns

    D1 keeps a TEXT value as UTF-8.  A well-formed string, one in which
    every surrogate is half of a pair, comes back as it was bound.  A
    lone surrogate has no UTF-8 form; it comes back as three U+FFFD, one
    for each byte it was written as.  [file.text()] and [formData()]
    decode UTF-8 and yield well-formed strings, and the strings of a
    request are taken to be well-formed; the one place where a handler
    makes an ill-formed string of a well-formed one is the [substring] of
    the chunk loop, which can cut a pair in two. *)

Definition is_high_surrogate (c : code_unit) : bool :=
  (55296 <=? c)%N && (c <=? 56319)%N.

Definition is_low_surrogate (c : code_unit) : bool :=
  (56320 <=? c)%N && (c <=? 57343)%N.

(** What a lone surrogate comes back as. *)
Definition replacement : jsstring := [65533; 65533; 65533]%N.

(** The string a TEXT column gives back for [s]. *)
Fixpoint to_text (s : jsstring) : jsstring :=
  match s with
  | [] => []
  | c :: s' =>
      if is_high_surrogate c then
        match s' with
        | d :: s'' =>
            if is_low_surrogate d then c :: d :: to_text s''
            else replacement ++ to_text s'
        | [] => replacement
        end
      else if is_low_surrogate c then replacement ++ to_text s'
      else c :: to_text s'
  end.

(** Every surrogate of [s] is half of a pair. *)
Fixpoint well_formed (s : jsstring) : bool :=
  match s with
  | [] => true
  | c :: s' =>
      if is_high_surrogate c then
        match s' with
        | d :: s'' => is_low_surrogate d && well_formed s''
        | [] => false
        end
      else negb (is_low_surrogate c) && well_formed s'
  end.

(** A cut of [s] at position [k] falls between a high surrogate and the
    low surrogate that follows it. *)
Definition pair_cut_at (s : jsstring) (k : nat) : bool :=
  match k with
  | 0 => false
  | S j =>
      match s !! j, s !! k with
      | Some c, Some d => is_high_surrogate c && is_low_surrogate d
      | _, _ => false
      end
  end.

(** No multiple of [T] inside [s] cuts a pair. *)
Definition keeps_pairs (T : nat) (s : jsstring) : bool :=
  forallb (λ i, negb (pair_cut_at s (i * T))) (seq 1 (length s `div` T)).

(** [Math.ceil(a / b)] on non-negative integers, [b] positive.  The
    quotient of two integers below 2^53 whose fractional part is at least
    1/b is never rounded to an integer at the sizes a string can have, so
    the double-precision result is the integer ceiling. *)
Definition Math_ceil_div (a b : nat) : nat :=
  a `div` b + (if decide (a `mod` b = 0) then 0 else 1).

(** ** Configuration constants *)

Definition MAX_FILE_SIZE_MB : N := 5.
Definition CHUNK_SIZE_TOKENS : nat := 1000.

(** ** The database: five tables of [schema.sql]

    A table is the list of its rows in insertion (rowid) order.  The code
    never deletes a row, so an AUTOINCREMENT id is the number of rows plus
    one.  [created_at]/[updated_at] take the clock reading handed to the
    statement.  PRIMARY KEY and UNIQUE are checked by the [INSERT]
    statements below.  FOREIGN KEY is not checked by them: every route
    inserts the row referred to first, and [fk_file_chunks] states the one
    the proofs rely on as a property of the database.  A [progress] is kept
    as an integer: the routes store and return it and never compute with
    it. *)

Inductive task_status := pending | processing | completed | failed.

#[global] Instance task_status_eq_dec : EqDecision task_status.
Proof. solve_decision. Defined.

Record document_row := {
  d_id : jsstring;                     (* TEXT PRIMARY KEY *)
  d_name : jsstring;                   (* TEXT NOT NULL *)
  d_format : jsstring;                 (* TEXT NOT NULL *)
  d_pages : nat;                       (* INTEGER NOT NULL *)
  d_created_at : N;
  d_content : option jsstring;         (* TEXT, nullable *)
  d_vectorizer_id : option jsstring    (* TEXT, nullable *)
}.

Record task_row := {
  t_id : jsstring;                     (* TEXT PRIMARY KEY *)
  t_status : task_status;              (* TEXT NOT NULL *)
  t_document_id : jsstring;
  t_progress : option Z;               (* REAL DEFAULT 0 *)
  t_message : option jsstring;
  t_error : option jsstring;
  t_created_at : N;
  t_updated_at : N
}.

Record source_row := {
  s_id : nat;                          (* INTEGER PRIMARY KEY AUTOINCREMENT *)
  s_document_id : jsstring;
  s_url : jsstring;
  s_created_at : N
}.

Record chunk_row := {
  c_id : nat;                          (* INTEGER PRIMARY KEY AUTOINCREMENT *)
  c_document_id : jsstring;
  c_chunk_index : nat;
  c_content : jsstring;
  c_created_at : N
}.

Record vectorizer_row := {
  v_id : jsstring;                     (* TEXT PRIMARY KEY *)
  v_model_name : jsstring;             (* TEXT NOT NULL, no UNIQUE *)
  v_engine_type : jsstring;
  v_chunk_size : nat;
  v_ocr_engine : option jsstring;
  v_created_at : N;
  v_updated_at : N;
  v_parameters : option jsstring
}.

Record Db := {
  documents : list document_row;
  tasks : list task_row;
  sources : list source_row;
  file_chunks : list chunk_row;
  vectorizers : list vectorizer_row
}.

Definition empty_db : Db :=
  {| documents := []; tasks := []; sources := []; file_chunks := []; vectorizers := [] |}.

Definition set_documents (x : list document_row) (db : Db) : Db :=
  {| documents := x; tasks := tasks db; sources := sources db;
     file_chunks := file_chunks db; vectorizers := vectorizers db |}.
Definition set_tasks (x : list task_row) (db : Db) : Db :=
  {| documents := documents db; tasks := x; sources := sources db;
     file_chunks := file_chunks db; vectorizers := vectorizers db |}.
Definition set_sources (x : list source_row) (db : Db) : Db :=
  {| documents := documents db; tasks := tasks db; sources := x;
     file_chunks := file_chunks db; vectorizers := vectorizers db |}.
Definition set_file_chunks (x : list chunk_row) (db : Db) : Db :=
  {| documents := documents db; tasks := tasks db; sources := sources db;
     file_chunks := x; vectorizers := vectorizers db |}.
Definition set_vectorizers (x : list vectorizer_row) (db : Db) : Db :=
  {| documents := documents db; tasks := tasks db; sources := sources db;
     file_chunks := file_chunks db; vectorizers := x |}.

(** ** Statements: a state monad whose state survives an exception

    A handler awaits one D1 statement after another inside [try]; a
    statement that violates a constraint throws, the statements already
    run stay applied (no transaction), and [catch] turns the exception
    into the 500 response.  Besides a constraint, [bind] throws when it
    is given [undefined] (D1_TYPE_ERROR), and the handler's own code
    throws a TypeError when it calls a method its value does not have. *)

Inductive d1_error :=
| UniqueConstraintFailed (columns : string)
| TypeNotSupported (value : string)
| NotAFunction (method : string).

Inductive outcome (A : Type) :=
| Returned (a : A)
| Thrown (e : d1_error).
Arguments Returned {A} a.
Arguments Thrown {A} e.

Definition M (A : Type) : Type := Db -> Db * outcome A.

#[global] Instance M_ret : MRet M := λ A a db, (db, Returned a).
#[global] Instance M_bind : MBind M := λ A B f m db,
  match m db with
  | (db', Returned a) => f a db'
  | (db', Thrown e) => (db', Thrown e)
  end.

(** [throw e] *)
Definition throw {A} (e : d1_error) : M A := λ db, (db, Thrown e).

(** [for (const x of l) { await body(x) }] *)
Fixpoint for_each {A} (body : A -> M unit) (l : list A) : M unit :=
  match l with
  | [] => mret tt
  | x :: l' => body x ;; for_each body l'
  end.

(** [INSERT INTO documents (id, name, format, pages, content, vectorizer_id)] *)
Definition insert_document (now : N) (id name format : jsstring) (pages : nat)
    (content vectorizer_id : option jsstring) : M unit := λ db,
  if decide (id ∈ d_id <$> documents db)
  then (db, Thrown (UniqueConstraintFailed "documents.id"))
  else (set_documents (documents db ++
          [{| d_id := id; d_name := name; d_format := format; d_pages := pages;
              d_created_at := now; d_content := content;
              d_vectorizer_id := vectorizer_id |}]) db, Returned tt).

(** [INSERT INTO tasks (id, status, document_id, message)]: [progress]
    takes its default 0, [error] is NULL. *)
Definition insert_task (now : N) (id : jsstring) (status : task_status)
    (document_id message : jsstring) : M unit := λ db,
  if decide (id ∈ t_id <$> tasks db)
  then (db, Thrown (UniqueConstraintFailed "tasks.id"))
  else (set_tasks (tasks db ++
          [{| t_id := id; t_status := status; t_document_id := document_id;
              t_progress := Some 0%Z; t_message := Some message; t_error := None;
              t_created_at := now; t_updated_at := now |}]) db, Returned tt).

(** [INSERT INTO sources (document_id, url)]; [bind] throws on a [url]
    that is [undefined]. *)
Definition insert_source (now : N) (document_id : jsstring) (url : option jsstring)
    : M unit := λ db,
  match url with
  | None => (db, Thrown (TypeNotSupported "undefined"))
  | Some url =>
      (set_sources (sources db ++
         [{| s_id := S (length (sources db)); s_document_id := document_id;
             s_url := url; s_created_at := now |}]) db, Returned tt)
  end.

(** [INSERT INTO file_chunks (document_id, chunk_index, content)], under
    [UNIQUE (document_id, chunk_index)].  The row holds what the TEXT
    column gives back for [content]. *)
Definition insert_file_chunk (now : N) (document_id : jsstring) (chunk_index : nat)
    (content : jsstring) : M unit := λ db,
  if decide ((document_id, chunk_index) ∈
             (λ c, (c_document_id c, c_chunk_index c)) <$> file_chunks db)
  then (db, Thrown (UniqueConstraintFailed "file_chunks.document_id, file_chunks.chunk_index"))
  else (set_file_chunks (file_chunks db ++
          [{| c_id := S (length (file_chunks db)); c_document_id := document_id;
              c_chunk_index := chunk_index; c_content := to_text content;
              c_created_at := now |}]) db, Returned tt).

(** [SELECT id FROM vectorizers WHERE model_name = ?] with [.first()] *)
Definition select_vectorizer_id (model_name : jsstring) : M (option jsstring) := λ db,
  (db, Returned (v_id <$> head (filter (λ v, v_model_name v = model_name) (vectorizers db)))).

(** [INSERT INTO vectorizers (id, model_name, engine_type, chunk_size,
    ocr_engine, parameters)] *)
Definition insert_vectorizer (now : N) (id model_name engine_type : jsstring)
    (chunk_size : nat) (ocr_engine parameters : jsstring) : M unit := λ db,
  if decide (id ∈ v_id <$> vectorizers db)
  then (db, Thrown (UniqueConstraintFailed "vectorizers.id"))
  else (set_vectorizers (vectorizers db ++
          [{| v_id := id; v_model_name := model_name; v_engine_type := engine_type;
              v_chunk_size := chunk_size; v_ocr_engine := Some ocr_engine;
              v_created_at := now; v_updated_at := now;
              v_parameters := Some parameters |}]) db, Returned tt).

(** [UPDATE documents SET vectorizer_id = ? WHERE id = ?] *)
Definition update_document_vectorizer (vectorizer_id id : jsstring) : M unit := λ db,
  (set_documents
     ((λ d, if decide (d_id d = id)
            then {| d_id := d_id d; d_name := d_name d; d_format := d_format d;
                    d_pages := d_pages d; d_created_at := d_created_at d;
                    d_content := d_content d; d_vectorizer_id := Some vectorizer_id |}
            else d) <$> documents db) db, Returned tt).

(** SQL [COALESCE(?, column)] *)
Definition COALESCE {A} (x column : option A) : option A :=
  match x with Some _ => x | None => column end.

(** The row an [UPDATE tasks SET progress = ?, message = COALESCE(?, message),
    error = COALESCE(?, error), status = COALESCE(?, status),
    updated_at = CURRENT_TIMESTAMP] leaves in place of [t]. *)
Definition updated_task (now : N) (progress : Z) (message error : option jsstring)
    (status : option task_status) (t : task_row) : task_row :=
  {| t_id := t_id t;
     t_status := default (t_status t) status;
     t_document_id := t_document_id t;
     t_progress := Some progress;
     t_message := COALESCE message (t_message t);
     t_error := COALESCE error (t_error t);
     t_created_at := t_created_at t;
     t_updated_at := now |}.

(** The [UPDATE tasks ... WHERE id = ?] statement; returns [meta.changes]. *)
Definition update_task_progress (now : N) (progress : Z) (message error : option jsstring)
    (status : option task_status) (id : jsstring) : M nat := λ db,
  (set_tasks ((λ t, if decide (t_id t = id)
                    then updated_task now progress message error status t
                    else t) <$> tasks db) db,
   Returned (length (filter (λ t, t_id t = id) (tasks db)))).

(** [SELECT id, status, message, progress, error FROM tasks WHERE id = ?]
    with [.first()] *)
Definition select_task (id : jsstring) : M (option task_row) := λ db,
  (db, Returned (head (filter (λ t, t_id t = id) (tasks db)))).

(** [SELECT ... FROM tasks t JOIN documents d ON t.document_id = d.id
    WHERE t.id = ?] with [.first()] *)
Definition select_task_document (id : jsstring) : M (option (task_row * document_row)) := λ db,
  (db, Returned (head (t ← filter (λ t, t_id t = id) (tasks db);
                       (λ d, (t, d)) <$>
                         filter (λ d, d_id d = t_document_id t) (documents db)))).

(** Insertion of [x] into a list ordered by [key], after the rows with
    the same key. *)
Fixpoint insert_by {A} (key : A -> nat) (x : A) (l : list A) : list A :=
  match l with
  | [] => [x]
  | y :: l' => if decide (key x < key y) then x :: y :: l' else y :: insert_by key x l'
  end.

(** [ORDER BY key ASC] *)
Definition order_by {A} (key : A -> nat) (l : list A) : list A :=
  foldr (insert_by key) [] l.

(** [SELECT content FROM file_chunks WHERE document_id = ?
    ORDER BY chunk_index ASC] with [.all()]: the stored contents, which
    are what [to_text] made of the chunks bound on [INSERT]. *)
Definition select_chunk_contents (document_id : jsstring) : M (list jsstring) := λ db,
  (db, Returned (c_content <$>
     order_by c_chunk_index
       (filter (λ c, c_document_id c = document_id) (file_chunks db)))).

(** ** Requests, responses and the environment

    First the types [models.ts] declares for the requests; a property
    marked optional there, or one the handler tests for absence, is an
    [option].  Fields whose value reaches neither the database nor the
    response ([keep_image], [max_pages], the headers of a source, ...) are
    left out or carried along unread.  The handlers run on the bodies as
    they arrive, which follow the declared types below. *)

Record DocumentSource := {
  ds_url : jsstring;
  ds_headers : option (list (jsstring * jsstring))
}.

Inductive source :=
| SourceString (s : jsstring)
| SourceObject (o : DocumentSource).

Record ConvertDocumentsOptions := {
  opt_ocr_engine : option jsstring;
  opt_model : option jsstring
}.

Record ConvertDocumentsRequest := {
  req_sources : list source;
  req_options : option ConvertDocumentsOptions
}.

(** An uploaded [File]: its name, its size in bytes and the text
    [file.text()] decodes from it. *)
Record File := {
  file_name : jsstring;
  file_size : N;
  file_text : jsstring
}.

(** The multipart form of the file route: [getAll('file')] and the fields
    read with [get]. *)
Record ConvertFileForm := {
  form_files : list File;
  form_format : option jsstring;
  form_ocr_engine : option jsstring;
  form_model : option jsstring
}.

(** *** Requests as they arrive

    The handlers cast what [request.json()] and [request.formData()]
    give them to the declared type and check little of it.  A body is
    taken with the properties it has: each has its declared type when it
    is there, but one that is declared mandatory may be missing, and a
    form field named [file] may be a string as well as a file.  A request
    of the declared type is received as the body that spells it. *)

(** An element of [sources]: a string, or an object with the [url] it
    has.  An element that is neither, a number or [null], has no [url]
    to bind either and stops the source loop as an object without one
    does. *)
Inductive source_value :=
| StringValue (s : jsstring)
| ObjectValue (url : option jsstring).

#[global] Instance source_value_eq_dec : EqDecision source_value.
Proof. solve_decision. Defined.

(** The JSON body of the URL routes; [body_sources] is empty also when
    [sources] is missing or is not an array. *)
Record ConvertDocumentsBody := {
  body_sources : list source_value;
  body_options : option ConvertDocumentsOptions
}.

(** A value of [formData.getAll('file')]. *)
Inductive FormDataEntryValue :=
| FileValue (file : File)
| TextValue (s : jsstring).

(** The form data of the file route. *)
Record FormData := {
  fd_files : list FormDataEntryValue;
  fd_format : option jsstring;
  fd_ocr_engine : option jsstring;
  fd_model : option jsstring
}.

Definition received_source (s : source) : source_value :=
  match s with
  | SourceString u => StringValue u
  | SourceObject o => ObjectValue (Some (ds_url o))
  end.

Definition received (data : ConvertDocumentsRequest) : ConvertDocumentsBody :=
  {| body_sources := received_source <$> req_sources data;
     body_options := req_options data |}.
Coercion received : ConvertDocumentsRequest >-> ConvertDocumentsBody.

Definition form_data (form : ConvertFileForm) : FormData :=
  {| fd_files := FileValue <$> form_files form;
     fd_format := form_format form;
     fd_ocr_engine := form_ocr_engine form;
     fd_model := form_model form |}.
Coercion form_data : ConvertFileForm >-> FormData.

(** The url of a source of the declared type. *)
Definition declared_url (s : source) : jsstring :=
  match s with
  | SourceString u => u
  | SourceObject o => ds_url o
  end.

Record ProgressCallbackRequest := {
  pc_task_id : jsstring;
  pc_progress : option Z;
  pc_message : option jsstring;
  pc_error : option jsstring;
  pc_status : option task_status
}.

Record Env := {
  DEFAULT_MODEL : option jsstring
}.

Record TaskStatusResponse := {
  tsr_task_id : jsstring;
  tsr_status : task_status;
  tsr_message : option jsstring;
  tsr_progress : option Z;
  tsr_error : option jsstring
}.

(** [result.content] is [{text: content}] when present. *)
Record ConvertResult := {
  res_document_id : jsstring;
  res_pages : nat;
  res_format : jsstring;
  res_content : option jsstring
}.

Record ConvertDocumentResponse := {
  cdr_task_id : jsstring;
  cdr_status : task_status;
  cdr_message : option jsstring;
  cdr_progress : option Z;
  cdr_error : option jsstring;
  cdr_result : option ConvertResult
}.

Record ProgressCallbackResponse := {
  pcr_success : bool;
  pcr_task_id : jsstring;
  pcr_progress : Z
}.

(** A JSON response: status 200 with a body, or an error envelope
    [{error, message?}] with its status code. *)
Inductive response (A : Type) :=
| Json (body : A)
| ErrorJson (status : nat) (error : jsstring) (message : option d1_error).
Arguments Json {A} body.
Arguments ErrorJson {A} status error message.

(** [try { ... } catch (error) { return 500 {error: label, message} }] *)
Definition catch {A} (label : jsstring) (body : M (response A)) : Db -> Db * response A := λ db,
  match body db with
  | (db', Returned r) => (db', r)
  | (db', Thrown e) => (db', ErrorJson 500 label (Some e))
  end.

(** ** Handlers

    [crypto.randomUUID()] and the clock are inputs: a handler takes the
    identifiers it would draw and the time its statements are stamped
    with.  That a drawn identifier is new to its table, and not the empty
    string, is said where a statement needs it. *)

(** [typeof source === 'string' ? source : source.url]; [None] is
    [undefined]. *)
Definition source_url (source : source_value) : option jsstring :=
  match source with
  | StringValue u => Some u
  | ObjectValue url => url
  end.

(** [JSON.stringify(defaultParameters)] *)
Definition defaultParameters_json : jsstring :=
  lit "{" ++ JSON_stringify_string (lit "chunk_overlap") ++ lit ":200,"
  ++ JSON_stringify_string (lit "max_tokens") ++ lit ":8192,"
  ++ JSON_stringify_string (lit "token_encoding") ++ lit ":"
  ++ JSON_stringify_string (lit "cl100k_base") ++ lit ","
  ++ JSON_stringify_string (lit "enable_summarization") ++ lit ":true,"
  ++ JSON_stringify_string (lit "enable_metadata_extraction") ++ lit ":true}".

(** [POST /v1alpha/convert/source] *)
Definition post_convert_source (now : N) (taskId documentId : jsstring)
    (data : ConvertDocumentsBody) : Db -> Db * response ConvertDocumentResponse := λ db,
  if decide (length (body_sources data) = 0)
  then (db, ErrorJson 400 (lit "Invalid sources provided") None)
  else catch (lit "Failed to process request")
    (insert_document now documentId (lit "url-document") (lit "json")
       (length (body_sources data))
       (Some (JSON_stringify_object1 (lit "source") (lit "url"))) None ;;
     insert_task now taskId completed documentId (lit "Document conversion started") ;;
     for_each (λ source, insert_source now documentId (source_url source))
       (body_sources data) ;;
     mret (Json {| cdr_task_id := taskId; cdr_status := completed;
                   cdr_message := Some (lit "Document conversion started");
                   cdr_progress := None; cdr_error := None;
                   cdr_result := Some {| res_document_id := documentId;
                                         res_pages := length (body_sources data);
                                         res_format := lit "json";
                                         res_content := None |} |})) db.

(** The lookup-or-insert block of the file and the asynchronous route:
    [SELECT id FROM vectorizers WHERE model_name = ?], and an [INSERT]
    under a new identifier when no row comes back. *)
Definition lookup_or_insert_vectorizer (now : N) (uuid modelName ocr_engine : jsstring)
    : M jsstring :=
  existingVectorizer ← select_vectorizer_id modelName;
  match existingVectorizer with
  | Some id => mret id
  | None =>
      insert_vectorizer now uuid modelName (lit "openai") CHUNK_SIZE_TOKENS
        ocr_engine defaultParameters_json ;;
      mret uuid
  end.

(** [fileSizeInMB > MAX_FILE_SIZE_MB] with [fileSizeInMB = file.size /
    (1024 * 1024)]: dividing by a power of two is exact, so the test is
    the comparison of the byte count with the limit in bytes. *)
Definition exceeds_size_limit (file : File) : bool :=
  (MAX_FILE_SIZE_MB * (1024 * 1024) <? file_size file)%N.

(** [POST /v1alpha/convert/file].  A first value of [file] that is a
    string has no [size], so the size test compares NaN with the limit
    and passes, and no [text], so the call of [file.text()] throws
    before anything is written. *)
Definition post_convert_file (env : Env) (now : N) (taskId documentId vectorizerUuid : jsstring)
    (form : FormData) : Db -> Db * response ConvertDocumentResponse := λ db,
  let files := fd_files form in
  let format := or_else (fd_format form) (lit "json") in
  let ocr_engine := or_else (fd_ocr_engine form) (lit "easyocr") in
  let modelName :=
    or_else (fd_model form) (or_else (DEFAULT_MODEL env) (lit "gpt-4o-mini")) in
  match files with
  | [] => (db, ErrorJson 400 (lit "No files provided") None)
  | TextValue _ :: _ =>
      catch (lit "Failed to process files") (throw (NotAFunction "file.text")) db
  | FileValue file :: _ =>
    if exceeds_size_limit file
    then (db, ErrorJson 400 (lit "File size exceeds the 5 MB limit") None)
    else catch (lit "Failed to process files")
      (let fileName := file_name file in
       let contentText := file_text file in
       insert_document now documentId fileName (or_else (Some format) (lit "json"))
         (length files)
         (if decide (length contentText ≤ CHUNK_SIZE_TOKENS)
          then Some contentText else None) None ;;
       (if decide (CHUNK_SIZE_TOKENS < length contentText)
        then
          let chunks := Math_ceil_div (length contentText) CHUNK_SIZE_TOKENS in
          for_each (λ i,
              let start := i * CHUNK_SIZE_TOKENS in
              let end_ := ((i + 1) * CHUNK_SIZE_TOKENS) `min` length contentText in
              let chunk := substring contentText start end_ in
              insert_file_chunk now documentId i chunk)
            (seq 0 chunks)
        else mret tt) ;;
       insert_task now taskId completed documentId (lit "Files processed successfully") ;;
       vectorizerId ← lookup_or_insert_vectorizer now vectorizerUuid modelName
                        (or_else (Some ocr_engine) (lit "easyocr"));
       update_document_vectorizer vectorizerId documentId ;;
       mret (Json {| cdr_task_id := taskId; cdr_status := completed;
                     cdr_message := Some (lit "Files processed successfully");
                     cdr_progress := None; cdr_error := None;
                     cdr_result := Some {| res_document_id := documentId;
                                           res_pages := length files;
                                           res_format := or_else (Some format) (lit "json");
                                           res_content := None |} |})) db
  end.

(** [POST /v1alpha/convert/source/async] *)
Definition post_convert_source_async (env : Env) (now : N)
    (taskId documentId vectorizerUuid : jsstring)
    (data : ConvertDocumentsBody) : Db -> Db * response TaskStatusResponse := λ db,
  if decide (length (body_sources data) = 0)
  then (db, ErrorJson 400 (lit "Invalid sources provided") None)
  else catch (lit "Failed to process request")
    (let modelName :=
       or_else (body_options data ≫= opt_model)
               (or_else (DEFAULT_MODEL env) (lit "gpt-4o-mini")) in
     vectorizerId ← lookup_or_insert_vectorizer now vectorizerUuid modelName
                      (or_else (body_options data ≫= opt_ocr_engine) (lit "easyocr"));
     insert_document now documentId (lit "async-document") (lit "json")
       (length (body_sources data)) None (Some vectorizerId) ;;
     insert_task now taskId pending documentId (lit "Document conversion queued") ;;
     for_each (λ source, insert_source now documentId (source_url source))
       (body_sources data) ;;
     mret (Json {| tsr_task_id := taskId; tsr_status := pending;
                   tsr_message := Some (lit "Document conversion queued");
                   tsr_progress := None; tsr_error := None |})) db.

(** [GET /v1alpha/status/poll/:taskId]; [taskId] is the last segment of
    the path. *)
Definition get_status_poll (taskId : jsstring) : Db -> Db * response TaskStatusResponse := λ db,
  if negb (truthy taskId)
  then (db, ErrorJson 400 (lit "Invalid task ID") None)
  else catch (lit "Failed to get task status")
    (taskResult ← select_task taskId;
     match taskResult with
     | None => mret (ErrorJson 404 (lit "Task not found") None)
     | Some t =>
         mret (Json {| tsr_task_id := t_id t; tsr_status := t_status t;
                       tsr_message := t_message t; tsr_progress := t_progress t;
                       tsr_error := t_error t |})
     end) db.

(** Truthiness of a nullable text column. *)
Definition truthy_text (content : option jsstring) : bool :=
  match content with
  | Some s => truthy s
  | None => false
  end.

(** [GET /v1alpha/result/:taskId] *)
Definition get_result (taskId : jsstring) : Db -> Db * response ConvertDocumentResponse := λ db,
  if negb (truthy taskId)
  then (db, ErrorJson 400 (lit "Invalid task ID") None)
  else catch (lit "Failed to get task result")
    (task ← select_task_document taskId;
     match task with
     | None => mret (ErrorJson 404 (lit "Task or document not found") None)
     | Some (t, d) =>
         content ←
           (if negb (truthy_text (d_content d)) && truthy (d_id d)
            then
              chunks ← select_chunk_contents (d_id d);
              mret (if decide (0 < length chunks) then Some (join chunks)
                    else d_content d)
            else mret (d_content d));
         mret (Json {| cdr_task_id := t_id t; cdr_status := t_status t;
                       cdr_message := t_message t; cdr_progress := t_progress t;
                       cdr_error := t_error t;
                       cdr_result := Some {| res_document_id := d_id d;
                                             res_pages := d_pages d;
                                             res_format := d_format d;
                                             res_content :=
                                               if truthy_text content then content
                                               else None |} |})
     end) db.

(** [POST /v1alpha/callback/task/progress] *)
Definition post_callback_task_progress (now : N) (data : ProgressCallbackRequest)
    : Db -> Db * response ProgressCallbackResponse := λ db,
  match negb (truthy (pc_task_id data)), pc_progress data with
  | true, _ | _, None => (db, ErrorJson 400 (lit "Invalid progress data") None)
  | false, Some progress =>
    catch (lit "Failed to update progress")
      (changes ← update_task_progress now progress
                   (or_null (pc_message data)) (or_null (pc_error data))
                   (pc_status data) (pc_task_id data);
       if decide (changes = 0)
       then mret (ErrorJson 404 (lit "Task not found") None)
       else mret (Json {| pcr_success := true; pcr_task_id := pc_task_id data;
                          pcr_progress := progress |})) db
  end.

(** [ensureDefaultVectorizer]: the exception, if any, is only logged; the
    second component is what [console.error] received. *)
Definition ensureDefaultVectorizer (env : Env) (now : N) (vectorizerId : jsstring)
    : Db -> Db * option d1_error := λ db,
  match
    (defaultVectorizer ←
       select_vectorizer_id (or_else (DEFAULT_MODEL env) (lit "gpt-4o-mini"));
     match defaultVectorizer with
     | Some _ => mret tt
     | None =>
         insert_vectorizer now vectorizerId
           (or_else (DEFAULT_MODEL env) (lit "gpt-4o-mini")) (lit "openai")
           CHUNK_SIZE_TOKENS (lit "easyocr") defaultParameters_json
     end) db
  with
  | (db', Returned _) => (db', None)
  | (db', Thrown e) => (db', Some e)
  end.

(** ** Sequences of requests *)

(** One request to a route that writes, with the identifiers and the
    clock reading it runs with; the bootstrap of the default vectorizer
    counts as one. *)
Inductive core_op :=
| ConvertSource (now : N) (taskId documentId : jsstring) (data : ConvertDocumentsBody)
| ConvertFile (env : Env) (now : N) (taskId documentId vectorizerUuid : jsstring)
    (form : FormData)
| ConvertSourceAsync (env : Env) (now : N) (taskId documentId vectorizerUuid : jsstring)
    (data : ConvertDocumentsBody)
| ProgressCallback (now : N) (data : ProgressCallbackRequest)
| EnsureDefaultVectorizer (env : Env) (now : N) (vectorizerId : jsstring).

(** The database a request leaves. *)
Definition run_op (op : core_op) (db : Db) : Db :=
  match op with
  | ConvertSource now taskId documentId data =>
      (post_convert_source now taskId documentId data db).1
  | ConvertFile env now taskId documentId vectorizerUuid form =>
      (post_convert_file env now taskId documentId vectorizerUuid form db).1
  | ConvertSourceAsync env now taskId documentId vectorizerUuid data =>
      (post_convert_source_async env now taskId documentId vectorizerUuid data db).1
  | ProgressCallback now data => (post_callback_task_progress now data db).1
  | EnsureDefaultVectorizer env now vectorizerId =>
      (ensureDefaultVectorizer env now vectorizerId db).1
  end.

(** Requests served one after the other. *)
Definition run_ops (ops : list core_op) (db : Db) : Db :=
  foldl (λ db op, run_op op db) db ops.

(** ** Vectorizers: lookup or insert, interleaved

    Each awaited D1 statement runs alone, but between the [SELECT] and
    the [INSERT] of one request the statements of other requests may
    run.  A call of the lookup-or-insert block is therefore a little
    machine with two steps, and a schedule says whose step runs next.
    The other statements of the routes neither read nor write
    [vectorizers], so they are left out of the machine. *)

Inductive goc_state :=
| BeforeSelect
| BeforeInsert
| Finished (result : outcome jsstring).

Record goc_call := {
  gc_now : N;
  gc_uuid : jsstring;
  gc_ocr_engine : jsstring;
  gc_state : goc_state
}.

Definition with_state (st : goc_state) (c : goc_call) : goc_call :=
  {| gc_now := gc_now c; gc_uuid := gc_uuid c; gc_ocr_engine := gc_ocr_engine c;
     gc_state := st |}.

(** The next statement of a call and the continuation up to the next
    [await]. *)
Definition goc_step (modelName : jsstring) (c : goc_call) (db : Db) : Db * goc_call :=
  match gc_state c with
  | BeforeSelect =>
      match select_vectorizer_id modelName db with
      | (db', Returned (Some id)) => (db', with_state (Finished (Returned id)) c)
      | (db', Returned None) => (db', with_state BeforeInsert c)
      | (db', Thrown e) => (db', with_state (Finished (Thrown e)) c)
      end
  | BeforeInsert =>
      match insert_vectorizer (gc_now c) (gc_uuid c) modelName (lit "openai")
              CHUNK_SIZE_TOKENS (gc_ocr_engine c) defaultParameters_json db with
      | (db', Returned _) => (db', with_state (Finished (Returned (gc_uuid c))) c)
      | (db', Thrown e) => (db', with_state (Finished (Thrown e)) c)
      end
  | Finished _ => (db, c)
  end.

(** The call at position [i] takes its next step. *)
Definition schedule_step (modelName : jsstring) (s : Db * list goc_call) (i : nat)
    : Db * list goc_call :=
  match s.2 !! i with
  | Some c =>
      let '(db', c') := goc_step modelName c s.1 in
      (db', <[i := c']> s.2)
  | None => s
  end.

Definition run_schedule (modelName : jsstring) (schedule : list nat)
    (s : Db * list goc_call) : Db * list goc_call :=
  foldl (schedule_step modelName) s schedule.

(** A call that may still insert a row. *)
Definition may_insert (c : goc_call) : nat :=
  match gc_state c with
  | BeforeSelect | BeforeInsert => 1
  | Finished _ => 0
  end.

(** ** Specification vocabulary

    Predicates and derived values the statements below are written with. *)

(** The slice [[a, b)] of a string, by position. *)
Definition slice (s : jsstring) (a b : nat) : jsstring :=
  take (b - a) (drop a s).

(** The chunk the loop of the file route cuts at index [i] with threshold [T]. *)
Definition chunk_at (T : nat) (s : jsstring) (i : nat) : jsstring :=
  substring s (i * T) (((i + 1) * T) `min` length s).

(** The chunk at index [i] as the table holds it. *)
Definition stored_chunk (T : nat) (s : jsstring) (i : nat) : jsstring :=
  to_text (chunk_at T s i).

(** The rows of [file_chunks] that belong to a document, in table order. *)
Definition chunks_of (documentId : jsstring) (db : Db) : list chunk_row :=
  filter (λ c, c_document_id c = documentId) (file_chunks db).

(** The rows of [documents] with a given id. *)
Definition documents_with_id (documentId : jsstring) (db : Db) : list document_row :=
  filter (λ d, d_id d = documentId) (documents db).

(** The rows of [tasks] with a given id. *)
Definition tasks_with_id (taskId : jsstring) (db : Db) : list task_row :=
  filter (λ t, t_id t = taskId) (tasks db).

(** The rows of [vectorizers] for a model name. *)
Definition vectorizers_for (modelName : jsstring) (db : Db) : list vectorizer_row :=
  filter (λ v, v_model_name v = modelName) (vectorizers db).

(** [FOREIGN KEY (document_id) REFERENCES documents(id)] of [file_chunks],
    as a property of a database state. *)
Definition fk_file_chunks (db : Db) : Prop :=
  Forall (λ c, c_document_id c ∈ d_id <$> documents db) (file_chunks db).

(** The rows the chunk loop appends, one per index, numbered from [base]. *)
Fixpoint chunk_rows (now : N) (documentId : jsstring) (g : nat → jsstring)
    (base : nat) (idx : list nat) : list chunk_row :=
  match idx with
  | [] => []
  | i :: idx' =>
      {| c_id := S base; c_document_id := documentId; c_chunk_index := i;
         c_content := g i; c_created_at := now |}
      :: chunk_rows now documentId g (S base) idx'
  end.

(** What the lookup-or-insert block does to the [vectorizers] table and
    which identifier it hands back. *)
Inductive vectorizer_linked (now : N) (uuid modelName ocr : jsstring)
    (vs : list vectorizer_row) : jsstring → list vectorizer_row → Prop :=
| linked_existing v l :
    filter (λ v, v_model_name v = modelName) vs = v :: l →
    vectorizer_linked now uuid modelName ocr vs (v_id v) vs
| linked_created :
    filter (λ v, v_model_name v = modelName) vs = [] →
    vectorizer_linked now uuid modelName ocr vs uuid
      (vs ++ [{| v_id := uuid; v_model_name := modelName; v_engine_type := lit "openai";
                 v_chunk_size := CHUNK_SIZE_TOKENS; v_ocr_engine := Some ocr;
                 v_created_at := now; v_updated_at := now;
                 v_parameters := Some defaultParameters_json |}]).

(** The sixteen characters [{"source":"url"}]. *)
Definition url_placeholder : jsstring :=
  [123; 34; 115; 111; 117; 114; 99; 101; 34; 58; 34; 117; 114; 108; 34; 125]%N.

(** A stored progress value between 0 and 100. *)
Definition progress_in_range (progress : option Z) : Prop :=
  ∃ v, progress = Some v ∧ (0 ≤ v ≤ 100)%Z.

(** The progress value a request supplies, if it is a callback that
    supplies one, is between 0 and 100. *)
Definition supplies_progress_in_range (op : core_op) : Prop :=
  match op with
  | ProgressCallback _ data =>
      match pc_progress data with
      | Some v => (0 ≤ v ≤ 100)%Z
      | None => True
      end
  | _ => True
  end.

Definition tasks_in_range (db : Db) : Prop :=
  Forall (λ t, progress_in_range (t_progress t)) (tasks db).

(** A computation keeps a property of the database whether it returns or
    throws. *)
Definition preserves {A} (I : Db → Prop) (m : M A) : Prop :=
  ∀ db, I db → I (m db).1.

(** The model name whose vectorizer a request looks up or inserts. *)
Definition op_model (op : core_op) : option jsstring :=
  match op with
  | ConvertFile env _ _ _ _ form =>
      Some (or_else (fd_model form) (or_else (DEFAULT_MODEL env) (lit "gpt-4o-mini")))
  | ConvertSourceAsync env _ _ _ _ data =>
      Some (or_else (body_options data ≫= opt_model)
              (or_else (DEFAULT_MODEL env) (lit "gpt-4o-mini")))
  | EnsureDefaultVectorizer env _ _ =>
      Some (or_else (DEFAULT_MODEL env) (lit "gpt-4o-mini"))
  | ConvertSource _ _ _ _ | ProgressCallback _ _ => None
  end.

(** The document a request creates and links to the vectorizer. *)
Definition op_document (op : core_op) : option jsstring :=
  match op with
  | ConvertFile _ _ _ documentId _ _ | ConvertSourceAsync _ _ _ documentId _ _ =>
      Some documentId
  | _ => None
  end.

(** Every source of a body has a url to bind: none is an object without
    [url]. *)
Definition has_urls (data : ConvertDocumentsBody) : Prop :=
  ObjectValue None ∉ body_sources data.

(** The request passes validation, has the declared type, and the
    identifiers it draws are new to the database. *)
Definition op_ready (op : core_op) (db : Db) : Prop :=
  match op with
  | ConvertSource _ taskId documentId data =>
      body_sources data ≠ [] ∧ has_urls data
      ∧ (documentId ∉ d_id <$> documents db) ∧ (taskId ∉ t_id <$> tasks db)
  | ConvertFile _ _ taskId documentId vectorizerUuid form =>
      (∃ file rest, fd_files form = FileValue file :: rest
                    ∧ exceeds_size_limit file = false)
      ∧ (documentId ∉ d_id <$> documents db) ∧ (taskId ∉ t_id <$> tasks db)
      ∧ (vectorizerUuid ∉ v_id <$> vectorizers db)
      ∧ chunks_of documentId db = []
  | ConvertSourceAsync _ _ taskId documentId vectorizerUuid data =>
      body_sources data ≠ [] ∧ has_urls data
      ∧ (documentId ∉ d_id <$> documents db) ∧ (taskId ∉ t_id <$> tasks db)
      ∧ (vectorizerUuid ∉ v_id <$> vectorizers db)
  | ProgressCallback _ _ => True
  | EnsureDefaultVectorizer _ _ vectorizerId => vectorizerId ∉ v_id <$> vectorizers db
  end.

(** The request is answered 200, or, for the bootstrap, logs no error. *)
Definition op_ok (op : core_op) (db : Db) : Prop :=
  match op with
  | ConvertSource now taskId documentId data =>
      ∃ body, (post_convert_source now taskId documentId data db).2 = Json body
  | ConvertFile env now taskId documentId vectorizerUuid form =>
      ∃ body, (post_convert_file env now taskId documentId vectorizerUuid form db).2
              = Json body
  | ConvertSourceAsync env now taskId documentId vectorizerUuid data =>
      ∃ body, (post_convert_source_async env now taskId documentId vectorizerUuid data db).2
              = Json body
  | ProgressCallback now data =>
      ∃ body, (post_callback_task_progress now data db).2 = Json body
  | EnsureDefaultVectorizer env now vectorizerId =>
      (ensureDefaultVectorizer env now vectorizerId db).2 = None
  end.

(** In [db'] the document the request created carries the vectorizer [vid]. *)
Definition op_links (op : core_op) (db' : Db) (vid : jsstring) : Prop :=
  match op_document op with
  | Some documentId =>
      ∃ d, documents_with_id documentId db' = [d] ∧ d_vectorizer_id d = Some vid
  | None => True
  end.

(** At most one vectorizer row per model name. *)
Definition models_unique (db : Db) : Prop :=
  ∀ modelName, length (vectorizers_for modelName db) ≤ 1.

(** What the interleaved calls keep true: the rows of the model plus the
    calls that may still insert are no more than the calls, and every
    identifier handed back is that of a row of the model. *)
Definition goc_invariant (modelName : jsstring) (s : Db * list goc_call) : Prop :=
  length (vectorizers_for modelName s.1) + sum_list_with may_insert s.2 ≤ length s.2
  ∧ ∀ c id, c ∈ s.2 → gc_state c = Finished (Returned id) →
            id ∈ v_id <$> vectorizers_for modelName s.1.

(** ** Sample requests *)

Module Sample.
Definition env : Env := {| DEFAULT_MODEL := None |}.

Definition task1 : jsstring := lit "task-1".
Definition doc1 : jsstring := lit "doc-1".
Definition vec1 : jsstring := lit "vec-1".
Definition task2 : jsstring := lit "task-2".
Definition doc2 : jsstring := lit "doc-2".
Definition vec2 : jsstring := lit "vec-2".

(** A file of 2500 letters [a]. *)
Definition long_file : File :=
  {| file_name := lit "long.txt"; file_size := 2500; file_text := replicate 2500 97%N |}.

Definition empty_file : File :=
  {| file_name := lit "empty.txt"; file_size := 0; file_text := [] |}.

Definition short_file : File :=
  {| file_name := lit "short.txt"; file_size := 5; file_text := lit "hello" |}.

Definition form_of (files : list File) : ConvertFileForm :=
  {| form_files := files; form_format := None; form_ocr_engine := None;
     form_model := None |}.

Definition one_url : ConvertDocumentsRequest :=
  {| req_sources := [SourceString (lit "https://a/b.pdf")]; req_options := None |}.

Definition callback (taskId : jsstring) (progress : option Z)
    (status : option task_status) : ProgressCallbackRequest :=
  {| pc_task_id := taskId; pc_progress := progress; pc_message := None;
     pc_error := None; pc_status := status |}.

Definition call (uuid : jsstring) : goc_call :=
  {| gc_now := 1; gc_uuid := uuid; gc_ocr_engine := lit "easyocr";
     gc_state := BeforeSelect |}.

Definition model : jsstring := lit "gpt-4o-mini".
End Sample.

(** ** Vocabulary for the whole worker *)

(** The HTTP status of a response. *)
Definition status_of {A} (r : response A) : nat :=
  match r with
  | Json _ => 200
  | ErrorJson status _ _ => status
  end.

(** A computation run where [P] holds returns in a state where [Q] holds
    of its value, or throws in a state where [E] holds. *)
Definition hoare {A} (P : Db → Prop) (m : M A) (Q : A → Db → Prop) (E : Db → Prop)
    : Prop :=
  ∀ db, P db →
    match m db with
    | (db', Returned a) => Q a db'
    | (db', Thrown _) => E db'
    end.

(** What the schema and the order of the statements keep true of a
    database: the primary keys are unique, every reference points at a
    row, the chunks of a document carry the indices 0, 1, 2, ... in table
    order, are not empty, hold at least a full chunk's worth but for the
    last and are never just one, and a document that holds its text has
    no chunks and holds no more than one chunk's worth. *)
Record db_wf (db : Db) : Prop := {
  wf_documents_pk : NoDup (d_id <$> documents db);
  wf_tasks_pk : NoDup (t_id <$> tasks db);
  wf_vectorizers_pk : NoDup (v_id <$> vectorizers db);
  wf_chunks_fk : fk_file_chunks db;
  wf_tasks_fk : Forall (λ t, t_document_id t ∈ d_id <$> documents db) (tasks db);
  wf_sources_fk : Forall (λ s, s_document_id s ∈ d_id <$> documents db) (sources db);
  wf_documents_fk :
    Forall (λ d, ∀ v, d_vectorizer_id d = Some v → v ∈ v_id <$> vectorizers db)
      (documents db);
  wf_chunk_indices :
    ∀ documentId,
      c_chunk_index <$> chunks_of documentId db
      = seq 0 (length (chunks_of documentId db));
  wf_chunk_lengths :
    ∀ documentId i c,
      chunks_of documentId db !! i = Some c →
      0 < length (c_content c)
      ∧ (S i < length (chunks_of documentId db) →
         CHUNK_SIZE_TOKENS ≤ length (c_content c));
  wf_chunk_count : ∀ documentId, length (chunks_of documentId db) ≠ 1;
  wf_exclusive :
    Forall (λ d, is_Some (d_content d) → chunks_of (d_id d) db = []) (documents db);
  wf_inline_bound :
    Forall (λ d, ∀ s, d_content d = Some s → length s ≤ CHUNK_SIZE_TOKENS)
      (documents db)
}.

(** What the result route reads for a task: the first task row with the
    id points at the document of [d0], the first document row with that
    id agrees with [d0] on what the route returns, and the chunk rows of
    the document are [rows]. *)
Definition serves (taskId : jsstring) (d0 : document_row) (rows : list chunk_row)
    (db : Db) : Prop :=
  ∃ t d, head (tasks_with_id taskId db) = Some t
       ∧ t_document_id t = d_id d0
       ∧ head (documents_with_id (d_id d0) db) = Some d
       ∧ d_id d = d_id d0 ∧ d_pages d = d_pages d0 ∧ d_format d = d_format d0
       ∧ d_content d = d_content d0
       ∧ chunks_of (d_id d0) db = rows.

(** ** A sample history *)

Module Scenario.
(** An upload of the short sample file. *)
Definition upload : core_op :=
  ConvertFile Sample.env 1 Sample.task1 Sample.doc1 Sample.vec1
    (Sample.form_of [Sample.short_file]).

(** The database after the upload. *)
Definition stored : Db := run_ops [upload] empty_db.

(** Requests that follow: a callback for the uploaded task, an
    asynchronous conversion, a bootstrap, and an upload of the long
    sample file. *)
Definition later : list core_op :=
  [ProgressCallback 2 (Sample.callback Sample.task1 (Some 40%Z) (Some failed));
   ConvertSourceAsync Sample.env 3 Sample.task2 Sample.doc2 Sample.vec2 Sample.one_url;
   EnsureDefaultVectorizer Sample.env 4 Sample.vec2;
   ConvertFile Sample.env 5 (lit "task-3") (lit "doc-3") (lit "vec-3")
     (Sample.form_of [Sample.long_file])].

(** The upload form with another OCR engine. *)
Definition form_tesseract : ConvertFileForm :=
  {| form_files := [Sample.short_file]; form_format := None;
     form_ocr_engine := Some (lit "tesseract"); form_model := None |}.

Definition no_sources : ConvertDocumentsRequest :=
  {| req_sources := []; req_options := None |}.
End Scenario.

(** The chunk rows of every document hold no more than a chunk's worth,
    and a chunk's worth but for the last. *)
Definition exact_rows (chunks : list chunk_row) : Prop :=
  ∀ documentId i c,
    filter (λ c, c_document_id c = documentId) chunks !! i = Some c →
    length (c_content c) ≤ CHUNK_SIZE_TOKENS
    ∧ (S i < length (filter (λ c, c_document_id c = documentId) chunks) →
       length (c_content c) = CHUNK_SIZE_TOKENS).

Definition chunks_exact (db : Db) : Prop := exact_rows (file_chunks db).

(** The text a request uploads, if it uploads one, is well-formed UTF-16
    and no surrogate pair of it lies across a multiple of
    [CHUNK_SIZE_TOKENS]. *)
Definition op_keeps_pairs (op : core_op) : Prop :=
  match op with
  | ConvertFile _ _ _ _ _ form =>
      match fd_files form with
      | FileValue file :: _ =>
          well_formed (file_text file) = true
          ∧ keeps_pairs CHUNK_SIZE_TOKENS (file_text file) = true
      | _ => True
      end
  | _ => True
  end.

(** Texts with a character outside the basic plane, U+1F600, which UTF-16
    writes as the pair 0xD83D 0xDE00, and bodies that are not of the
    declared type. *)
Module Surrogates.
(** 1000 letters, the pair, one letter: the pair is units 1000 and 1001,
    the first two of the second chunk. *)
Definition pair_kept : File :=
  {| file_name := lit "kept.txt"; file_size := 1005;
     file_text := replicate 1000 97%N ++ [55357; 56832; 98]%N |}.

(** 999 letters, the pair, one letter: the pair is units 999 and 1000,
    the last of the first chunk and the first of the second. *)
Definition pair_cut : File :=
  {| file_name := lit "cut.txt"; file_size := 1004;
     file_text := replicate 999 97%N ++ [55357; 56832; 98]%N |}.

(** Two sources, the second an object without [url]. *)
Definition no_url : ConvertDocumentsBody :=
  {| body_sources := [StringValue (lit "https://a/b.pdf"); ObjectValue None];
     body_options := None |}.

(** A form whose field [file] is a string. *)
Definition text_field : FormData :=
  {| fd_files := [TextValue (lit "hello")]; fd_format := None;
     fd_ocr_engine := None; fd_model := None |}.
End Surrogates.

(** ** Strings: cutting and joining *)

Lemma substring_slice (s : jsstring) a b :
  a ≤ b → b ≤ length s → substring s a b = slice s a b.
Proof.
  intros Hab Hb. unfold substring, slice.
  rewrite (Nat.min_l a), (Nat.min_l b), Nat.max_r, Nat.min_l by lia. done.
Qed.

Lemma chunk_at_slice T (s : jsstring) i :
  i * T ≤ length s →
  chunk_at T s i = slice s (i * T) (((i + 1) * T) `min` length s).
Proof. intros Hi. unfold chunk_at. apply substring_slice; lia. Qed.

Lemma length_chunk_at T (s : jsstring) i :
  i * T ≤ length s →
  length (chunk_at T s i) = (length s - i * T) `min` T.
Proof.
  intros Hi. rewrite chunk_at_slice by done. unfold slice.
  rewrite length_take, length_drop. lia.
Qed.

Section chunking.
Context (T : nat) (HT : 0 < T).
Implicit Types s : jsstring.

Lemma Math_ceil_div_bounds L :
  Math_ceil_div L T * T < L + T ∧ L ≤ Math_ceil_div L T * T.
Proof.
  unfold Math_ceil_div.
  pose proof (Nat.div_mod_eq L T) as Hdm.
  pose proof (Nat.mod_upper_bound L T) as Hub.
  case_decide; nia.
Qed.

Lemma Math_ceil_div_pos L : 0 < L → 0 < Math_ceil_div L T.
Proof. intros HL. pose proof (Math_ceil_div_bounds L). nia. Qed.

(** The first [n] chunks, joined, are the first [n * T] code units. *)
Lemma join_chunks_take s n :
  (n - 1) * T ≤ length s →
  join (chunk_at T s <$> seq 0 n) = take (n * T) s.
Proof.
  unfold join. induction n as [|n IH]; intros Hn.
  - by rewrite take_0.
  - assert (n * T ≤ length s) as Hn' by (by replace (S n - 1) with n in Hn by lia).
    assert ((n - 1) * T ≤ n * T) by (apply Nat.mul_le_mono_r; lia).
    replace (S n * T) with (n * T + T) by lia.
    rewrite seq_S, fmap_app, concat_app, IH by lia. simpl.
    rewrite app_nil_r, chunk_at_slice by done. unfold slice.
    rewrite <-take_take_drop. f_equal.
    destruct (decide ((n + 1) * T ≤ length s)).
    + rewrite Nat.min_l by done. by replace ((n + 1) * T - n * T) with T by lia.
    + rewrite !take_ge; [done | rewrite length_drop; lia ..].
Qed.

(** Joining all the chunks gives the string back. *)
Lemma join_chunks s :
  join (chunk_at T s <$> seq 0 (Math_ceil_div (length s) T)) = s.
Proof.
  pose proof (Math_ceil_div_bounds (length s)).
  rewrite join_chunks_take by nia. apply take_ge. lia.
Qed.
End chunking.

(** ** Text columns: what comes back *)

Lemma to_text_well_formed s : well_formed s = true → to_text s = s.
Proof.
  assert (∀ n s, length s ≤ n → well_formed s = true → to_text s = s) as Hn.
  { clear s. induction n as [|n IH]; intros [|c s] Hlen Hwf; try done.
    - simpl in Hlen. lia.
    - cbn [to_text well_formed] in *. simpl in Hlen.
      destruct (is_high_surrogate c).
      + destruct s as [|d s]; [done|]. apply andb_prop in Hwf as [Hd Hs].
        rewrite Hd. do 2 f_equal. apply IH; [simpl in Hlen; lia | done].
      + apply andb_prop in Hwf as [Hc Hs]. apply negb_true_iff in Hc.
        rewrite Hc. f_equal. apply IH; [lia | done]. }
  by apply (Hn (length s)).
Qed.

(** A string never comes back shorter. *)
Lemma length_to_text s : length s ≤ length (to_text s).
Proof.
  assert (∀ n s, length s ≤ n → length s ≤ length (to_text s)) as Hn.
  { clear s. induction n as [|n IH]; intros [|c s] Hlen; try done.
    - simpl in Hlen. lia.
    - cbn [to_text]. simpl in Hlen.
      destruct (is_high_surrogate c).
      + destruct s as [|d s]; [simpl; lia|].
        destruct (is_low_surrogate d).
        * specialize (IH s). simpl in *. lia.
        * specialize (IH (d :: s)). rewrite length_app. simpl in *. lia.
      + specialize (IH s). destruct (is_low_surrogate c);
          rewrite ?length_app; simpl in *; lia. }
  by apply (Hn (length s)).
Qed.

Lemma pair_cut_at_cons c s k : pair_cut_at (c :: s) (S (S k)) = pair_cut_at s (S k).
Proof. done. Qed.

Lemma pair_cut_at_tail c s k : pair_cut_at (c :: s) (S k) = false → pair_cut_at s k = false.
Proof. destruct k; [done|]. by rewrite pair_cut_at_cons. Qed.

Lemma pair_cut_at_end s k : length s ≤ k → pair_cut_at s k = false.
Proof.
  intros Hk. destruct k as [|j]; [done|]. unfold pair_cut_at.
  rewrite (lookup_ge_None_2 s (S j)) by done. by destruct (s !! j).
Qed.

Lemma pair_cut_at_drop s a k : 0 < k → pair_cut_at (drop a s) k = pair_cut_at s (a + k).
Proof.
  intros Hk. destruct k as [|j]; [lia|].
  replace (a + S j) with (S (a + j)) by lia. unfold pair_cut_at.
  by rewrite !lookup_drop, Nat.add_succ_r.
Qed.

(** Cutting a well-formed string where no pair is leaves both parts
    well-formed. *)
Lemma well_formed_drop s k :
  well_formed s = true → pair_cut_at s k = false → well_formed (drop k s) = true.
Proof.
  assert (∀ n s k, length s ≤ n → well_formed s = true → pair_cut_at s k = false →
                   well_formed (drop k s) = true) as Hn.
  { clear s k. induction n as [|n IH]; intros [|c s] k Hlen Hwf Hcut;
      try (by destruct k).
    - simpl in Hlen. lia.
    - destruct k as [|k]; [done|]. cbn [drop skipn]. simpl in Hlen.
      cbn [well_formed] in Hwf. destruct (is_high_surrogate c) eqn:Hc.
      + destruct s as [|d s]; [done|]. apply andb_prop in Hwf as [Hd Hs].
        destruct k as [|k].
        * unfold pair_cut_at in Hcut. simpl in Hcut. by rewrite Hc, Hd in Hcut.
        * cbn [drop skipn]. apply IH; [simpl in Hlen; lia | done |].
          by do 2 apply pair_cut_at_tail in Hcut.
      + apply andb_prop in Hwf as [_ Hs].
        apply IH; [lia | done | by apply pair_cut_at_tail in Hcut]. }
  by apply (Hn (length s)).
Qed.

Lemma well_formed_take s k :
  well_formed s = true → pair_cut_at s k = false → well_formed (take k s) = true.
Proof.
  assert (∀ n s k, length s ≤ n → well_formed s = true → pair_cut_at s k = false →
                   well_formed (take k s) = true) as Hn.
  { clear s k. induction n as [|n IH]; intros [|c s] k Hlen Hwf Hcut;
      try (by destruct k).
    - simpl in Hlen. lia.
    - destruct k as [|k]; [done|]. cbn [take firstn]. simpl in Hlen.
      cbn [well_formed] in *. destruct (is_high_surrogate c) eqn:Hc.
      + destruct s as [|d s]; [done|]. apply andb_prop in Hwf as [Hd Hs].
        destruct k as [|k].
        * unfold pair_cut_at in Hcut. simpl in Hcut. by rewrite Hc, Hd in Hcut.
        * cbn [take firstn]. rewrite Hd. cbn [andb].
          apply IH; [simpl in Hlen; lia | done |].
          by do 2 apply pair_cut_at_tail in Hcut.
      + apply andb_prop in Hwf as [Hlow Hs]. rewrite Hlow. cbn [andb].
        apply IH; [lia | done | by apply pair_cut_at_tail in Hcut]. }
  by apply (Hn (length s)).
Qed.

Lemma well_formed_slice s a b :
  well_formed s = true → pair_cut_at s a = false → pair_cut_at s b = false →
  well_formed (slice s a b) = true.
Proof.
  intros Hwf Ha Hb. unfold slice. destruct (decide (b ≤ a)) as [Hle|Hlt].
  - by replace (b - a) with 0 by lia.
  - apply well_formed_take; [by apply well_formed_drop|].
    rewrite pair_cut_at_drop by lia. by replace (a + (b - a)) with b by lia.
Qed.

Lemma keeps_pairs_multiple T s i :
  0 < T → keeps_pairs T s = true → pair_cut_at s (i * T) = false.
Proof.
  intros HT Hkeep. destruct (decide (i = 0)) as [->|Hi]; [done|].
  destruct (decide (i ≤ length s `div` T)) as [Hle|Hgt].
  - unfold keeps_pairs in Hkeep. rewrite forallb_forall in Hkeep.
    apply negb_true_iff, Hkeep, in_seq. lia.
  - apply pair_cut_at_end.
    pose proof (Nat.div_mod_eq (length s) T) as Hdm.
    pose proof (Nat.mod_upper_bound (length s) T) as Hub. nia.
Qed.

(** The chunks of a well-formed text none of whose pairs lies across a
    multiple of the threshold are stored as they were cut. *)
Lemma stored_chunk_kept T s i :
  0 < T → well_formed s = true → keeps_pairs T s = true → i * T ≤ length s →
  stored_chunk T s i = chunk_at T s i.
Proof.
  intros HT Hwf Hkeep Hi. unfold stored_chunk. apply to_text_well_formed.
  rewrite chunk_at_slice by done. apply well_formed_slice; [done|..].
  - by apply keeps_pairs_multiple.
  - destruct (decide ((i + 1) * T ≤ length s)).
    + rewrite Nat.min_l by done. by apply keeps_pairs_multiple.
    + rewrite Nat.min_r by lia. by apply pair_cut_at_end.
Qed.

(** ** Running statements *)

Lemma CHUNK_SIZE_TOKENS_pos : 0 < CHUNK_SIZE_TOKENS.
Proof. unfold CHUNK_SIZE_TOKENS. lia. Qed.

Arguments CHUNK_SIZE_TOKENS : simpl never.

Ltac db_simpl :=
  cbn [documents tasks sources file_chunks vectorizers
       set_documents set_tasks set_sources set_file_chunks set_vectorizers] in *.

Lemma run_bind {A B} (m : M A) (f : A → M B) db :
  (m ≫= f) db =
  match m db with
  | (db', Returned a) => f a db'
  | (db', Thrown e) => (db', Thrown e)
  end.
Proof. done. Qed.

Lemma run_ret {A} (a : A) db : (mret a : M A) db = (db, Returned a).
Proof. done. Qed.

Lemma set_same_db db :
  {| documents := documents db; tasks := tasks db; sources := sources db;
     file_chunks := file_chunks db; vectorizers := vectorizers db |} = db.
Proof. by destruct db. Qed.

Lemma filter_fresh {A} (f : A → jsstring) (k : jsstring) (l : list A) :
  k ∉ f <$> l → filter (λ x, f x = k) l = [].
Proof.
  induction l as [|x l IH]; [done|].
  rewrite fmap_cons, not_elem_of_cons. intros [Hk Hl].
  rewrite filter_cons, decide_False by done. auto.
Qed.

Lemma filter_all {A} (P : A → Prop) `{!∀ x, Decision (P x)} (l : list A) :
  Forall P l → filter P l = l.
Proof.
  induction 1 as [|x l Hx _ IH]; [done|].
  by rewrite filter_cons, decide_True, IH.
Qed.

Lemma fmap_unchanged {A} (P : A → Prop) `{!∀ x, Decision (P x)} (g : A → A) (l : list A) :
  filter P l = [] → (λ x, if decide (P x) then g x else x) <$> l = l.
Proof.
  induction l as [|x l IH]; [done|].
  rewrite filter_cons. destruct (decide (P x)); [done|].
  intros Hl. by rewrite fmap_cons, decide_False, IH.
Qed.

Lemma insert_document_fresh now id name format pages content vectorizer_id db :
  id ∉ d_id <$> documents db →
  insert_document now id name format pages content vectorizer_id db =
    (set_documents (documents db ++
       [{| d_id := id; d_name := name; d_format := format; d_pages := pages;
           d_created_at := now; d_content := content;
           d_vectorizer_id := vectorizer_id |}]) db, Returned tt).
Proof. intros. unfold insert_document. by rewrite decide_False. Qed.

Lemma insert_task_fresh now id status document_id message db :
  id ∉ t_id <$> tasks db →
  insert_task now id status document_id message db =
    (set_tasks (tasks db ++
       [{| t_id := id; t_status := status; t_document_id := document_id;
           t_progress := Some 0%Z; t_message := Some message; t_error := None;
           t_created_at := now; t_updated_at := now |}]) db, Returned tt).
Proof. intros. unfold insert_task. by rewrite decide_False. Qed.

Lemma insert_vectorizer_fresh now id model_name engine_type chunk_size ocr parameters db :
  id ∉ v_id <$> vectorizers db →
  insert_vectorizer now id model_name engine_type chunk_size ocr parameters db =
    (set_vectorizers (vectorizers db ++
       [{| v_id := id; v_model_name := model_name; v_engine_type := engine_type;
           v_chunk_size := chunk_size; v_ocr_engine := Some ocr;
           v_created_at := now; v_updated_at := now;
           v_parameters := Some parameters |}]) db, Returned tt).
Proof. intros. unfold insert_vectorizer. by rewrite decide_False. Qed.

(** The source loop writes only [sources]: a row for each source up to
    the first one without a url, where it throws. *)
Lemma for_each_insert_source_run now documentId (l : list source_value) db :
  ∃ rows o,
    for_each (λ source, insert_source now documentId (source_url source)) l db
      = (set_sources (sources db ++ rows) db, o)
    ∧ Forall (λ r, s_document_id r = documentId) rows
    ∧ Some <$> (s_url <$> rows) = take (length rows) (source_url <$> l)
    ∧ match o with
      | Returned _ => length rows = length l
      | Thrown _ => (source_url <$> l) !! length rows = Some None
      end.
Proof.
  revert db. induction l as [|x l IH]; intros db.
  - exists [], (Returned tt). rewrite app_nil_r. unfold set_sources.
    by rewrite set_same_db.
  - cbn [for_each]. rewrite run_bind. unfold insert_source at 1.
    destruct (source_url x) as [url|] eqn:Hx.
    + cbv beta iota.
      destruct (IH (set_sources (sources db ++
        [{| s_id := S (length (sources db)); s_document_id := documentId;
            s_url := url; s_created_at := now |}]) db))
        as (rows & o & Hrun & Hd & Hu & Ho).
      eexists (_ :: rows), o. rewrite Hrun. db_simpl. rewrite <-app_assoc.
      split; [done|]. split; [by constructor|].
      rewrite !fmap_cons, Hx. cbn [length take firstn s_url]. rewrite Hu.
      split; [done|]. destruct o; [by rewrite Ho | done].
    + exists [], (Thrown (TypeNotSupported "undefined")). rewrite app_nil_r.
      rewrite fmap_cons, Hx. unfold set_sources. by rewrite set_same_db.
Qed.

(** Where every source has a url the loop cannot fail. *)
Lemma for_each_insert_source_urls now documentId (l : list source_value) db :
  Forall (λ source, is_Some (source_url source)) l →
  ∃ rows, for_each (λ source, insert_source now documentId (source_url source)) l db =
            (set_sources (sources db ++ rows) db, Returned tt)
          ∧ Some <$> (s_url <$> rows) = source_url <$> l
          ∧ Forall (λ r, s_document_id r = documentId) rows.
Proof.
  intros Hl. destruct (for_each_insert_source_run now documentId l db)
    as (rows & [[]|e] & Hrun & Hd & Hu & Ho).
  - exists rows. split; [done|]. split; [|done].
    rewrite Hu, Ho, <-(length_fmap source_url). by rewrite firstn_all.
  - exfalso. apply list_lookup_fmap_Some in Ho as (x & Hnone & Hx).
    apply list_elem_of_lookup_2, (proj1 (Forall_forall _ _) Hl) in Hx.
    rewrite <-Hnone in Hx. by destruct Hx.
Qed.


Lemma has_urls_Forall (data : ConvertDocumentsBody) :
  has_urls data ↔ Forall (λ source, is_Some (source_url source)) (body_sources data).
Proof.
  unfold has_urls. split.
  - intros Hno. apply Forall_forall. intros [u|[u|]] Hin; [by eexists..|done].
  - intros Hall Hin. apply (proj1 (Forall_forall _ _) Hall) in Hin. by destruct Hin.
Qed.

Lemma has_urls_received (data : ConvertDocumentsRequest) : has_urls data.
Proof.
  unfold has_urls. cbn [received body_sources].
  intros (x & Hx & _)%list_elem_of_fmap. by destruct x.
Qed.



Lemma source_url_received (l : list source) :
  source_url <$> (received_source <$> l) = Some <$> (declared_url <$> l).
Proof.
  rewrite <-!list_fmap_compose. apply list_fmap_ext. by intros i [u|o] _.
Qed.

(** For sources of the declared type the loop cannot fail. *)
Lemma for_each_insert_source now documentId (l : list source) db :
  ∃ rows, for_each (λ source, insert_source now documentId (source_url source))
            (received_source <$> l) db =
            (set_sources (sources db ++ rows) db, Returned tt)
          ∧ s_url <$> rows = declared_url <$> l
          ∧ Forall (λ r, s_document_id r = documentId) rows.
Proof.
  destruct (for_each_insert_source_urls now documentId (received_source <$> l) db)
    as (rows & Hrun & Hu & Hd).
  { apply Forall_fmap, Forall_forall. intros [u|o] _; by eexists. }
  exists rows. split; [done|]. split; [|done].
  rewrite source_url_received in Hu.
  by apply (inj (fmap Some)) in Hu.
Qed.

Lemma chunk_rows_index now documentId g base idx :
  c_chunk_index <$> chunk_rows now documentId g base idx = idx.
Proof. revert base. induction idx; intros; simpl; f_equal; auto. Qed.

Lemma chunk_rows_content now documentId g base idx :
  c_content <$> chunk_rows now documentId g base idx = g <$> idx.
Proof. revert base. induction idx; intros; simpl; f_equal; auto. Qed.

Lemma chunk_rows_document now documentId g base idx :
  Forall (λ c, c_document_id c = documentId) (chunk_rows now documentId g base idx).
Proof. revert base. induction idx; intros; simpl; constructor; auto. Qed.

Lemma length_chunk_rows now documentId g base idx :
  length (chunk_rows now documentId g base idx) = length idx.
Proof. revert base. induction idx; intros; simpl; f_equal; auto. Qed.

Lemma chunk_rows_lookup now documentId g base idx j i :
  idx !! j = Some i →
  ∃ c, chunk_rows now documentId g base idx !! j = Some c
       ∧ c_document_id c = documentId ∧ c_chunk_index c = i ∧ c_content c = g i.
Proof.
  revert base j. induction idx as [|a idx IH]; intros base [|j] Hj; try done.
  - simpl in *. simplify_eq. eauto.
  - simpl in *. eauto.
Qed.

(** The chunk loop over [k, k+1, ..., k+n-1] succeeds when every chunk of
    the document already stored has an index below [k]. *)
Lemma for_each_insert_file_chunk now documentId g n k db :
  (∀ c, c ∈ file_chunks db → c_document_id c = documentId → c_chunk_index c < k) →
  for_each (λ i, insert_file_chunk now documentId i (g i)) (seq k n) db =
    (set_file_chunks (file_chunks db ++
       chunk_rows now documentId (λ i, to_text (g i)) (length (file_chunks db))
         (seq k n)) db, Returned tt).
Proof.
  revert k db. induction n as [|n IH]; intros k db Hk.
  - simpl. rewrite app_nil_r. unfold set_file_chunks. by rewrite set_same_db.
  - cbn [seq for_each chunk_rows]. rewrite run_bind. unfold insert_file_chunk at 1.
    rewrite decide_False.
    2:{ intros (c & Heq & Hc)%list_elem_of_fmap. simplify_eq.
        specialize (Hk c Hc eq_refl). lia. }
    rewrite IH.
    + db_simpl. rewrite <-app_assoc, length_app. simpl.
      by replace (length (file_chunks db) + 1) with (S (length (file_chunks db))) by lia.
    + db_simpl. intros c [Hc| ->%list_elem_of_singleton]%elem_of_app Hd.
      * specialize (Hk c Hc Hd). lia.
      * simpl. lia.
Qed.

(** [ORDER BY] leaves a list alone whose keys already increase. *)
Lemma insert_by_lt {A} (key : A → nat) x l :
  Forall (λ y, key x < key y) l → insert_by key x l = x :: l.
Proof.
  destruct 1 as [|y l Hy _]; [done|]. simpl. by rewrite decide_True.
Qed.

Lemma order_by_seq {A} (key : A → nat) (l : list A) k n :
  key <$> l = seq k n → order_by key l = l.
Proof.
  revert k n. induction l as [|x l IH]; intros k n Hl; [done|].
  destruct n as [|n]; [done|]. rewrite fmap_cons in Hl. cbn [seq] in Hl.
  injection Hl as Hx Hl.
  unfold order_by. cbn [foldr]. fold (order_by key l). rewrite (IH _ _ Hl).
  apply insert_by_lt. apply Forall_forall. intros y Hy.
  assert (key y ∈ seq (S k) n) as Hy' by (rewrite <-Hl; by apply list_elem_of_fmap_2).
  apply elem_of_seq in Hy'. lia.
Qed.

Lemma lookup_or_insert_vectorizer_run now uuid modelName ocr db :
  uuid ∉ v_id <$> vectorizers db →
  ∃ vid vs',
    lookup_or_insert_vectorizer now uuid modelName ocr db =
      (set_vectorizers vs' db, Returned vid)
    ∧ vectorizer_linked now uuid modelName ocr (vectorizers db) vid vs'.
Proof.
  intros Hfresh. unfold lookup_or_insert_vectorizer.
  rewrite run_bind. unfold select_vectorizer_id at 1. cbv beta iota.
  destruct (filter _ (vectorizers db)) as [|v l] eqn:Hf; cbn [head fmap option_fmap option_map].
  - rewrite run_bind, insert_vectorizer_fresh by done. cbv beta iota. rewrite run_ret.
    eexists _, _. split; [done|]. by constructor.
  - rewrite run_ret. exists (v_id v), (vectorizers db). split.
    + unfold set_vectorizers. by rewrite set_same_db.
    + by econstructor.
Qed.

Lemma no_chunks_of_fresh_document documentId db :
  fk_file_chunks db → documentId ∉ d_id <$> documents db →
  chunks_of documentId db = [].
Proof.
  intros Hfk Hfresh. unfold chunks_of.
  destruct (filter _ _) as [|c l] eqn:Hf; [done|].
  assert (c ∈ filter (λ c, c_document_id c = documentId) (file_chunks db)) as Hc
    by (rewrite Hf; left).
  apply list_elem_of_filter in Hc as [<- Hc].
  by apply (proj1 (Forall_forall _ _) Hfk) in Hc.
Qed.

(** The chunk loop of the file route, on a database that holds no chunk
    of the document yet. *)
Lemma chunk_loop_run now documentId (contentText : jsstring) db :
  chunks_of documentId db = [] →
  (if decide (CHUNK_SIZE_TOKENS < length contentText)
   then for_each (λ i, insert_file_chunk now documentId i
          (substring contentText (i * CHUNK_SIZE_TOKENS)
             (((i + 1) * CHUNK_SIZE_TOKENS) `min` length contentText)))
          (seq 0 (Math_ceil_div (length contentText) CHUNK_SIZE_TOKENS))
   else mret tt) db =
  (set_file_chunks (file_chunks db ++
     (if decide (CHUNK_SIZE_TOKENS < length contentText)
      then chunk_rows now documentId (stored_chunk CHUNK_SIZE_TOKENS contentText)
             (length (file_chunks db))
             (seq 0 (Math_ceil_div (length contentText) CHUNK_SIZE_TOKENS))
      else [])) db, Returned tt).
Proof.
  intros Hnone. case_decide.
  - rewrite for_each_insert_file_chunk; [done|].
    intros c Hc Hd. exfalso.
    assert (c ∈ chunks_of documentId db) as Hin by (by apply list_elem_of_filter).
    rewrite Hnone in Hin. by apply elem_of_nil in Hin.
  - rewrite run_ret, app_nil_r. unfold set_file_chunks. by rewrite set_same_db.
Qed.

Section file_route.
Context (env : Env) (now : N) (taskId documentId vectorizerUuid : jsstring).
Context (form : FormData) (file : File) (rest : list FormDataEntryValue) (db : Db).
Context (Hfiles : fd_files form = FileValue file :: rest).
Context (Hsize : exceeds_size_limit file = false).
Context (Hdoc : documentId ∉ d_id <$> documents db).
Context (Htask : taskId ∉ t_id <$> tasks db).
Context (Hvec : vectorizerUuid ∉ v_id <$> vectorizers db).
Context (Hnone : chunks_of documentId db = []).

Let format := or_else (Some (or_else (fd_format form) (lit "json"))) (lit "json").
Let modelName :=
  or_else (fd_model form) (or_else (DEFAULT_MODEL env) (lit "gpt-4o-mini")).
Let ocr :=
  or_else (Some (or_else (fd_ocr_engine form) (lit "easyocr"))) (lit "easyocr").

(** The file route, run on a database where the identifiers it draws
    are new: it answers 200 and leaves exactly these rows. *)
Lemma post_convert_file_effect :
  ∃ vid db',
    post_convert_file env now taskId documentId vectorizerUuid form db =
      (db', Json {| cdr_task_id := taskId; cdr_status := completed;
                    cdr_message := Some (lit "Files processed successfully");
                    cdr_progress := None; cdr_error := None;
                    cdr_result := Some {| res_document_id := documentId;
                                          res_pages := length (fd_files form);
                                          res_format := format;
                                          res_content := None |} |})
    ∧ documents db' = documents db ++
        [{| d_id := documentId; d_name := file_name file; d_format := format;
            d_pages := length (fd_files form); d_created_at := now;
            d_content := if decide (length (file_text file) ≤ CHUNK_SIZE_TOKENS)
                         then Some (file_text file) else None;
            d_vectorizer_id := Some vid |}]
    ∧ tasks db' = tasks db ++
        [{| t_id := taskId; t_status := completed; t_document_id := documentId;
            t_progress := Some 0%Z;
            t_message := Some (lit "Files processed successfully");
            t_error := None; t_created_at := now; t_updated_at := now |}]
    ∧ sources db' = sources db
    ∧ file_chunks db' = file_chunks db ++
        (if decide (CHUNK_SIZE_TOKENS < length (file_text file))
         then chunk_rows now documentId (stored_chunk CHUNK_SIZE_TOKENS (file_text file))
                (length (file_chunks db))
                (seq 0 (Math_ceil_div (length (file_text file)) CHUNK_SIZE_TOKENS))
         else [])
    ∧ vectorizer_linked now vectorizerUuid modelName ocr
        (vectorizers db) vid (vectorizers db').
Proof.
  unfold post_convert_file. rewrite Hfiles. cbv zeta. rewrite Hsize.
  unfold catch. rewrite run_bind, insert_document_fresh by done. cbv beta iota.
  rewrite run_bind, chunk_loop_run by done. cbv beta iota.
  rewrite run_bind, insert_task_fresh by done. cbv beta iota.
  set (db3 := set_tasks _ _).
  destruct (lookup_or_insert_vectorizer_run now vectorizerUuid modelName ocr db3)
    as (vid & vs' & Hrun & Hlinked); [done|].
  unfold modelName, ocr in Hrun. rewrite run_bind, Hrun. cbv beta iota.
  rewrite run_bind. unfold update_document_vectorizer at 1. cbv beta iota.
  rewrite run_ret. exists vid. eexists. split; [reflexivity|].
  subst db3. db_simpl. split_and!; try done.
  rewrite fmap_app, (fmap_unchanged (λ d, d_id d = documentId)) by by apply filter_fresh.
  simpl. by rewrite decide_True.
Qed.
End file_route.

(** The same for a form of the declared type, whose files are files. *)
Lemma post_convert_file_effect_declared env now taskId documentId vectorizerUuid
    (form : ConvertFileForm) (file : File) (rest : list File) db :
  form_files form = file :: rest →
  exceeds_size_limit file = false →
  documentId ∉ d_id <$> documents db →
  taskId ∉ t_id <$> tasks db →
  vectorizerUuid ∉ v_id <$> vectorizers db →
  chunks_of documentId db = [] →
  ∃ vid db',
    post_convert_file env now taskId documentId vectorizerUuid form db =
      (db', Json {| cdr_task_id := taskId; cdr_status := completed;
                    cdr_message := Some (lit "Files processed successfully");
                    cdr_progress := None; cdr_error := None;
                    cdr_result := Some {| res_document_id := documentId;
                                          res_pages := length (form_files form);
                                          res_format :=
                                            or_else (Some (or_else (form_format form)
                                                             (lit "json"))) (lit "json");
                                          res_content := None |} |})
    ∧ documents db' = documents db ++
        [{| d_id := documentId; d_name := file_name file;
            d_format := or_else (Some (or_else (form_format form) (lit "json")))
                          (lit "json");
            d_pages := length (form_files form); d_created_at := now;
            d_content := if decide (length (file_text file) ≤ CHUNK_SIZE_TOKENS)
                         then Some (file_text file) else None;
            d_vectorizer_id := Some vid |}]
    ∧ tasks db' = tasks db ++
        [{| t_id := taskId; t_status := completed; t_document_id := documentId;
            t_progress := Some 0%Z;
            t_message := Some (lit "Files processed successfully");
            t_error := None; t_created_at := now; t_updated_at := now |}]
    ∧ sources db' = sources db
    ∧ file_chunks db' = file_chunks db ++
        (if decide (CHUNK_SIZE_TOKENS < length (file_text file))
         then chunk_rows now documentId (stored_chunk CHUNK_SIZE_TOKENS (file_text file))
                (length (file_chunks db))
                (seq 0 (Math_ceil_div (length (file_text file)) CHUNK_SIZE_TOKENS))
         else [])
    ∧ vectorizer_linked now vectorizerUuid
        (or_else (form_model form) (or_else (DEFAULT_MODEL env) (lit "gpt-4o-mini")))
        (or_else (Some (or_else (form_ocr_engine form) (lit "easyocr"))) (lit "easyocr"))
        (vectorizers db) vid (vectorizers db').
Proof.
  intros Hfiles Hsize Hdoc Htask Hvec Hnone.
  destruct (post_convert_file_effect env now taskId documentId vectorizerUuid
              form file (FileValue <$> rest) db) as (vid & db' & Hrun & Hrest);
    [by cbn; rewrite Hfiles | done..|].
  exists vid, db'. cbn [form_data fd_files fd_format fd_model fd_ocr_engine] in *.
  rewrite length_fmap in *. by split.
Qed.

(** ** Reading a task back *)

Lemma truthy_nonempty (s : jsstring) : s ≠ [] → truthy s = true.
Proof. by destruct s. Qed.

Lemma select_task_document_found taskId db t ts d ds :
  tasks_with_id taskId db = t :: ts →
  documents_with_id (t_document_id t) db = d :: ds →
  select_task_document taskId db = (db, Returned (Some (t, d))).
Proof.
  unfold tasks_with_id, documents_with_id, select_task_document.
  intros -> Hd. cbn [mbind list_bind]. by rewrite Hd.
Qed.

(** The result route on a task whose row and document row exist. *)
Lemma get_result_found taskId db t ts d ds :
  taskId ≠ [] →
  tasks_with_id taskId db = t :: ts →
  documents_with_id (t_document_id t) db = d :: ds →
  get_result taskId db =
    (db, Json {| cdr_task_id := t_id t; cdr_status := t_status t;
                 cdr_message := t_message t; cdr_progress := t_progress t;
                 cdr_error := t_error t;
                 cdr_result := Some
                   {| res_document_id := d_id d; res_pages := d_pages d;
                      res_format := d_format d;
                      res_content :=
                        let content :=
                          if negb (truthy_text (d_content d)) && truthy (d_id d)
                          then
                            let chunks :=
                              c_content <$> order_by c_chunk_index (chunks_of (d_id d) db) in
                            if decide (0 < length chunks) then Some (join chunks)
                            else d_content d
                          else d_content d in
                        if truthy_text content then content else None |} |}).
Proof.
  intros Hne Ht Hd. unfold get_result. rewrite truthy_nonempty by done.
  cbn [negb]. unfold catch.
  rewrite run_bind, (select_task_document_found _ _ _ _ _ _ Ht Hd). cbv beta iota zeta.
  destruct (negb (truthy_text (d_content d)) && truthy (d_id d)).
  - rewrite run_bind, run_bind. unfold select_chunk_contents at 1. cbv beta iota.
    by rewrite run_ret, run_ret.
  - by rewrite run_bind, run_ret, run_ret.
Qed.

Ltac resp_simpl :=
  cbn [cdr_task_id cdr_status cdr_progress cdr_message cdr_error cdr_result
       res_document_id res_pages res_format res_content
       tsr_task_id tsr_status tsr_message tsr_progress tsr_error
       pcr_success pcr_task_id pcr_progress] in *.

(** Inline content that is not empty comes back as it is. *)
Lemma get_result_inline taskId db t ts d ds (content : jsstring) :
  taskId ≠ [] →
  tasks_with_id taskId db = t :: ts →
  documents_with_id (t_document_id t) db = d :: ds →
  d_content d = Some content → content ≠ [] →
  get_result taskId db =
    (db, Json {| cdr_task_id := t_id t; cdr_status := t_status t;
                 cdr_message := t_message t; cdr_progress := t_progress t;
                 cdr_error := t_error t;
                 cdr_result := Some {| res_document_id := d_id d;
                                       res_pages := d_pages d;
                                       res_format := d_format d;
                                       res_content := Some content |} |}).
Proof.
  intros Hne Ht Hd Hc Hcontent.
  rewrite (get_result_found _ _ _ _ _ _ Hne Ht Hd).
  rewrite Hc. cbn [truthy_text]. rewrite truthy_nonempty by done.
  cbn [negb andb truthy_text]. by rewrite truthy_nonempty.
Qed.

(** A document with neither text nor chunks yields no content. *)
Lemma get_result_absent taskId db t ts d ds :
  taskId ≠ [] →
  tasks_with_id taskId db = t :: ts →
  documents_with_id (t_document_id t) db = d :: ds →
  truthy_text (d_content d) = false → chunks_of (d_id d) db = [] →
  get_result taskId db =
    (db, Json {| cdr_task_id := t_id t; cdr_status := t_status t;
                 cdr_message := t_message t; cdr_progress := t_progress t;
                 cdr_error := t_error t;
                 cdr_result := Some {| res_document_id := d_id d;
                                       res_pages := d_pages d;
                                       res_format := d_format d;
                                       res_content := None |} |}).
Proof.
  intros Hne Ht Hd Hc Hchunks.
  rewrite (get_result_found _ _ _ _ _ _ Hne Ht Hd).
  rewrite Hchunks, Hc. cbn [negb andb fmap list_fmap length order_by foldr].
  destruct (truthy (d_id d)); [rewrite decide_False by (simpl; lia)|]; by rewrite Hc.
Qed.

(** A document without text whose chunk rows carry the indices 0, 1, ...
    yields their contents, joined in that order. *)
Lemma get_result_chunked taskId db t ts d ds n :
  taskId ≠ [] →
  tasks_with_id taskId db = t :: ts →
  documents_with_id (t_document_id t) db = d :: ds →
  d_content d = None → d_id d ≠ [] →
  c_chunk_index <$> chunks_of (d_id d) db = seq 0 n → 0 < n →
  join (c_content <$> chunks_of (d_id d) db) ≠ [] →
  ∃ r res, get_result taskId db = (db, Json r) ∧ cdr_result r = Some res
           ∧ res_content res = Some (join (c_content <$> chunks_of (d_id d) db)).
Proof.
  intros Hne Ht Hd Hc Hid Hidx Hn Hjoin.
  rewrite (get_result_found _ _ _ _ _ _ Hne Ht Hd). eexists _, _.
  split; [done|]. split; [done|]. resp_simpl.
  rewrite Hc, (order_by_seq _ _ _ _ Hidx), truthy_nonempty by done.
  cbn [truthy_text negb andb]. rewrite decide_True.
  2:{ rewrite length_fmap, <-(length_fmap c_chunk_index), Hidx, length_seq. done. }
  cbn [truthy_text]. by rewrite truthy_nonempty.
Qed.

Lemma filter_app_fresh {A} (f : A → jsstring) (k : jsstring) (l : list A) (x : A) :
  k ∉ f <$> l → f x = k → filter (λ y, f y = k) (l ++ [x]) = [x].
Proof.
  intros Hk Hx. rewrite filter_app, filter_fresh by done.
  by rewrite filter_cons, decide_True.
Qed.

(** ** Chunked content: splitting on write, reassembly on read *)

Lemma stored_chunks_kept (s : jsstring) :
  well_formed s = true → keeps_pairs CHUNK_SIZE_TOKENS s = true →
  stored_chunk CHUNK_SIZE_TOKENS s <$> seq 0 (Math_ceil_div (length s) CHUNK_SIZE_TOKENS)
  = chunk_at CHUNK_SIZE_TOKENS s <$> seq 0 (Math_ceil_div (length s) CHUNK_SIZE_TOKENS).
Proof.
  intros Hwf Hkeep. pose proof CHUNK_SIZE_TOKENS_pos as HT.
  pose proof (Math_ceil_div_bounds _ HT (length s)) as [Hub Hlb].
  apply list_fmap_ext. intros j i Hi. apply lookup_seq in Hi as [-> Hi].
  apply stored_chunk_kept; [done..|]. simpl. nia.
Qed.

Lemma slice_take_drop (T : nat) (s : jsstring) i :
  i * T ≤ length s →
  slice s (i * T) (((i + 1) * T) `min` length s) = take T (drop (i * T) s).
Proof.
  intros Hi. unfold slice. destruct (decide ((i + 1) * T ≤ length s)).
  - rewrite Nat.min_l by done. by replace ((i + 1) * T - i * T) with T by lia.
  - rewrite Nat.min_r by lia. rewrite !take_ge; [done | rewrite length_drop; lia..].
Qed.

(** The i-th chunk as stored: what the TEXT column gives back for the
    code units from i*T up to (i+1)*T. *)
Lemma stored_chunk_take_drop (T : nat) (s : jsstring) i :
  i * T ≤ length s → stored_chunk T s i = to_text (take T (drop (i * T) s)).
Proof.
  intros Hi. unfold stored_chunk. f_equal.
  rewrite chunk_at_slice by done. by apply slice_take_drop.
Qed.

Lemma stored_chunks_take_drop (s : jsstring) :
  stored_chunk CHUNK_SIZE_TOKENS s
    <$> seq 0 (Math_ceil_div (length s) CHUNK_SIZE_TOKENS)
  = (λ i, to_text (take CHUNK_SIZE_TOKENS (drop (i * CHUNK_SIZE_TOKENS) s)))
      <$> seq 0 (Math_ceil_div (length s) CHUNK_SIZE_TOKENS).
Proof.
  pose proof CHUNK_SIZE_TOKENS_pos as HT.
  pose proof (Math_ceil_div_bounds _ HT (length s)) as [Hub Hlb].
  apply list_fmap_ext. intros j i Hi. apply lookup_seq in Hi as [-> Hi].
  apply stored_chunk_take_drop. simpl. nia.
Qed.

(** What the chunk loop stores for a long text is not empty. *)
Lemma join_stored_nonempty (s : jsstring) :
  CHUNK_SIZE_TOKENS < length s →
  join (stored_chunk CHUNK_SIZE_TOKENS s
          <$> seq 0 (Math_ceil_div (length s) CHUNK_SIZE_TOKENS)) ≠ [].
Proof.
  intros HL. pose proof CHUNK_SIZE_TOKENS_pos as HT.
  pose proof (Math_ceil_div_pos _ HT (length s)) as Hn.
  destruct (Math_ceil_div (length s) CHUNK_SIZE_TOKENS) as [|n]; [lia|].
  cbn [seq fmap list_fmap]. unfold join. cbn [concat]. intros Heq.
  apply (f_equal length) in Heq. rewrite length_app in Heq. unfold stored_chunk in Heq.
  pose proof (length_to_text (chunk_at CHUNK_SIZE_TOKENS s 0)) as Hmore.
  rewrite length_chunk_at in Hmore by (simpl; lia). simpl in Heq. lia.
Qed.

Section file_route_properties.
Context (env : Env) (now : N) (taskId documentId vectorizerUuid : jsstring).
Context (form : ConvertFileForm) (file : File) (rest : list File) (db : Db).

(** C1 (as amended). A file whose text is not empty, is well-formed
    UTF-16 and has no surrogate pair across a multiple of the threshold
    comes back from the result route exactly as it was uploaded, whether
    it was stored inline or in chunks; an empty text comes back as no
    content.  Whatever the text, one within the threshold comes back as
    it was uploaded, and a longer one comes back as its pieces of T code
    units, each as the TEXT column gives it back, joined in order. *)
Theorem chunked_content_round_trip :
  form_files form = file :: rest →
  exceeds_size_limit file = false →
  taskId ≠ [] → documentId ≠ [] →
  documentId ∉ d_id <$> documents db →
  taskId ∉ t_id <$> tasks db →
  vectorizerUuid ∉ v_id <$> vectorizers db →
  fk_file_chunks db →
  let C := file_text file in
  let T := CHUNK_SIZE_TOKENS in
  ∃ db' body,
    post_convert_file env now taskId documentId vectorizerUuid form db = (db', Json body)
    ∧ ∃ r res,
        get_result (cdr_task_id body) db' = (db', Json r)
        ∧ cdr_result r = Some res
        ∧ (well_formed C = true → keeps_pairs T C = true →
           res_content res = if decide (C = []) then None else Some C)
        ∧ (length C ≤ T →
           res_content res = if decide (C = []) then None else Some C)
        ∧ (T < length C →
           ∃ n, length C ≤ n * T ∧ n * T < length C + T
                ∧ res_content res
                  = Some (join ((λ i, to_text (take T (drop (i * T) C))) <$> seq 0 n))).
Proof.
  intros Hfiles Hsize HtaskId HdocId Hdoc Htask Hvec Hfk C T.
  destruct (post_convert_file_effect_declared env now taskId documentId vectorizerUuid
              form file rest db Hfiles Hsize Hdoc Htask Hvec
              (no_chunks_of_fresh_document _ _ Hfk Hdoc))
    as (vid & db' & Hrun & Hdocs & Htasks & _ & Hchunks & _).
  pose proof CHUNK_SIZE_TOKENS_pos as HT.
  fold C in Hdocs, Hchunks. fold T in Hdocs, Hchunks, HT.
  exists db'. eexists. split; [exact Hrun|]. resp_simpl.
  assert (∃ t, tasks_with_id taskId db' = [t] ∧ t_document_id t = documentId)
    as (t & Ht & Htd).
  { eexists. unfold tasks_with_id. rewrite Htasks.
    split; [by apply filter_app_fresh|done]. }
  assert (∃ d, documents_with_id documentId db' = [d] ∧ d_id d = documentId ∧
               d_content d = if decide (length C ≤ T) then Some C else None)
    as (d & Hd & Hdid & Hdc).
  { eexists. unfold documents_with_id. rewrite Hdocs.
    split; [by apply filter_app_fresh|done]. }
  rewrite <-Htd in Hd.
  assert (chunks_of documentId db' =
          if decide (T < length C)
          then chunk_rows now documentId (stored_chunk T C)
                 (length (file_chunks db)) (seq 0 (Math_ceil_div (length C) T))
          else []) as Hrows.
  { unfold chunks_of. rewrite Hchunks, filter_app.
    fold (chunks_of documentId db). rewrite no_chunks_of_fresh_document by done.
    rewrite app_nil_l.
    destruct (decide (T < length C)); [|done].
    apply filter_all, chunk_rows_document. }
  destruct (decide (length C ≤ T)) as [Hle|Hgt].
  - rewrite decide_False in Hrows by lia.
    destruct (decide (C = [])) as [Hempty|Hnonempty].
    + rewrite (get_result_absent taskId db' t [] d []); try done.
      * eexists _, _. split_and!; [done..|]. intros ?. lia.
      * by rewrite Hdc, Hempty.
      * by rewrite Hdid.
    + rewrite (get_result_inline taskId db' t [] d [] C); try done.
      eexists _, _. split_and!; [done..|]. intros ?. lia.
  - rewrite decide_True in Hrows by lia.
    assert (join (c_content <$> chunks_of (d_id d) db')
            = join (stored_chunk T C <$> seq 0 (Math_ceil_div (length C) T)))
      as Hjoin.
    { by rewrite Hdid, Hrows, chunk_rows_content. }
    assert (C ≠ []) as Hnonempty.
    { intros Hempty. rewrite Hempty in Hgt. simpl in Hgt. lia. }
    destruct (get_result_chunked taskId db' t [] d [] (Math_ceil_div (length C) T))
      as (r & res & Hr & Hres & Hc); try done.
    { by rewrite Hdid. }
    { by rewrite Hdid, Hrows, chunk_rows_index. }
    { apply Math_ceil_div_pos; lia. }
    { rewrite Hjoin. apply join_stored_nonempty. lia. }
    exists r, res. rewrite decide_False by done. rewrite Hc, Hjoin.
    pose proof (Math_ceil_div_bounds T HT (length C)) as [Hub Hlb].
    split_and!; [done..| | |].
    + intros Hwf Hkeep. unfold T. rewrite stored_chunks_kept by done.
      f_equal. by apply join_chunks.
    + intros ?. lia.
    + intros _. exists (Math_ceil_div (length C) T). split_and!; [done..|].
      unfold T. by rewrite stored_chunks_take_drop.
Qed.

(** C2 (as amended). A text longer than the threshold is stored as
    ceil(L/T) chunk rows under the keys (document, 0), (document, 1), ...
    and the document row holds no text; the i-th row holds what the TEXT
    column gives back for the slice from i*T up to min((i+1)*T, L).  For
    a text that is well-formed UTF-16 and has no surrogate pair across a
    multiple of T that is the slice itself, of T code units but possibly
    for the last.  A text within the threshold is stored on the document
    row and no chunk row is made. *)
Theorem chunk_splitting :
  form_files form = file :: rest →
  exceeds_size_limit file = false →
  documentId ∉ d_id <$> documents db →
  taskId ∉ t_id <$> tasks db →
  vectorizerUuid ∉ v_id <$> vectorizers db →
  fk_file_chunks db →
  let contentText := file_text file in
  let L := length contentText in
  let T := CHUNK_SIZE_TOKENS in
  ∃ db' body d,
    post_convert_file env now taskId documentId vectorizerUuid form db = (db', Json body)
    ∧ documents_with_id documentId db' = [d]
    ∧ (T < L →
         d_content d = None
         ∧ ∃ n, length (chunks_of documentId db') = n
                ∧ L ≤ n * T ∧ n * T < L + T
                ∧ ∀ i, i < n →
                    ∃ c, chunks_of documentId db' !! i = Some c
                         ∧ c_document_id c = documentId
                         ∧ c_chunk_index c = i
                         ∧ c_content c =
                             to_text (slice contentText (i * T) (((i + 1) * T) `min` L))
                         ∧ (well_formed contentText = true →
                            keeps_pairs T contentText = true →
                            c_content c = slice contentText (i * T) (((i + 1) * T) `min` L)
                            ∧ (i + 1 < n → length (c_content c) = T)
                            ∧ 0 < length (c_content c) ≤ T))
    ∧ (L ≤ T → d_content d = Some contentText ∧ chunks_of documentId db' = []).
Proof.
  intros Hfiles Hsize Hdoc Htask Hvec Hfk contentText L T.
  destruct (post_convert_file_effect_declared env now taskId documentId vectorizerUuid
              form file rest db Hfiles Hsize Hdoc Htask Hvec
              (no_chunks_of_fresh_document _ _ Hfk Hdoc))
    as (vid & db' & Hrun & Hdocs & _ & _ & Hchunks & _).
  pose proof CHUNK_SIZE_TOKENS_pos as HT. fold T in HT.
  exists db'. eexists _, _. split; [exact Hrun|].
  split; [unfold documents_with_id; rewrite Hdocs; by apply filter_app_fresh|].
  assert (chunks_of documentId db' =
          if decide (T < L)
          then chunk_rows now documentId (stored_chunk T contentText)
                 (length (file_chunks db)) (seq 0 (Math_ceil_div L T))
          else []) as Hrows.
  { unfold chunks_of. rewrite Hchunks, filter_app.
    fold (chunks_of documentId db). rewrite no_chunks_of_fresh_document by done.
    fold contentText L T. rewrite app_nil_l.
    destruct (decide (T < L)); [|done].
    apply filter_all, chunk_rows_document. }
  cbn [d_content]. fold contentText L T. split.
  - intros HL. rewrite decide_True in Hrows by done.
    rewrite decide_False by lia. split; [done|].
    pose proof (Math_ceil_div_bounds T HT L) as [Hub Hlb].
    exists (Math_ceil_div L T).
    split; [by rewrite Hrows, length_chunk_rows, length_seq|].
    split; [done|]. split; [done|]. intros i Hi.
    destruct (chunk_rows_lookup now documentId (stored_chunk T contentText)
                (length (file_chunks db)) (seq 0 (Math_ceil_div L T)) i i)
      as (c & Hc & Hcd & Hci & Hcc); [by apply lookup_seq_lt|].
    assert (i * T < L) as HiL by nia.
    exists c. rewrite Hrows. split_and!; try done.
    + rewrite Hcc. unfold stored_chunk. f_equal. apply chunk_at_slice. fold L. lia.
    + intros Hwf Hkeep.
      rewrite Hcc, stored_chunk_kept by (done || (fold L; lia)).
      split_and!.
      * apply chunk_at_slice. fold L. lia.
      * intros Hi'. rewrite length_chunk_at by (fold L; lia). fold L. nia.
      * rewrite length_chunk_at by (fold L; lia). fold L. lia.
      * rewrite length_chunk_at by (fold L; lia). fold L. lia.
  - intros HL. rewrite decide_False in Hrows by lia.
    by rewrite decide_True.
Qed.
End file_route_properties.

(** ** The URL routes and the progress callback *)

(** The synchronous URL route, run where its identifiers are new. *)
Lemma post_convert_source_effect now taskId documentId
    (data : ConvertDocumentsRequest) db :
  req_sources data ≠ [] →
  documentId ∉ d_id <$> documents db →
  taskId ∉ t_id <$> tasks db →
  ∃ db' rows,
    post_convert_source now taskId documentId data db =
      (db', Json {| cdr_task_id := taskId; cdr_status := completed;
                    cdr_message := Some (lit "Document conversion started");
                    cdr_progress := None; cdr_error := None;
                    cdr_result := Some {| res_document_id := documentId;
                                          res_pages := length (req_sources data);
                                          res_format := lit "json";
                                          res_content := None |} |})
    ∧ documents db' = documents db ++
        [{| d_id := documentId; d_name := lit "url-document"; d_format := lit "json";
            d_pages := length (req_sources data); d_created_at := now;
            d_content := Some (JSON_stringify_object1 (lit "source") (lit "url"));
            d_vectorizer_id := None |}]
    ∧ tasks db' = tasks db ++
        [{| t_id := taskId; t_status := completed; t_document_id := documentId;
            t_progress := Some 0%Z;
            t_message := Some (lit "Document conversion started");
            t_error := None; t_created_at := now; t_updated_at := now |}]
    ∧ sources db' = sources db ++ rows
    ∧ s_url <$> rows = declared_url <$> req_sources data
    ∧ Forall (λ r, s_document_id r = documentId) rows
    ∧ file_chunks db' = file_chunks db
    ∧ vectorizers db' = vectorizers db.
Proof.
  intros Hsrc Hdoc Htask. unfold post_convert_source.
  cbn [received body_sources]. rewrite length_fmap.
  rewrite decide_False by (by destruct (req_sources data)).
  unfold catch. rewrite run_bind, insert_document_fresh by done. cbv beta iota.
  rewrite run_bind, insert_task_fresh by done. cbv beta iota.
  rewrite run_bind.
  match goal with |- context [for_each _ _ ?db1] =>
    destruct (for_each_insert_source now documentId (req_sources data) db1)
      as (rows & Hloop & Hurl & Hdocid)
  end.
  rewrite Hloop. cbv beta iota. rewrite run_ret.
  eexists _, rows. split; [reflexivity|]. db_simpl. by split_and!.
Qed.

Section async_route.
Context (env : Env) (now : N) (taskId documentId vectorizerUuid : jsstring).
Context (data : ConvertDocumentsBody) (db : Db).
Context (Hsrc : body_sources data ≠ []).
Context (Hurls : has_urls data).
Context (Hdoc : documentId ∉ d_id <$> documents db).
Context (Htask : taskId ∉ t_id <$> tasks db).
Context (Hvec : vectorizerUuid ∉ v_id <$> vectorizers db).

Let modelName :=
  or_else (body_options data ≫= opt_model)
          (or_else (DEFAULT_MODEL env) (lit "gpt-4o-mini")).
Let ocr := or_else (body_options data ≫= opt_ocr_engine) (lit "easyocr").

(** The asynchronous URL route, run where its identifiers are new and
    every source has a url. *)
Lemma post_convert_source_async_effect :
  ∃ vid db' rows,
    post_convert_source_async env now taskId documentId vectorizerUuid data db =
      (db', Json {| tsr_task_id := taskId; tsr_status := pending;
                    tsr_message := Some (lit "Document conversion queued");
                    tsr_progress := None; tsr_error := None |})
    ∧ documents db' = documents db ++
        [{| d_id := documentId; d_name := lit "async-document"; d_format := lit "json";
            d_pages := length (body_sources data); d_created_at := now;
            d_content := None; d_vectorizer_id := Some vid |}]
    ∧ tasks db' = tasks db ++
        [{| t_id := taskId; t_status := pending; t_document_id := documentId;
            t_progress := Some 0%Z;
            t_message := Some (lit "Document conversion queued");
            t_error := None; t_created_at := now; t_updated_at := now |}]
    ∧ sources db' = sources db ++ rows
    ∧ Some <$> (s_url <$> rows) = source_url <$> body_sources data
    ∧ file_chunks db' = file_chunks db
    ∧ vectorizer_linked now vectorizerUuid modelName ocr
        (vectorizers db) vid (vectorizers db').
Proof.
  unfold post_convert_source_async.
  rewrite decide_False by (by destruct (body_sources data)).
  unfold catch. cbv zeta.
  destruct (lookup_or_insert_vectorizer_run now vectorizerUuid modelName ocr db)
    as (vid & vs' & Hrun & Hlinked); [done|].
  unfold modelName, ocr in Hrun. rewrite run_bind, Hrun. cbv beta iota.
  rewrite run_bind, insert_document_fresh by done. cbv beta iota.
  rewrite run_bind, insert_task_fresh by done. cbv beta iota.
  rewrite run_bind.
  match goal with |- context [for_each _ _ ?db1] =>
    destruct (for_each_insert_source_urls now documentId (body_sources data) db1
                (proj1 (has_urls_Forall data) Hurls))
      as (rows & Hloop & Hurl & _)
  end.
  rewrite Hloop. cbv beta iota. rewrite run_ret.
  eexists vid, _, rows. split; [reflexivity|]. db_simpl. by split_and!.
Qed.
End async_route.

(** The same for a request of the declared type. *)
Lemma post_convert_source_async_effect_declared env now taskId documentId vectorizerUuid
    (data : ConvertDocumentsRequest) db :
  req_sources data ≠ [] →
  documentId ∉ d_id <$> documents db →
  taskId ∉ t_id <$> tasks db →
  vectorizerUuid ∉ v_id <$> vectorizers db →
  ∃ vid db' rows,
    post_convert_source_async env now taskId documentId vectorizerUuid data db =
      (db', Json {| tsr_task_id := taskId; tsr_status := pending;
                    tsr_message := Some (lit "Document conversion queued");
                    tsr_progress := None; tsr_error := None |})
    ∧ documents db' = documents db ++
        [{| d_id := documentId; d_name := lit "async-document"; d_format := lit "json";
            d_pages := length (req_sources data); d_created_at := now;
            d_content := None; d_vectorizer_id := Some vid |}]
    ∧ tasks db' = tasks db ++
        [{| t_id := taskId; t_status := pending; t_document_id := documentId;
            t_progress := Some 0%Z;
            t_message := Some (lit "Document conversion queued");
            t_error := None; t_created_at := now; t_updated_at := now |}]
    ∧ sources db' = sources db ++ rows
    ∧ s_url <$> rows = declared_url <$> req_sources data
    ∧ file_chunks db' = file_chunks db
    ∧ vectorizer_linked now vectorizerUuid
        (or_else (req_options data ≫= opt_model)
           (or_else (DEFAULT_MODEL env) (lit "gpt-4o-mini")))
        (or_else (req_options data ≫= opt_ocr_engine) (lit "easyocr"))
        (vectorizers db) vid (vectorizers db').
Proof.
  intros Hsrc Hdoc Htask Hvec.
  destruct (post_convert_source_async_effect env now taskId documentId vectorizerUuid
              data db) as (vid & db' & rows & Hrun & Hdocs & Htasks & Hs & Hu & Hrest);
    [by cbn; destruct (req_sources data)
    |apply has_urls_received
    |done..|].
  exists vid, db', rows. cbn [received body_sources body_options] in *.
  rewrite length_fmap in *. rewrite source_url_received in Hu.
  apply (inj (fmap Some)) in Hu. destruct Hrest. by split_and!.
Qed.

(** The [UPDATE] of the callback rewrites the rows with the given id and
    no other. *)
Lemma updated_tasks_with_id now progress message error status id (l : list task_row) :
  filter (λ t, t_id t = id)
    ((λ t, if decide (t_id t = id)
           then updated_task now progress message error status t else t) <$> l) =
  updated_task now progress message error status <$> filter (λ t, t_id t = id) l.
Proof.
  induction l as [|t l IH]; [done|].
  rewrite fmap_cons, !filter_cons. destruct (decide (t_id t = id)) as [Heq|Hne].
  - rewrite decide_True by done. by rewrite fmap_cons, IH.
  - by rewrite decide_False.
Qed.

(** The callback on a request that passes validation and names a task. *)
Lemma post_callback_task_progress_found now data progress db t ts :
  pc_task_id data ≠ [] →
  pc_progress data = Some progress →
  tasks_with_id (pc_task_id data) db = t :: ts →
  post_callback_task_progress now data db =
    (set_tasks ((λ t, if decide (t_id t = pc_task_id data)
                      then updated_task now progress (or_null (pc_message data))
                             (or_null (pc_error data)) (pc_status data) t
                      else t) <$> tasks db) db,
     Json {| pcr_success := true; pcr_task_id := pc_task_id data;
             pcr_progress := progress |}).
Proof.
  intros Hid Hp Ht. unfold post_callback_task_progress.
  rewrite truthy_nonempty, Hp by done. cbn [negb]. unfold catch.
  rewrite run_bind. unfold update_task_progress at 1. cbv beta iota.
  fold (tasks_with_id (pc_task_id data) db). rewrite Ht.
  rewrite decide_False by done. by rewrite run_ret.
Qed.

(** The status route on a task whose row exists. *)
Lemma get_status_poll_found taskId db t ts :
  taskId ≠ [] →
  tasks_with_id taskId db = t :: ts →
  get_status_poll taskId db =
    (db, Json {| tsr_task_id := t_id t; tsr_status := t_status t;
                 tsr_message := t_message t; tsr_progress := t_progress t;
                 tsr_error := t_error t |}).
Proof.
  intros Hne Ht. unfold get_status_poll. rewrite truthy_nonempty by done.
  cbn [negb]. unfold catch. rewrite run_bind. unfold select_task at 1.
  cbv beta iota. fold (tasks_with_id taskId db). rewrite Ht. cbn [head].
  by rewrite run_ret.
Qed.

Lemma url_placeholder_stringify :
  JSON_stringify_object1 (lit "source") (lit "url") = url_placeholder.
Proof. reflexivity. Qed.

(** C10. The synchronous URL route stores the fixed text
    [{"source":"url"}] as the content of the document, whatever the
    sources are, and the result route returns exactly that text. *)
Theorem url_sync_placeholder_content now taskId documentId data db :
  req_sources data ≠ [] →
  taskId ≠ [] →
  documentId ∉ d_id <$> documents db →
  taskId ∉ t_id <$> tasks db →
  ∃ db' body d,
    post_convert_source now taskId documentId data db = (db', Json body)
    ∧ documents_with_id documentId db' = [d]
    ∧ d_content d = Some url_placeholder
    ∧ ∃ r res,
        get_result (cdr_task_id body) db' = (db', Json r)
        ∧ cdr_result r = Some res
        ∧ res_document_id res = documentId
        ∧ res_content res = Some url_placeholder.
Proof.
  intros Hsrc HtaskId Hdoc Htask.
  destruct (post_convert_source_effect now taskId documentId data db Hsrc Hdoc Htask)
    as (db' & rows & Hrun & Hdocs & Htasks & _).
  exists db'. eexists _, _. split; [exact Hrun|]. resp_simpl.
  assert (∃ t, tasks_with_id taskId db' = [t] ∧ t_document_id t = documentId)
    as (t & Ht & Htd).
  { eexists. unfold tasks_with_id. rewrite Htasks.
    split; [by apply filter_app_fresh|done]. }
  assert (∃ d, documents_with_id documentId db' = [d] ∧ d_id d = documentId
               ∧ d_content d = Some url_placeholder) as (d & Hd & Hdid & Hdc).
  { eexists. unfold documents_with_id. rewrite Hdocs.
    split; [by apply filter_app_fresh|done]. }
  split; [unfold documents_with_id; rewrite Hdocs; by apply filter_app_fresh|].
  split; [done|]. rewrite <-Htd in Hd.
  rewrite (get_result_inline taskId db' t [] d [] url_placeholder); try done.
  by eexists _, _.
Qed.

(** C4 (as amended). A progress callback whose task id matches no row
    writes nothing; it is answered 404 "Task not found" when the id is
    not empty and a progress value is supplied, and 400 "Invalid progress
    data" otherwise. *)
Theorem progress_update_unknown_task now data db :
  tasks_with_id (pc_task_id data) db = [] →
  post_callback_task_progress now data db =
    (db, if truthy (pc_task_id data) && bool_decide (is_Some (pc_progress data))
         then ErrorJson 404 (lit "Task not found") None
         else ErrorJson 400 (lit "Invalid progress data") None).
Proof.
  intros Ht. unfold post_callback_task_progress.
  destruct (truthy (pc_task_id data)); [|done]. cbn [negb andb].
  destruct (pc_progress data) as [progress|]; [|done].
  rewrite bool_decide_true by done. unfold catch.
  rewrite run_bind. unfold update_task_progress at 1. cbv beta iota.
  fold (tasks_with_id (pc_task_id data) db). rewrite Ht.
  rewrite decide_True, run_ret by done.
  rewrite (fmap_unchanged (λ t, t_id t = pc_task_id data)) by done.
  unfold set_tasks. by rewrite set_same_db.
Qed.

Section async_task.
Context (env : Env) (now0 : N) (taskId documentId vectorizerUuid : jsstring).
Context (data : ConvertDocumentsRequest) (db : Db).
Context (Hsrc : req_sources data ≠ []).
Context (HtaskId : taskId ≠ []).
Context (Hdoc : documentId ∉ d_id <$> documents db).
Context (Htask : taskId ∉ t_id <$> tasks db).
Context (Hvec : vectorizerUuid ∉ v_id <$> vectorizers db).

Let queued : task_row :=
  {| t_id := taskId; t_status := pending; t_document_id := documentId;
     t_progress := Some 0%Z; t_message := Some (lit "Document conversion queued");
     t_error := None; t_created_at := now0; t_updated_at := now0 |}.

(** The asynchronous route leaves one row for the task, pending, and
    one row for its document, without text and without chunks. *)
Lemma async_task_created :
  ∃ db0 vid,
    post_convert_source_async env now0 taskId documentId vectorizerUuid data db =
      (db0, Json {| tsr_task_id := taskId; tsr_status := pending;
                    tsr_message := Some (lit "Document conversion queued");
                    tsr_progress := None; tsr_error := None |})
    ∧ tasks_with_id taskId db0 = [queued]
    ∧ documents_with_id documentId db0 =
        [{| d_id := documentId; d_name := lit "async-document"; d_format := lit "json";
            d_pages := length (req_sources data); d_created_at := now0;
            d_content := None; d_vectorizer_id := Some vid |}]
    ∧ (fk_file_chunks db → chunks_of documentId db0 = []).
Proof.
  destruct (post_convert_source_async_effect_declared env now0 taskId documentId
              vectorizerUuid data db Hsrc Hdoc Htask Hvec)
    as (vid & db0 & rows & Hrun & Hdocs & Htasks & _ & _ & Hchunks & _).
  exists db0, vid. split; [exact Hrun|]. split_and!.
  - unfold tasks_with_id. rewrite Htasks. by apply filter_app_fresh.
  - unfold documents_with_id. rewrite Hdocs. by apply filter_app_fresh.
  - intros Hfk. unfold chunks_of. rewrite Hchunks.
    by apply no_chunks_of_fresh_document.
Qed.

(** The callback keeps the documents and the chunks as they are. *)
Lemma callback_frame now req dbA t ts progress :
  pc_task_id req = taskId → pc_progress req = Some progress →
  tasks_with_id taskId dbA = t :: ts →
  ∃ dbB,
    post_callback_task_progress now req dbA =
      (dbB, Json {| pcr_success := true; pcr_task_id := taskId;
                    pcr_progress := progress |})
    ∧ tasks_with_id taskId dbB =
        updated_task now progress (or_null (pc_message req)) (or_null (pc_error req))
          (pc_status req) <$> (t :: ts)
    ∧ documents dbB = documents dbA
    ∧ file_chunks dbB = file_chunks dbA.
Proof.
  intros Hid Hp Ht. eexists. split.
  - rewrite (post_callback_task_progress_found now req progress dbA t ts);
      rewrite ?Hid; done.
  - unfold tasks_with_id. db_simpl. rewrite ?Hid, updated_tasks_with_id.
    fold (tasks_with_id taskId dbA). by rewrite Ht.
Qed.
End async_task.

(** C3 (as amended). On a task created pending, a callback with
    progress 50 followed by a callback that supplies a progress value
    leaves the task with the second progress value; message, error and
    status keep their last supplied non-empty value, or the stored one
    when never supplied; [updated_at] is the time of the last callback.
    A callback without a progress value is rejected and writes
    nothing. *)
Theorem task_update_coalesce env now0 now1 now2 taskId documentId vectorizerUuid
    data db m1 e1 s1 p2 m2 e2 s2 :
  req_sources data ≠ [] →
  taskId ≠ [] →
  documentId ∉ d_id <$> documents db →
  taskId ∉ t_id <$> tasks db →
  vectorizerUuid ∉ v_id <$> vectorizers db →
  ∃ db0 db1 db2 r0,
    post_convert_source_async env now0 taskId documentId vectorizerUuid data db =
      (db0, Json r0)
    ∧ tsr_status r0 = pending
    ∧ post_callback_task_progress now1
        {| pc_task_id := taskId; pc_progress := Some 50%Z; pc_message := m1;
           pc_error := e1; pc_status := s1 |} db0 =
        (db1, Json {| pcr_success := true; pcr_task_id := taskId;
                      pcr_progress := 50%Z |})
    ∧ post_callback_task_progress now2
        {| pc_task_id := taskId; pc_progress := Some p2; pc_message := m2;
           pc_error := e2; pc_status := s2 |} db1 =
        (db2, Json {| pcr_success := true; pcr_task_id := taskId;
                      pcr_progress := p2 |})
    ∧ get_status_poll taskId db2 =
        (db2, Json {| tsr_task_id := taskId;
                      tsr_status := default (default pending s1) s2;
                      tsr_message :=
                        COALESCE (or_null m2)
                          (COALESCE (or_null m1)
                             (Some (lit "Document conversion queued")));
                      tsr_progress := Some p2;
                      tsr_error := COALESCE (or_null e2) (or_null e1) |})
    ∧ (∀ t, t ∈ tasks_with_id taskId db2 →
            t_updated_at t = now2 ∧ t_created_at t = now0)
    ∧ (∀ now3 req, pc_progress req = None →
         post_callback_task_progress now3 req db2 =
           (db2, ErrorJson 400 (lit "Invalid progress data") None)).
Proof.
  intros Hsrc HtaskId Hdoc Htask Hvec.
  destruct (async_task_created env now0 taskId documentId vectorizerUuid data db
              Hsrc Hdoc Htask Hvec) as (db0 & vid & Hrun & Ht0 & _).
  destruct (callback_frame taskId HtaskId now1
              {| pc_task_id := taskId; pc_progress := Some 50%Z; pc_message := m1;
                 pc_error := e1; pc_status := s1 |} db0 _ [] 50%Z eq_refl eq_refl Ht0)
    as (db1 & Hrun1 & Ht1 & _).
  destruct (callback_frame taskId HtaskId now2
              {| pc_task_id := taskId; pc_progress := Some p2; pc_message := m2;
                 pc_error := e2; pc_status := s2 |} db1 _ [] p2 eq_refl eq_refl Ht1)
    as (db2 & Hrun2 & Ht2 & _).
  exists db0, db1, db2. eexists. split; [exact Hrun|]. split; [done|].
  split; [exact Hrun1|]. split; [exact Hrun2|]. split_and!.
  - rewrite (get_status_poll_found taskId db2 _ _ HtaskId Ht2).
    cbn. by destruct (or_null e1).
  - intros t. rewrite Ht2. cbn. by intros ->%list_elem_of_singleton.
  - intros now3 req Hreq. unfold post_callback_task_progress. rewrite Hreq.
    by destruct (negb _).
Qed.

(** C7 (as amended). The asynchronous route answers with a pending
    task; the callback [{progress: 100, status: completed}] makes the
    task completed; the result route then reports the completed task
    with the document's id, page count and format and with no content,
    because neither the route nor the callback stores text or
    chunks. *)
Theorem async_scenario env now0 now1 taskId documentId vectorizerUuid data db :
  req_sources data ≠ [] →
  taskId ≠ [] →
  documentId ∉ d_id <$> documents db →
  taskId ∉ t_id <$> tasks db →
  vectorizerUuid ∉ v_id <$> vectorizers db →
  fk_file_chunks db →
  ∃ db0 db1,
    post_convert_source_async env now0 taskId documentId vectorizerUuid data db =
      (db0, Json {| tsr_task_id := taskId; tsr_status := pending;
                    tsr_message := Some (lit "Document conversion queued");
                    tsr_progress := None; tsr_error := None |})
    ∧ get_status_poll taskId db0 =
        (db0, Json {| tsr_task_id := taskId; tsr_status := pending;
                      tsr_message := Some (lit "Document conversion queued");
                      tsr_progress := Some 0%Z; tsr_error := None |})
    ∧ post_callback_task_progress now1
        {| pc_task_id := taskId; pc_progress := Some 100%Z; pc_message := None;
           pc_error := None; pc_status := Some completed |} db0 =
        (db1, Json {| pcr_success := true; pcr_task_id := taskId;
                      pcr_progress := 100%Z |})
    ∧ get_result taskId db1 =
        (db1, Json {| cdr_task_id := taskId; cdr_status := completed;
                      cdr_message := Some (lit "Document conversion queued");
                      cdr_progress := Some 100%Z; cdr_error := None;
                      cdr_result := Some
                        {| res_document_id := documentId;
                           res_pages := length (req_sources data);
                           res_format := lit "json";
                           res_content := None |} |}).
Proof.
  intros Hsrc HtaskId Hdoc Htask Hvec Hfk.
  destruct (async_task_created env now0 taskId documentId vectorizerUuid data db
              Hsrc Hdoc Htask Hvec) as (db0 & vid & Hrun & Ht0 & Hd0 & Hc0).
  destruct (callback_frame taskId HtaskId now1
              {| pc_task_id := taskId; pc_progress := Some 100%Z; pc_message := None;
                 pc_error := None; pc_status := Some completed |} db0 _ [] 100%Z
              eq_refl eq_refl Ht0)
    as (db1 & Hrun1 & Ht1 & Hdocs1 & Hchunks1).
  exists db0, db1. split; [exact Hrun|].
  split; [by rewrite (get_status_poll_found taskId db0 _ _ HtaskId Ht0)|].
  split; [exact Hrun1|].
  unfold documents_with_id in Hd0. rewrite <-Hdocs1 in Hd0.
  rewrite (get_result_absent taskId db1 _ [] _ [] HtaskId Ht1 Hd0); [done..|].
  cbn [d_id]. unfold chunks_of. rewrite Hchunks1. by apply Hc0.
Qed.


(** ** The file route reads one file *)

(** C9. Of a request with two or more files the file route checks the
    size of the first and stores the text of the first; what the other
    files are changes neither the answer nor the database, and the
    [pages] of the document row and of the response is the number of
    files.  A first text within the threshold is on the document row; a
    longer one is in chunk rows numbered 0, 1, ..., as many as it takes
    to cover it, the i-th holding what the TEXT column gives back for its
    code units from i*T up to (i+1)*T, and these joined are the text when
    it is well-formed and has no surrogate pair across a multiple of
    T. *)
Theorem first_file_only env now taskId documentId vectorizerUuid
    fmt ocr model (first : File) (others : list File) db :
  1 ≤ length others →
  let form files := {| form_files := files; form_format := fmt;
                       form_ocr_engine := ocr; form_model := model |} in
  let T := CHUNK_SIZE_TOKENS in
  (∀ others', length others' = length others →
     post_convert_file env now taskId documentId vectorizerUuid (form (first :: others')) db =
     post_convert_file env now taskId documentId vectorizerUuid (form (first :: others)) db)
  ∧ (exceeds_size_limit first = true →
       post_convert_file env now taskId documentId vectorizerUuid (form (first :: others)) db =
         (db, ErrorJson 400 (lit "File size exceeds the 5 MB limit") None))
  ∧ (exceeds_size_limit first = false →
     documentId ∉ d_id <$> documents db →
     taskId ∉ t_id <$> tasks db →
     vectorizerUuid ∉ v_id <$> vectorizers db →
     fk_file_chunks db →
     ∃ db' body res d,
       post_convert_file env now taskId documentId vectorizerUuid
         (form (first :: others)) db = (db', Json body)
       ∧ cdr_result body = Some res
       ∧ res_pages res = S (length others)
       ∧ documents_with_id documentId db' = [d]
       ∧ d_pages d = S (length others)
       ∧ d_content d = (if decide (length (file_text first) ≤ T)
                        then Some (file_text first) else None)
       ∧ (length (file_text first) ≤ T → chunks_of documentId db' = [])
       ∧ (T < length (file_text first) →
          ∃ n, length (chunks_of documentId db') = n
               ∧ length (file_text first) ≤ n * T
               ∧ n * T < length (file_text first) + T
               ∧ c_chunk_index <$> chunks_of documentId db' = seq 0 n
               ∧ (∀ i, i < n →
                    (c_content <$> chunks_of documentId db') !! i
                    = Some (to_text (take T (drop (i * T) (file_text first)))))
               ∧ (well_formed (file_text first) = true →
                  keeps_pairs T (file_text first) = true →
                  join (c_content <$> chunks_of documentId db') = file_text first))).
Proof.
  intros Hn form T. split_and!.
  - intros others' Hlen. unfold post_convert_file, form.
    cbn [form_data fd_files fd_format fd_ocr_engine fd_model
         form_files form_format form_ocr_engine form_model fmap list_fmap length].
    by rewrite !length_fmap, Hlen.
  - intros Hbig. unfold post_convert_file, form.
    cbn [form_data fd_files form_files fmap list_fmap]. by rewrite Hbig.
  - intros Hsize Hdoc Htask Hvec Hfk.
    destruct (post_convert_file_effect_declared env now taskId documentId vectorizerUuid
                (form (first :: others)) first others db eq_refl Hsize Hdoc Htask Hvec
                (no_chunks_of_fresh_document _ _ Hfk Hdoc))
      as (vid & db' & Hrun & Hdocs & _ & _ & Hchunks & _).
    pose proof CHUNK_SIZE_TOKENS_pos as HT. fold T in HT.
    exists db'. eexists _, _, _. split; [exact Hrun|]. resp_simpl.
    split; [done|]. split; [done|].
    split; [unfold documents_with_id; rewrite Hdocs; by apply filter_app_fresh|].
    cbn [d_pages d_content]. split; [done|]. split; [done|].
    assert (chunks_of documentId db' =
            if decide (T < length (file_text first))
            then chunk_rows now documentId (stored_chunk T (file_text first))
                   (length (file_chunks db))
                   (seq 0 (Math_ceil_div (length (file_text first)) T))
            else []) as Hrows.
    { unfold chunks_of. rewrite Hchunks, filter_app.
      fold (chunks_of documentId db).
      rewrite no_chunks_of_fresh_document, app_nil_l by done. fold T.
      destruct (decide (T < length (file_text first))); [|done].
      apply filter_all, chunk_rows_document. }
    split.
    + intros Hle. by rewrite Hrows, decide_False by lia.
    + intros Hlong. rewrite decide_True in Hrows by done.
      pose proof (Math_ceil_div_bounds T HT (length (file_text first))) as [Hub Hlb].
      exists (Math_ceil_div (length (file_text first)) T). rewrite Hrows.
      rewrite length_chunk_rows, length_seq, chunk_rows_index, chunk_rows_content.
      split_and!; try done.
      * intros i Hi. rewrite list_lookup_fmap, lookup_seq_lt by done.
        cbn [fmap option_fmap option_map Nat.add]. unfold stored_chunk. do 2 f_equal.
        rewrite chunk_at_slice by nia. apply slice_take_drop. nia.
      * intros Hwf Hkeep. unfold T. rewrite stored_chunks_kept by done.
        by apply join_chunks.
Qed.

(** ** Invariants of sequences of requests *)

Lemma preserves_ret {A} I (a : A) : preserves I (mret a).
Proof. by intros db. Qed.

Lemma preserves_bind {A B} I (m : M A) (f : A → M B) :
  preserves I m → (∀ a, preserves I (f a)) → preserves I (m ≫= f).
Proof.
  intros Hm Hf db HI. rewrite run_bind. specialize (Hm db HI).
  destruct (m db) as [db' [a|e]]; [by apply Hf | done].
Qed.

Lemma preserves_for_each {A} I (body : A → M unit) (l : list A) :
  (∀ x, preserves I (body x)) → preserves I (for_each body l).
Proof.
  intros Hbody. induction l as [|x l IH]; [apply preserves_ret|].
  cbn [for_each]. apply preserves_bind; auto.
Qed.

Lemma preserves_catch {A} I label (body : M (response A)) db :
  preserves I body → I db → I (catch label body db).1.
Proof.
  intros Hbody HI. specialize (Hbody db HI). unfold catch.
  by destruct (body db) as [db' [r|e]].
Qed.

(** A statement that leaves [tasks] alone keeps every property of it. *)
Lemma preserves_tasks_frame {A} (P : list task_row → Prop) (m : M A) :
  (∀ db, tasks (m db).1 = tasks db) → preserves (λ db, P (tasks db)) m.
Proof. intros Hm db HP. by rewrite Hm. Qed.

Lemma insert_document_tasks now id name format pages content vid db :
  tasks (insert_document now id name format pages content vid db).1 = tasks db.
Proof. unfold insert_document. by case_decide. Qed.

Lemma insert_source_tasks now documentId url db :
  tasks (insert_source now documentId url db).1 = tasks db.
Proof. by destruct url. Qed.

Lemma insert_file_chunk_tasks now documentId i content db :
  tasks (insert_file_chunk now documentId i content db).1 = tasks db.
Proof. unfold insert_file_chunk. by case_decide. Qed.

Lemma insert_vectorizer_tasks now id modelName engine size ocr parameters db :
  tasks (insert_vectorizer now id modelName engine size ocr parameters db).1 = tasks db.
Proof. unfold insert_vectorizer. by case_decide. Qed.

Lemma lookup_or_insert_vectorizer_tasks now uuid modelName ocr db :
  tasks (lookup_or_insert_vectorizer now uuid modelName ocr db).1 = tasks db.
Proof.
  unfold lookup_or_insert_vectorizer. rewrite run_bind.
  unfold select_vectorizer_id at 1. cbv beta iota.
  destruct (v_id <$> _); [done|]. rewrite run_bind.
  pose proof (insert_vectorizer_tasks now uuid modelName (lit "openai")
                CHUNK_SIZE_TOKENS ocr defaultParameters_json db) as Hv.
  by destruct (insert_vectorizer _ _ _ _ _ _ _ db) as [db' [[]|e]].
Qed.

Lemma update_document_vectorizer_tasks vid id db :
  tasks (update_document_vectorizer vid id db).1 = tasks db.
Proof. done. Qed.

Lemma insert_task_in_range now id status documentId message :
  preserves tasks_in_range (insert_task now id status documentId message).
Proof.
  intros db HI. unfold insert_task. case_decide; [done|].
  unfold tasks_in_range. db_simpl. apply Forall_app. split; [done|].
  constructor; [|done]. exists 0%Z. by split.
Qed.

Lemma update_task_progress_in_range now progress message error status id :
  (0 ≤ progress ≤ 100)%Z →
  preserves tasks_in_range (update_task_progress now progress message error status id).
Proof.
  intros Hp db HI. unfold update_task_progress, tasks_in_range. db_simpl.
  apply Forall_fmap. eapply Forall_impl; [exact HI|].
  intros t Ht. cbn. case_decide; [|done]. by exists progress.
Qed.

Ltac preserves_tasks :=
  repeat first
    [ apply preserves_ret
    | apply insert_task_in_range
    | apply (preserves_tasks_frame (λ l, Forall (λ t, progress_in_range (t_progress t)) l));
      intros ?;
      first [ apply insert_document_tasks | apply insert_source_tasks
            | apply insert_file_chunk_tasks | apply lookup_or_insert_vectorizer_tasks
            | apply update_document_vectorizer_tasks | apply insert_vectorizer_tasks ]
    | apply preserves_for_each; intros ?
    | apply preserves_bind; [|intros ?]
    | case_decide ].

(** Every request keeps the stored progress values in range, as long as
    the value it supplies, if any, is in range. *)
Lemma run_op_in_range op db :
  supplies_progress_in_range op → tasks_in_range db → tasks_in_range (run_op op db).
Proof.
  intros Hop HI. destruct op as [now t d data|env now t d u form|env now t d u data
                                 |now data|env now u]; cbn [run_op].
  - unfold post_convert_source. case_decide; [done|].
    apply preserves_catch; [|done]. preserves_tasks.
  - unfold post_convert_file. destruct (fd_files form) as [|[file|text] rest]; [done| |done].
    cbv zeta. destruct (exceeds_size_limit file); [done|].
    apply preserves_catch; [|done]. preserves_tasks.
  - unfold post_convert_source_async. case_decide; [done|].
    apply preserves_catch; [|done]. cbv zeta. preserves_tasks.
  - unfold post_callback_task_progress. cbn in Hop.
    destruct (negb _); [done|]. destruct (pc_progress data) as [progress|]; [|done].
    apply preserves_catch; [|done]. apply preserves_bind.
    + by apply update_task_progress_in_range.
    + intros changes. case_decide; apply preserves_ret.
  - unfold ensureDefaultVectorizer. rewrite run_bind.
    unfold select_vectorizer_id at 1. cbv beta iota.
    destruct (v_id <$> _); [done|].
    pose proof (insert_vectorizer_tasks now u
                  (or_else (DEFAULT_MODEL env) (lit "gpt-4o-mini")) (lit "openai")
                  CHUNK_SIZE_TOKENS (lit "easyocr") defaultParameters_json db) as Hv.
    unfold tasks_in_range.
    destruct (insert_vectorizer _ _ _ _ _ _ _ db) as [db' [[]|e]]; cbn in *;
      by rewrite Hv.
Qed.

(** C8 (as amended). Starting from the empty database, after any
    sequence of requests whose progress callbacks all supply a value
    between 0 and 100, every task row holds a progress between 0 and
    100.  The routes themselves do not check the range. *)
Theorem progress_range_invariant ops :
  Forall supplies_progress_in_range ops →
  ∀ t, t ∈ tasks (run_ops ops empty_db) → progress_in_range (t_progress t).
Proof.
  intros Hops. apply Forall_forall. fold (tasks_in_range (run_ops ops empty_db)).
  assert (tasks_in_range empty_db) as Hinit by constructor.
  revert Hinit. generalize empty_db.
  induction Hops as [|op ops Hop _ IH]; intros db HI; [done|].
  cbn [run_ops foldl]. apply IH. by apply run_op_in_range.
Qed.

Lemma fk_file_chunks_empty_db : fk_file_chunks empty_db.
Proof. constructor. Qed.

(** ** The foreign key of [file_chunks]

    D1 is not asked to check [FOREIGN KEY (document_id) REFERENCES
    documents(id)] in this model; the routes keep it by inserting the
    document before its chunks, so it holds in every database they build
    from the empty one. *)

Lemma preserves_chunks_frame {A} (P : list jsstring → list chunk_row → Prop) (m : M A) :
  (∀ db, d_id <$> documents (m db).1 = d_id <$> documents db
         ∧ file_chunks (m db).1 = file_chunks db) →
  preserves (λ db, P (d_id <$> documents db) (file_chunks db)) m.
Proof. intros Hm db HP. by destruct (Hm db) as [-> ->]. Qed.

Lemma insert_task_chunks now id status documentId message db :
  d_id <$> documents (insert_task now id status documentId message db).1
    = d_id <$> documents db
  ∧ file_chunks (insert_task now id status documentId message db).1 = file_chunks db.
Proof. unfold insert_task. by case_decide. Qed.

Lemma insert_source_chunks now documentId url db :
  d_id <$> documents (insert_source now documentId url db).1 = d_id <$> documents db
  ∧ file_chunks (insert_source now documentId url db).1 = file_chunks db.
Proof. by destruct url. Qed.

Lemma lookup_or_insert_vectorizer_chunks now uuid modelName ocr db :
  d_id <$> documents (lookup_or_insert_vectorizer now uuid modelName ocr db).1
    = d_id <$> documents db
  ∧ file_chunks (lookup_or_insert_vectorizer now uuid modelName ocr db).1
    = file_chunks db.
Proof.
  unfold lookup_or_insert_vectorizer. rewrite !run_bind.
  unfold select_vectorizer_id. cbv beta iota.
  destruct (v_id <$> _); [done|]. rewrite !run_bind.
  unfold insert_vectorizer. by case_decide.
Qed.

Lemma update_document_vectorizer_chunks vid id db :
  d_id <$> documents (update_document_vectorizer vid id db).1 = d_id <$> documents db
  ∧ file_chunks (update_document_vectorizer vid id db).1 = file_chunks db.
Proof.
  split; [|done]. unfold update_document_vectorizer. db_simpl. cbn [fst].
  db_simpl. rewrite <-list_fmap_compose. apply list_fmap_ext.
  intros i d _. cbn. by case_decide.
Qed.

Lemma update_task_progress_chunks now progress message error status id db :
  d_id <$> documents (update_task_progress now progress message error status id db).1
    = d_id <$> documents db
  ∧ file_chunks (update_task_progress now progress message error status id db).1
    = file_chunks db.
Proof. done. Qed.

Lemma fk_more_documents (ids ids' : list jsstring) (chunks : list chunk_row) :
  Forall (λ c, c_document_id c ∈ ids) chunks →
  Forall (λ c, c_document_id c ∈ ids ++ ids') chunks.
Proof.
  intros Hfk. eapply Forall_impl; [exact Hfk|]. intros c Hc.
  apply elem_of_app. by left.
Qed.

Lemma insert_document_fk now id name format pages content vid :
  preserves fk_file_chunks (insert_document now id name format pages content vid).
Proof.
  intros db Hfk. unfold insert_document. case_decide; [done|].
  unfold fk_file_chunks. db_simpl. cbn [fst]. db_simpl. rewrite fmap_app.
  by apply fk_more_documents.
Qed.

Lemma insert_file_chunk_fk now documentId i content :
  preserves (λ db, fk_file_chunks db ∧ documentId ∈ d_id <$> documents db)
    (insert_file_chunk now documentId i content).
Proof.
  intros db [Hfk Hdoc]. unfold insert_file_chunk. case_decide; [done|].
  unfold fk_file_chunks. cbn [fst]. db_simpl. split; [|done].
  apply Forall_app. split; [done|]. by constructor.
Qed.

Ltac preserves_fk :=
  repeat first
    [ apply preserves_ret
    | apply insert_document_fk
    | apply insert_file_chunk_fk
    | apply (preserves_chunks_frame
               (λ ids chunks, Forall (λ c, c_document_id c ∈ ids) chunks));
      intros ?;
      first [ apply insert_task_chunks | apply insert_source_chunks
            | apply lookup_or_insert_vectorizer_chunks
            | apply update_document_vectorizer_chunks
            | apply update_task_progress_chunks ]
    | match goal with
      | |- preserves (λ db, fk_file_chunks db ∧ ?d ∈ d_id <$> documents db) _ =>
          apply (preserves_chunks_frame
                   (λ ids chunks, Forall (λ c, c_document_id c ∈ ids) chunks ∧ d ∈ ids));
          intros ?;
          first [ apply insert_task_chunks | apply insert_source_chunks
                | apply lookup_or_insert_vectorizer_chunks
                | apply update_document_vectorizer_chunks
                | apply update_task_progress_chunks ]
      end
    | apply preserves_for_each; intros ?
    | apply preserves_bind; [|intros ?]
    | case_decide ].

Lemma run_op_fk op db : fk_file_chunks db → fk_file_chunks (run_op op db).
Proof.
  intros HI. destruct op as [now t d data|env now t d u form|env now t d u data
                             |now data|env now u]; cbn [run_op].
  - unfold post_convert_source. case_decide; [done|].
    apply preserves_catch; [|done]. preserves_fk.
  - unfold post_convert_file. destruct (fd_files form) as [|[file|text] rest]; [done| |done].
    cbv zeta. destruct (exceeds_size_limit file); [done|].
    unfold catch. rewrite run_bind. unfold insert_document at 1.
    case_decide; [done|]. cbv beta iota.
    match goal with |- fk_file_chunks (match ?m ?db1 with _ => _ end).1 =>
      assert (fk_file_chunks (m db1).1 ∧ d ∈ d_id <$> documents (m db1).1) as [Hfk _];
        [|by destruct (m db1) as [db' [r|e]]]
    end.
    match goal with |- context [(?m ?db1).1] =>
      assert (preserves (λ db, fk_file_chunks db ∧ d ∈ d_id <$> documents db) m)
        as Hrest by preserves_fk;
      apply Hrest
    end.
    unfold fk_file_chunks. db_simpl. rewrite fmap_app. split.
    + by apply fk_more_documents.
    + apply elem_of_app. right. left.
  - unfold post_convert_source_async. case_decide; [done|].
    apply preserves_catch; [|done]. cbv zeta. preserves_fk.
  - unfold post_callback_task_progress.
    destruct (negb _); [done|]. destruct (pc_progress data) as [progress|]; [|done].
    apply preserves_catch; [|done]. preserves_fk.
  - unfold ensureDefaultVectorizer. rewrite run_bind.
    unfold select_vectorizer_id at 1. cbv beta iota.
    destruct (v_id <$> _); [done|].
    unfold insert_vectorizer. by case_decide.
Qed.


(** ** Vectorizers: lookup or insert, one request after the other *)

Lemma vectorizer_linked_unique now uuid modelName ocr vs vid vs' :
  vectorizer_linked now uuid modelName ocr vs vid vs' →
  length (filter (λ v, v_model_name v = modelName) vs) ≤ 1 →
  ∃ v, filter (λ v, v_model_name v = modelName) vs' = [v] ∧ v_id v = vid.
Proof.
  destruct 1 as [v l Hf|Hf]; intros Hlen.
  - rewrite Hf in Hlen. destruct l; [|simpl in Hlen; lia]. eauto.
  - rewrite filter_app, Hf, filter_cons, decide_True by done. eauto.
Qed.

Lemma vectorizer_linked_existing now uuid modelName ocr vs vid vs' v :
  vectorizer_linked now uuid modelName ocr vs vid vs' →
  filter (λ v, v_model_name v = modelName) vs = [v] →
  vs' = vs ∧ vid = v_id v.
Proof.
  destruct 1 as [v' l Hf|Hf]; intros Hv; rewrite Hf in Hv; [|done].
  by injection Hv as -> _.
Qed.

Lemma vectorizer_linked_models_unique now uuid modelName ocr vs vid vs' :
  vectorizer_linked now uuid modelName ocr vs vid vs' →
  (∀ X, length (filter (λ v, v_model_name v = X) vs) ≤ 1) →
  ∀ X, length (filter (λ v, v_model_name v = X) vs') ≤ 1.
Proof.
  destruct 1 as [v l Hf|Hf]; intros Hvs X; [done|].
  rewrite filter_app, length_app, filter_cons. cbn [v_model_name].
  destruct (decide (modelName = X)) as [<-|Hne].
  - rewrite Hf. simpl. lia.
  - specialize (Hvs X). simpl. lia.
Qed.

(** The bootstrap, run where its identifier is new. *)
Lemma ensureDefaultVectorizer_effect env now vectorizerId db :
  vectorizerId ∉ v_id <$> vectorizers db →
  ∃ vid vs',
    ensureDefaultVectorizer env now vectorizerId db = (set_vectorizers vs' db, None)
    ∧ vectorizer_linked now vectorizerId
        (or_else (DEFAULT_MODEL env) (lit "gpt-4o-mini")) (lit "easyocr")
        (vectorizers db) vid vs'.
Proof.
  intros Hfresh. unfold ensureDefaultVectorizer. rewrite run_bind.
  unfold select_vectorizer_id at 1. cbv beta iota.
  destruct (filter _ (vectorizers db)) as [|v l] eqn:Hf; cbn [head fmap option_fmap option_map].
  - rewrite insert_vectorizer_fresh by done. eexists _, _. split; [done|].
    by constructor.
  - rewrite run_ret. exists (v_id v), (vectorizers db). split.
    + unfold set_vectorizers. by rewrite set_same_db.
    + by econstructor.
Qed.

(** What a request that looks up or inserts a vectorizer does, run where
    it is ready. *)
Lemma op_get_or_create op modelName db :
  op_model op = Some modelName → op_ready op db →
  ∃ now uuid ocr vid,
    vectorizer_linked now uuid modelName ocr (vectorizers db) vid
      (vectorizers (run_op op db))
    ∧ op_links op (run_op op db) vid
    ∧ op_ok op db.
Proof.
  destruct op as [now t d data|env now t d u form|env now t d u data|now data|env now u];
    intros Hmodel Hready; cbn in Hmodel; simplify_eq; cbn [op_ready] in Hready.
  - destruct Hready as ((file & rest & Hfiles & Hsize) & Hdoc & Htask & Hvec & Hnone).
    destruct (post_convert_file_effect env now t d u form file rest db
                Hfiles Hsize Hdoc Htask Hvec Hnone)
      as (vid & db' & Hrun & Hdocs & _ & _ & _ & Hlinked).
    eexists now, u, _, vid. cbn [run_op op_ok]. rewrite Hrun. cbn [fst snd].
    split; [exact Hlinked|]. split; [|by eexists].
    unfold op_links. cbn [op_document]. eexists.
    split; [unfold documents_with_id; rewrite Hdocs; by apply filter_app_fresh|done].
  - destruct Hready as (Hsrc & Hurls & Hdoc & Htask & Hvec).
    destruct (post_convert_source_async_effect env now t d u data db
                Hsrc Hurls Hdoc Htask Hvec)
      as (vid & db' & rows & Hrun & Hdocs & _ & _ & _ & _ & Hlinked).
    eexists now, u, _, vid. cbn [run_op op_ok]. rewrite Hrun. cbn [fst snd].
    split; [exact Hlinked|]. split; [|by eexists].
    unfold op_links. cbn [op_document]. eexists.
    split; [unfold documents_with_id; rewrite Hdocs; by apply filter_app_fresh|done].
  - destruct (ensureDefaultVectorizer_effect env now u db Hready)
      as (vid & vs' & Hrun & Hlinked).
    eexists now, u, _, vid. cbn [run_op op_ok]. rewrite Hrun. cbn [fst snd].
    by split_and!.
Qed.

(** [models_unique] is kept by every request, whatever its outcome. *)
Lemma preserves_vectorizers_frame {A} (P : list vectorizer_row → Prop) (m : M A) :
  (∀ db, vectorizers (m db).1 = vectorizers db) → preserves (λ db, P (vectorizers db)) m.
Proof. intros Hm db HP. by rewrite Hm. Qed.

Lemma insert_document_vectorizers now id name format pages content vid db :
  vectorizers (insert_document now id name format pages content vid db).1 = vectorizers db.
Proof. unfold insert_document. by case_decide. Qed.

Lemma insert_task_vectorizers now id status documentId message db :
  vectorizers (insert_task now id status documentId message db).1 = vectorizers db.
Proof. unfold insert_task. by case_decide. Qed.

Lemma insert_source_vectorizers now documentId url db :
  vectorizers (insert_source now documentId url db).1 = vectorizers db.
Proof. by destruct url. Qed.

Lemma insert_file_chunk_vectorizers now documentId i content db :
  vectorizers (insert_file_chunk now documentId i content db).1 = vectorizers db.
Proof. unfold insert_file_chunk. by case_decide. Qed.

Lemma update_document_vectorizer_vectorizers vid id db :
  vectorizers (update_document_vectorizer vid id db).1 = vectorizers db.
Proof. done. Qed.

Lemma update_task_progress_vectorizers now progress message error status id db :
  vectorizers (update_task_progress now progress message error status id db).1
  = vectorizers db.
Proof. done. Qed.

Lemma lookup_or_insert_vectorizer_models_unique now uuid modelName ocr :
  preserves models_unique (lookup_or_insert_vectorizer now uuid modelName ocr).
Proof.
  intros db HI. unfold lookup_or_insert_vectorizer. rewrite run_bind.
  unfold select_vectorizer_id at 1. cbv beta iota.
  destruct (filter _ (vectorizers db)) as [|v l] eqn:Hf;
    cbn [head fmap option_fmap option_map]; [|done].
  rewrite run_bind. unfold insert_vectorizer. case_decide; [done|].
  cbv beta iota. rewrite run_ret. cbn [fst]. intros X.
  unfold vectorizers_for. db_simpl.
  eapply (vectorizer_linked_models_unique now uuid modelName ocr);
    [by apply linked_created | apply HI].
Qed.

Ltac preserves_vectorizers :=
  repeat first
    [ apply preserves_ret
    | apply lookup_or_insert_vectorizer_models_unique
    | apply (preserves_vectorizers_frame
               (λ l, ∀ X, length (filter (λ v, v_model_name v = X) l) ≤ 1));
      intros ?;
      first [ apply insert_document_vectorizers | apply insert_source_vectorizers
            | apply insert_file_chunk_vectorizers | apply insert_task_vectorizers
            | apply update_document_vectorizer_vectorizers
            | apply update_task_progress_vectorizers ]
    | apply preserves_for_each; intros ?
    | apply preserves_bind; [|intros ?]
    | case_decide ].

Lemma run_op_models_unique op db : models_unique db → models_unique (run_op op db).
Proof.
  intros HI. destruct op as [now t d data|env now t d u form|env now t d u data
                             |now data|env now u]; cbn [run_op].
  - unfold post_convert_source. case_decide; [done|].
    apply preserves_catch; [|done]. preserves_vectorizers.
  - unfold post_convert_file. destruct (fd_files form) as [|[file|text] rest]; [done| |done].
    cbv zeta. destruct (exceeds_size_limit file); [done|].
    apply preserves_catch; [|done]. preserves_vectorizers.
  - unfold post_convert_source_async. case_decide; [done|].
    apply preserves_catch; [|done]. cbv zeta. preserves_vectorizers.
  - unfold post_callback_task_progress.
    destruct (negb _); [done|]. destruct (pc_progress data) as [progress|]; [|done].
    apply preserves_catch; [|done]. preserves_vectorizers.
  - unfold ensureDefaultVectorizer. rewrite run_bind.
    unfold select_vectorizer_id at 1. cbv beta iota.
    destruct (filter _ (vectorizers db)) as [|v l] eqn:Hf;
      cbn [head fmap option_fmap option_map]; [|done].
    unfold insert_vectorizer. case_decide; [done|]. cbn [fst]. intros X.
    unfold vectorizers_for. db_simpl.
    eapply (vectorizer_linked_models_unique now u _ (lit "easyocr"));
      [by apply linked_created | apply HI].
Qed.

(** Served one after the other from the empty database, the requests
    never leave two vectorizer rows with one model name. *)
Lemma run_ops_models_unique ops : models_unique (run_ops ops empty_db).
Proof.
  assert (models_unique empty_db) as Hinit by (intros X; simpl; lia).
  revert Hinit. generalize empty_db.
  induction ops as [|op ops IH]; intros db HI; [done|].
  cbn [run_ops foldl]. apply IH. by apply run_op_models_unique.
Qed.

(** C5. After any sequence of requests served one after the other, two
    further requests that look up or insert the vectorizer of the same
    model name (through the file route, the asynchronous route or the
    bootstrap) both complete, the documents they create are linked to
    the same vectorizer id, and exactly one vectorizer row has that
    model name afterwards. *)
Theorem vectorizer_get_or_create_idempotent ops op1 op2 modelName :
  let db := run_ops ops empty_db in
  let db1 := run_op op1 db in
  let db2 := run_op op2 db1 in
  op_model op1 = Some modelName →
  op_model op2 = Some modelName →
  op_ready op1 db →
  op_ready op2 db1 →
  op_ok op1 db ∧ op_ok op2 db1
  ∧ ∃ v, vectorizers_for modelName db2 = [v]
         ∧ v_model_name v = modelName
         ∧ op_links op1 db1 (v_id v)
         ∧ op_links op2 db2 (v_id v).
Proof.
  intros db db1 db2 Hm1 Hm2 Hr1 Hr2.
  destruct (op_get_or_create op1 modelName db Hm1 Hr1)
    as (now1 & uuid1 & ocr1 & vid1 & Hlinked1 & Hlinks1 & Hok1).
  destruct (op_get_or_create op2 modelName db1 Hm2 Hr2)
    as (now2 & uuid2 & ocr2 & vid2 & Hlinked2 & Hlinks2 & Hok2).
  destruct (vectorizer_linked_unique _ _ _ _ _ _ _ Hlinked1
              (run_ops_models_unique ops modelName)) as (v & Hv & Hvid1).
  fold db1 in Hlinked1, Hlinks1, Hv.
  destruct (vectorizer_linked_existing _ _ _ _ _ _ _ v Hlinked2 Hv) as [Hsame Hvid2].
  fold db2 in Hsame, Hlinks2.
  split; [done|]. split; [done|]. exists v. split_and!.
  - unfold vectorizers_for. by rewrite Hsame.
  - assert (v ∈ filter (λ v, v_model_name v = modelName) (vectorizers db1)) as Hin
      by (rewrite Hv; left).
    by apply list_elem_of_filter in Hin as [? _].
  - by rewrite Hvid1.
  - by rewrite <-Hvid2.
Qed.

(** ** Interleaved calls *)

(** Left alone, the two steps of a call are the lookup-or-insert block. *)
Lemma goc_steps_alone modelName c db :
  gc_state c = BeforeSelect →
  let '(db1, c1) := goc_step modelName c db in
  let '(db2, c2) := goc_step modelName c1 db1 in
  (db2, gc_state c2) =
  (let '(db', r) := lookup_or_insert_vectorizer (gc_now c) (gc_uuid c) modelName
                      (gc_ocr_engine c) db in
   (db', Finished r)).
Proof.
  intros Hc. unfold goc_step at 1. rewrite Hc.
  unfold lookup_or_insert_vectorizer. rewrite run_bind.
  unfold select_vectorizer_id. cbv beta iota.
  destruct (v_id <$> head _) as [id|]; [done|].
  unfold goc_step. cbn [gc_state with_state gc_now gc_uuid gc_ocr_engine].
  rewrite run_bind.
  by destruct (insert_vectorizer _ _ _ _ _ _ _ db) as [db' [[]|e]].
Qed.

Lemma insert_middle {A} (l1 l2 : list A) (x y : A) :
  <[length l1 := y]> (l1 ++ x :: l2) = l1 ++ y :: l2.
Proof. induction l1 as [|a l1 IH]; [done|]. simpl. by rewrite IH. Qed.

Lemma schedule_step_invariant modelName s i :
  goc_invariant modelName s → goc_invariant modelName (schedule_step modelName s i).
Proof.
  destruct s as [db calls]. intros [Hcount Hids]. unfold schedule_step. cbn [fst snd] in *.
  destruct (calls !! i) as [c|] eqn:Hi; [|done].
  destruct (list_elem_of_split_length _ _ _ Hi) as (l1 & l2 & -> & ->).
  rewrite sum_list_with_app, length_app in Hcount. cbn in Hcount.
  assert (∀ c' id, c' ∈ l1 ∨ c' ∈ l2 → gc_state c' = Finished (Returned id) →
                   id ∈ v_id <$> vectorizers_for modelName db) as Hothers.
  { intros c' id Hc'. apply Hids. apply elem_of_app.
    destruct Hc'; [by left | right; by right]. }
  change (may_insert c) with
    (match gc_state c with BeforeSelect | BeforeInsert => 1 | Finished _ => 0 end)
    in Hcount.
  unfold goc_step. destruct (gc_state c) as [| |r] eqn:Hst.
  - unfold select_vectorizer_id. fold (vectorizers_for modelName db).
    destruct (vectorizers_for modelName db) as [|v l] eqn:Hf;
      cbn [head fmap option_fmap option_map];
      rewrite insert_middle; split; cbn [fst snd].
    + rewrite Hf, sum_list_with_app, length_app. cbn. lia.
    + intros c' id [Hc'|[->|Hc']%elem_of_cons]%elem_of_app Hfin; [| done |];
        rewrite Hf; apply (Hothers c'); auto.
    + rewrite Hf, sum_list_with_app, length_app. cbn in *. lia.
    + intros c' id [Hc'|[->|Hc']%elem_of_cons]%elem_of_app Hfin.
      * rewrite Hf; apply (Hothers c'); auto.
      * cbn in Hfin. simplify_eq. rewrite Hf, fmap_cons. left.
      * rewrite Hf; apply (Hothers c'); auto.
  - unfold insert_vectorizer. case_decide; rewrite insert_middle; split; cbn [fst snd].
    + rewrite sum_list_with_app, length_app. cbn. lia.
    + intros c' id [Hc'|[->|Hc']%elem_of_cons]%elem_of_app Hfin; [| done |];
        apply (Hothers c'); auto.
    + unfold vectorizers_for in *. db_simpl.
      rewrite filter_app, filter_cons, decide_True, !length_app by done.
      rewrite sum_list_with_app. cbn. lia.
    + unfold vectorizers_for in *. db_simpl.
      rewrite filter_app, filter_cons, decide_True, fmap_app by done.
      intros c' id [Hc'|[->|Hc']%elem_of_cons]%elem_of_app Hfin; apply elem_of_app.
      * left. apply (Hothers c'); auto.
      * cbn in Hfin. simplify_eq. right. left.
      * left. apply (Hothers c'); auto.
  - rewrite insert_middle. split; cbn [fst snd].
    + rewrite sum_list_with_app, length_app. cbn. unfold may_insert at 2.
      rewrite Hst. lia.
    + intros c' id [Hc'|[->|Hc']%elem_of_cons]%elem_of_app Hfin.
      * apply (Hothers c'); auto.
      * apply (Hids c); [|done]. apply elem_of_app. right. left.
      * apply (Hothers c'); auto.
Qed.

Lemma run_schedule_invariant modelName schedule s :
  goc_invariant modelName s → goc_invariant modelName (run_schedule modelName schedule s).
Proof.
  revert s. induction schedule as [|i schedule IH]; intros s Hs; [done|].
  cbn [run_schedule foldl]. apply IH. by apply schedule_step_invariant.
Qed.

Lemma sum_may_insert_initial calls :
  Forall (λ c, gc_state c = BeforeSelect) calls → sum_list_with may_insert calls = length calls.
Proof.
  induction 1 as [|c calls Hc _ IH]; [done|]. cbn. unfold may_insert at 1. by rewrite Hc, IH.
Qed.

Lemma sum_may_insert_final calls :
  Forall (λ c, ∃ id, gc_state c = Finished (Returned id)) calls →
  sum_list_with may_insert calls = 0.
Proof.
  induction 1 as [|c calls [id Hc] _ IH]; [done|]. cbn. unfold may_insert at 1.
  by rewrite Hc, IH.
Qed.

(** C6 (as amended). The [vectorizers] table has no uniqueness constraint
    on the model name and a call that loses the race does not fall back:
    when N calls of the lookup-or-insert block for a model name without a
    row are interleaved in any way and all hand back an identifier, they
    leave at least one and at most N rows with that model name, and each
    identifier handed back is that of one of these rows. *)
Theorem concurrent_get_or_create_bounds modelName calls schedule db db' calls' :
  vectorizers_for modelName db = [] →
  Forall (λ c, gc_state c = BeforeSelect) calls →
  calls ≠ [] →
  run_schedule modelName schedule (db, calls) = (db', calls') →
  Forall (λ c, ∃ id, gc_state c = Finished (Returned id)) calls' →
  1 ≤ length (vectorizers_for modelName db') ≤ length calls
  ∧ ∀ c id, c ∈ calls' → gc_state c = Finished (Returned id) →
            id ∈ v_id <$> vectorizers_for modelName db'.
Proof.
  intros Hnone Hinit Hne Hrun Hfinal.
  assert (goc_invariant modelName (db, calls)) as Hinv.
  { split; cbn [fst snd].
    - rewrite Hnone, sum_may_insert_initial by done. simpl. lia.
    - intros c id Hc Hst. apply (proj1 (Forall_forall _ _) Hinit) in Hc. congruence. }
  apply (run_schedule_invariant modelName schedule) in Hinv.
  rewrite Hrun in Hinv. destruct Hinv as [Hcount Hids]. cbn [fst snd] in *.
  rewrite sum_may_insert_final in Hcount by done.
  assert (length calls' = length calls) as Hlen.
  { clear -Hrun. revert db calls Hrun.
    induction schedule as [|i schedule IH]; intros db calls Hrun.
    - cbn in Hrun. by simplify_eq.
    - cbn [run_schedule foldl] in Hrun. unfold schedule_step at 2 in Hrun.
      cbn [fst snd] in Hrun. destruct (calls !! i) as [c|]; [|by eapply IH].
      destruct (goc_step modelName c db) as [db1 c1].
      apply IH in Hrun. by rewrite length_insert in Hrun. }
  split; [|done]. split; [|lia].
  destruct calls' as [|c calls']; [by destruct calls|].
  apply Forall_cons in Hfinal as [[id Hc] _].
  specialize (Hids c id (list_elem_of_here _ _) Hc).
  destruct (vectorizers_for modelName db'); [by apply elem_of_nil in Hids|simpl; lia].
Qed.

(** ** The statements at sample requests *)

Lemma not_in_empty_table {A} (f : A → jsstring) (k : jsstring) : k ∉ f <$> [].
Proof. apply not_elem_of_nil. Qed.

(** C1, as the claim states it, fails on the empty text: the upload
    stores it inline and the result route returns no content. *)
Lemma round_trip_empty_content_counterexample :
  let db' := (post_convert_file Sample.env 7 Sample.task1 Sample.doc1 Sample.vec1
                (Sample.form_of [Sample.empty_file]) empty_db).1 in
  documents_with_id Sample.doc1 db' ≠ []
  ∧ Forall (λ d, d_content d = Some (file_text Sample.empty_file))
      (documents_with_id Sample.doc1 db')
  ∧ ∃ r res, get_result Sample.task1 db' = (db', Json r)
             ∧ cdr_result r = Some res
             ∧ res_content res = None
             ∧ res_content res ≠ Some (file_text Sample.empty_file).
Proof.
  vm_compute. split; [done|]. split; [by repeat constructor|].
  eexists _, _. by split_and!.
Qed.

Lemma chunked_content_round_trip_witness :
  ∃ db' body,
    post_convert_file Sample.env 7 Sample.task1 Sample.doc1 Sample.vec1
      (Sample.form_of [Sample.long_file]) empty_db = (db', Json body)
    ∧ ∃ r res,
        get_result (cdr_task_id body) db' = (db', Json r)
        ∧ cdr_result r = Some res
        ∧ res_content res =
            if decide (file_text Sample.long_file = []) then None
            else Some (file_text Sample.long_file).
Proof.
  destruct (chunked_content_round_trip Sample.env 7 Sample.task1 Sample.doc1 Sample.vec1
              (Sample.form_of [Sample.long_file]) Sample.long_file [] empty_db)
    as (db' & body & Hrun & r & res & Hr & Hres & Hkept & _).
  - reflexivity.
  - reflexivity.
  - vm_compute. discriminate.
  - vm_compute. discriminate.
  - apply not_in_empty_table.
  - apply not_in_empty_table.
  - apply not_in_empty_table.
  - apply fk_file_chunks_empty_db.
  - exists db', body. split; [exact Hrun|]. exists r, res.
    split; [exact Hr|]. split; [exact Hres|].
    apply Hkept; vm_compute; reflexivity.
Defined.

(** The proviso of C1 is needed.  A text of 1002 code units whose surrogate pair
    is units 999 and 1000 is cut between the two: each half is stored as
    three U+FFFD, and the result route returns 1006 code units, not the
    text. *)
Example round_trip_split_pair :
  let db' := (post_convert_file Sample.env 7 Sample.task1 Sample.doc1 Sample.vec1
                (Sample.form_of [Surrogates.pair_cut]) empty_db).1 in
  well_formed (file_text Surrogates.pair_cut) = true
  ∧ keeps_pairs CHUNK_SIZE_TOKENS (file_text Surrogates.pair_cut) = false
  ∧ ∃ r res text, get_result Sample.task1 db' = (db', Json r)
                  ∧ cdr_result r = Some res
                  ∧ res_content res = Some text
                  ∧ length (file_text Surrogates.pair_cut) = 1002
                  ∧ length text = 1006
                  ∧ text ≠ file_text Surrogates.pair_cut.
Proof.
  vm_compute. split; [done|]. split; [done|].
  eexists _, _, _. by split_and!.
Qed.

(** With the pair one unit later, units 1000 and 1001, no cut falls
    inside it and the text comes back as it was uploaded. *)
Example round_trip_kept_pair :
  let db' := (post_convert_file Sample.env 7 Sample.task1 Sample.doc1 Sample.vec1
                (Sample.form_of [Surrogates.pair_kept]) empty_db).1 in
  well_formed (file_text Surrogates.pair_kept) = true
  ∧ keeps_pairs CHUNK_SIZE_TOKENS (file_text Surrogates.pair_kept) = true
  ∧ ∃ r res, get_result Sample.task1 db' = (db', Json r)
             ∧ cdr_result r = Some res
             ∧ res_content res = Some (file_text Surrogates.pair_kept).
Proof.
  vm_compute. split; [done|]. split; [done|].
  eexists _, _. by split_and!.
Qed.

(** C2, as the claim states it, fails on a text with a surrogate pair
    across a cut.  The 1002 code units of the sample are cut in
    ceil(1002/1000) = 2 chunks keyed 0 and 1, but the row of chunk 0
    holds 1002 code units, not the 1000 of the substring [0, 1000), and
    the row of chunk 1 holds 4, not the 2 of the substring [1000, 1002):
    each half of the pair is stored as three U+FFFD. *)
Lemma chunk_splitting_split_pair_counterexample :
  let contentText := file_text Surrogates.pair_cut in
  let T := CHUNK_SIZE_TOKENS in
  let db' := (post_convert_file Sample.env 7 Sample.task1 Sample.doc1 Sample.vec1
                (Sample.form_of [Surrogates.pair_cut]) empty_db).1 in
  length contentText = 1002
  ∧ T < length contentText
  ∧ c_chunk_index <$> chunks_of Sample.doc1 db' = [0; 1]
  ∧ ∃ c0 c1, chunks_of Sample.doc1 db' = [c0; c1]
             ∧ c_content c0 ≠ slice contentText 0 T
             ∧ length (c_content c0) = 1002
             ∧ length (c_content c0) ≠ T
             ∧ c_content c1 ≠ slice contentText T (length contentText)
             ∧ length (c_content c1) = 4.
Proof.
  vm_compute. split; [done|]. split; [lia|]. split; [done|].
  eexists _, _. by split_and!.
Qed.

Lemma chunk_splitting_witness :
  let contentText := file_text Sample.long_file in
  let L := length contentText in
  let T := CHUNK_SIZE_TOKENS in
  ∃ db' body d,
    post_convert_file Sample.env 7 Sample.task1 Sample.doc1 Sample.vec1
      (Sample.form_of [Sample.long_file]) empty_db = (db', Json body)
    ∧ documents_with_id Sample.doc1 db' = [d]
    ∧ (T < L →
         d_content d = None
         ∧ ∃ n, length (chunks_of Sample.doc1 db') = n
                ∧ L ≤ n * T ∧ n * T < L + T
                ∧ ∀ i, i < n →
                    ∃ c, chunks_of Sample.doc1 db' !! i = Some c
                         ∧ c_document_id c = Sample.doc1
                         ∧ c_chunk_index c = i
                         ∧ c_content c =
                             to_text (slice contentText (i * T) (((i + 1) * T) `min` L))
                         ∧ (well_formed contentText = true →
                            keeps_pairs T contentText = true →
                            c_content c = slice contentText (i * T) (((i + 1) * T) `min` L)
                            ∧ (i + 1 < n → length (c_content c) = T)
                            ∧ 0 < length (c_content c) ≤ T))
    ∧ (L ≤ T → d_content d = Some contentText ∧ chunks_of Sample.doc1 db' = []).
Proof.
  apply (chunk_splitting Sample.env 7 Sample.task1 Sample.doc1 Sample.vec1
           (Sample.form_of [Sample.long_file]) Sample.long_file [] empty_db).
  - reflexivity.
  - reflexivity.
  - apply not_in_empty_table.
  - apply not_in_empty_table.
  - apply not_in_empty_table.
  - apply fk_file_chunks_empty_db.
Defined.

(** Scenario B of the specification: 2500 characters give three chunks
    of 1000, 1000 and 500 characters and no inline text. *)
Example scenario_B :
  let db' := (post_convert_file Sample.env 7 Sample.task1 Sample.doc1 Sample.vec1
                (Sample.form_of [Sample.long_file]) empty_db).1 in
  d_content <$> documents_with_id Sample.doc1 db' = [None]
  ∧ (λ c, (c_chunk_index c, length (c_content c))) <$> chunks_of Sample.doc1 db'
    = [(0, 1000); (1, 1000); (2, 500)]
  ∧ join (c_content <$> chunks_of Sample.doc1 db') = file_text Sample.long_file.
Proof. vm_compute. done. Qed.

(** The round trip at the lengths T-1, T, T+1 and 10T+7. *)
Example round_trip_edge_lengths :
  Forall (λ n,
      let file := {| file_name := lit "edge.txt"; file_size := N.of_nat n;
                     file_text := replicate n 97%N |} in
      let db' := (post_convert_file Sample.env 7 Sample.task1 Sample.doc1 Sample.vec1
                    (Sample.form_of [file]) empty_db).1 in
      (get_result Sample.task1 db').2 =
        Json {| cdr_task_id := Sample.task1; cdr_status := completed;
                cdr_message := Some (lit "Files processed successfully");
                cdr_progress := Some 0%Z; cdr_error := None;
                cdr_result := Some {| res_document_id := Sample.doc1; res_pages := 1;
                                      res_format := lit "json";
                                      res_content := Some (replicate n 97%N) |} |})
    [999; 1000; 1001; 10 * 1000 + 7].
Proof. repeat constructor; vm_compute; reflexivity. Qed.

(** C3, as the claim states it, fails: the callback that carries only a
    status is rejected for want of a progress value, and the task stays
    pending. *)
Lemma coalesce_status_only_counterexample :
  let db0 := (post_convert_source_async Sample.env 1 Sample.task1 Sample.doc1 Sample.vec1
                Sample.one_url empty_db).1 in
  let db1 := (post_callback_task_progress 2
                (Sample.callback Sample.task1 (Some 50%Z) None) db0).1 in
  post_callback_task_progress 3 (Sample.callback Sample.task1 None (Some completed)) db1
    = (db1, ErrorJson 400 (lit "Invalid progress data") None)
  ∧ get_status_poll Sample.task1 db1 =
      (db1, Json {| tsr_task_id := Sample.task1; tsr_status := pending;
                    tsr_message := Some (lit "Document conversion queued");
                    tsr_progress := Some 50%Z; tsr_error := None |})
  ∧ pending ≠ completed.
Proof. vm_compute. done. Qed.

Lemma task_update_coalesce_witness :
  ∃ db0 db1 db2,
    (post_convert_source_async Sample.env 1 Sample.task1 Sample.doc1 Sample.vec1
       Sample.one_url empty_db).1 = db0
    ∧ (post_callback_task_progress 2
         (Sample.callback Sample.task1 (Some 50%Z) None) db0).1 = db1
    ∧ (post_callback_task_progress 3
         (Sample.callback Sample.task1 (Some 50%Z) (Some completed)) db1).1 = db2
    ∧ get_status_poll Sample.task1 db2 =
        (db2, Json {| tsr_task_id := Sample.task1; tsr_status := completed;
                      tsr_message := Some (lit "Document conversion queued");
                      tsr_progress := Some 50%Z; tsr_error := None |}).
Proof.
  destruct (task_update_coalesce Sample.env 1 2 3 Sample.task1 Sample.doc1 Sample.vec1
              Sample.one_url empty_db None None None 50%Z None None (Some completed)
              ltac:(discriminate) ltac:(vm_compute; discriminate)
              (not_in_empty_table _ _) (not_in_empty_table _ _) (not_in_empty_table _ _))
    as (db0 & db1 & db2 & r0 & Hrun0 & _ & Hrun1 & Hrun2 & Hpoll & _).
  exists db0, db1, db2. unfold Sample.callback.
  rewrite Hrun0. cbn [fst]. rewrite Hrun1. cbn [fst]. rewrite Hrun2. cbn [fst].
  split; [done|]. split; [done|]. split; [done|]. exact Hpoll.
Defined.

(** C4, as the claim states it, fails: an unknown task id with no
    progress value, or an empty task id, is answered 400, not 404. *)
Lemma unknown_task_invalid_counterexample :
  tasks_with_id (lit "ghost") empty_db = []
  ∧ post_callback_task_progress 1 (Sample.callback (lit "ghost") None (Some completed))
      empty_db = (empty_db, ErrorJson 400 (lit "Invalid progress data") None)
  ∧ tasks_with_id [] empty_db = []
  ∧ post_callback_task_progress 1 (Sample.callback [] (Some 10%Z) None) empty_db
      = (empty_db, ErrorJson 400 (lit "Invalid progress data") None)
  ∧ ErrorJson 400 (lit "Invalid progress data") None
    ≠ (ErrorJson 404 (lit "Task not found") None : response ProgressCallbackResponse).
Proof. vm_compute. by split_and!. Qed.

Lemma progress_update_unknown_task_witness :
  post_callback_task_progress 1 (Sample.callback (lit "ghost") (Some 10%Z) None) empty_db
  = (empty_db, ErrorJson 404 (lit "Task not found") None).
Proof.
  apply (progress_update_unknown_task 1
           (Sample.callback (lit "ghost") (Some 10%Z) None) empty_db).
  reflexivity.
Defined.

Lemma vectorizer_get_or_create_idempotent_witness :
  let op1 := ConvertFile Sample.env 1 Sample.task1 Sample.doc1 Sample.vec1
               (Sample.form_of [Sample.short_file]) in
  let op2 := ConvertSourceAsync Sample.env 2 Sample.task2 Sample.doc2 Sample.vec2
               Sample.one_url in
  let db1 := run_op op1 empty_db in
  let db2 := run_op op2 db1 in
  op_ok op1 empty_db ∧ op_ok op2 db1
  ∧ ∃ v, vectorizers_for Sample.model db2 = [v]
         ∧ v_model_name v = Sample.model
         ∧ op_links op1 db1 (v_id v)
         ∧ op_links op2 db2 (v_id v).
Proof.
  apply (vectorizer_get_or_create_idempotent []
           (ConvertFile Sample.env 1 Sample.task1 Sample.doc1 Sample.vec1
              (Sample.form_of [Sample.short_file]))
           (ConvertSourceAsync Sample.env 2 Sample.task2 Sample.doc2 Sample.vec2
              Sample.one_url) Sample.model).
  - reflexivity.
  - reflexivity.
  - split; [by eexists _, _|]. split_and!; try apply not_in_empty_table. reflexivity.
  - cbn [op_ready]. split; [vm_compute; discriminate|].
    split_and!; apply (bool_decide_unpack _); vm_compute; exact I.
Defined.

(** C6, as the claim states it, fails: two calls for a model name
    without a row, each running its [SELECT] before the other's
    [INSERT], both insert, and two rows carry the model name. *)
Lemma concurrent_get_or_create_counterexample :
  let s := run_schedule Sample.model [0; 1; 0; 1]
             (empty_db, [Sample.call Sample.vec1; Sample.call Sample.vec2]) in
  vectorizers_for Sample.model empty_db = []
  ∧ gc_state <$> s.2 = [Finished (Returned Sample.vec1); Finished (Returned Sample.vec2)]
  ∧ v_id <$> vectorizers_for Sample.model s.1 = [Sample.vec1; Sample.vec2]
  ∧ length (vectorizers_for Sample.model s.1) ≠ 1.
Proof. vm_compute. by split_and!. Qed.

Lemma concurrent_get_or_create_bounds_witness :
  let s := run_schedule Sample.model [0; 1; 0; 1]
             (empty_db, [Sample.call Sample.vec1; Sample.call Sample.vec2]) in
  1 ≤ length (vectorizers_for Sample.model s.1) ≤ 2
  ∧ ∀ c id, c ∈ s.2 → gc_state c = Finished (Returned id) →
            id ∈ v_id <$> vectorizers_for Sample.model s.1.
Proof.
  intros s.
  apply (concurrent_get_or_create_bounds Sample.model
           [Sample.call Sample.vec1; Sample.call Sample.vec2] [0; 1; 0; 1]
           empty_db s.1 s.2).
  - reflexivity.
  - by repeat constructor.
  - discriminate.
  - apply surjective_pairing.
  - vm_compute. repeat constructor; by eexists.
Defined.

(** C7, as the claim states it, fails: after the asynchronous ingestion
    and the completing callback the result route returns no content. *)
Lemma async_result_no_content_counterexample :
  let db0 := (post_convert_source_async Sample.env 1 Sample.task1 Sample.doc1 Sample.vec1
                Sample.one_url empty_db).1 in
  let db1 := (post_callback_task_progress 2
                (Sample.callback Sample.task1 (Some 100%Z) (Some completed)) db0).1 in
  ∃ r res, get_result Sample.task1 db1 = (db1, Json r)
           ∧ cdr_status r = completed
           ∧ cdr_result r = Some res
           ∧ res_content res = None
           ∧ d_content <$> documents_with_id Sample.doc1 db1 = [None]
           ∧ chunks_of Sample.doc1 db1 = [].
Proof. vm_compute. eexists _, _. by split_and!. Qed.

Lemma async_scenario_witness :
  ∃ db0 db1,
    post_convert_source_async Sample.env 1 Sample.task1 Sample.doc1 Sample.vec1
      Sample.one_url empty_db =
      (db0, Json {| tsr_task_id := Sample.task1; tsr_status := pending;
                    tsr_message := Some (lit "Document conversion queued");
                    tsr_progress := None; tsr_error := None |})
    ∧ get_status_poll Sample.task1 db0 =
        (db0, Json {| tsr_task_id := Sample.task1; tsr_status := pending;
                      tsr_message := Some (lit "Document conversion queued");
                      tsr_progress := Some 0%Z; tsr_error := None |})
    ∧ post_callback_task_progress 2
        {| pc_task_id := Sample.task1; pc_progress := Some 100%Z; pc_message := None;
           pc_error := None; pc_status := Some completed |} db0 =
        (db1, Json {| pcr_success := true; pcr_task_id := Sample.task1;
                      pcr_progress := 100%Z |})
    ∧ get_result Sample.task1 db1 =
        (db1, Json {| cdr_task_id := Sample.task1; cdr_status := completed;
                      cdr_message := Some (lit "Document conversion queued");
                      cdr_progress := Some 100%Z; cdr_error := None;
                      cdr_result := Some
                        {| res_document_id := Sample.doc1;
                           res_pages := length (req_sources Sample.one_url);
                           res_format := lit "json";
                           res_content := None |} |}).
Proof.
  apply (async_scenario Sample.env 1 2 Sample.task1 Sample.doc1 Sample.vec1
           Sample.one_url empty_db).
  - discriminate.
  - vm_compute. discriminate.
  - apply not_in_empty_table.
  - apply not_in_empty_table.
  - apply not_in_empty_table.
  - apply fk_file_chunks_empty_db.
Defined.

(** C8, as the claim states it, fails: a callback that supplies 150 is
    applied as it is. *)
Lemma progress_out_of_range_counterexample :
  let ops := [ConvertSourceAsync Sample.env 1 Sample.task1 Sample.doc1 Sample.vec1
                Sample.one_url;
              ProgressCallback 2 (Sample.callback Sample.task1 (Some 150%Z) None)] in
  ∃ t, t ∈ tasks (run_ops ops empty_db)
       ∧ t_progress t = Some 150%Z
       ∧ ¬ progress_in_range (t_progress t).
Proof.
  vm_compute. eexists. split; [left|]. split; [done|].
  intros (v & Hv & Hrange). injection Hv as <-. by destruct Hrange as [_ Hle].
Qed.

Lemma progress_range_invariant_witness :
  let ops := [ConvertSourceAsync Sample.env 1 Sample.task1 Sample.doc1 Sample.vec1
                Sample.one_url;
              ProgressCallback 2 (Sample.callback Sample.task1 (Some 100%Z) (Some completed))] in
  Forall supplies_progress_in_range ops
  ∧ Forall (λ t, progress_in_range (t_progress t)) (tasks (run_ops ops empty_db)).
Proof.
  intros ops.
  assert (Forall supplies_progress_in_range ops) as Hops
    by (repeat constructor; vm_compute; discriminate).
  split; [exact Hops|].
  apply Forall_forall. exact (progress_range_invariant ops Hops).
Defined.

Lemma first_file_only_witness :
  let form files := {| form_files := files; form_format := None;
                       form_ocr_engine := None; form_model := None |} in
  let T := CHUNK_SIZE_TOKENS in
  post_convert_file Sample.env 7 Sample.task1 Sample.doc1 Sample.vec1
    (form [Sample.long_file; Sample.short_file]) empty_db =
  post_convert_file Sample.env 7 Sample.task1 Sample.doc1 Sample.vec1
    (form [Sample.long_file; Sample.empty_file]) empty_db
  ∧ ∃ db' body res d,
      post_convert_file Sample.env 7 Sample.task1 Sample.doc1 Sample.vec1
        (form [Sample.long_file; Sample.empty_file]) empty_db = (db', Json body)
      ∧ cdr_result body = Some res
      ∧ res_pages res = 2
      ∧ documents_with_id Sample.doc1 db' = [d]
      ∧ d_pages d = 2
      ∧ d_content d = (if decide (length (file_text Sample.long_file) ≤ T)
                       then Some (file_text Sample.long_file) else None)
      ∧ (length (file_text Sample.long_file) ≤ T → chunks_of Sample.doc1 db' = [])
      ∧ (T < length (file_text Sample.long_file) →
         ∃ n, length (chunks_of Sample.doc1 db') = n
              ∧ length (file_text Sample.long_file) ≤ n * T
              ∧ n * T < length (file_text Sample.long_file) + T
              ∧ c_chunk_index <$> chunks_of Sample.doc1 db' = seq 0 n
              ∧ (∀ i, i < n →
                   (c_content <$> chunks_of Sample.doc1 db') !! i
                   = Some (to_text (take T (drop (i * T) (file_text Sample.long_file)))))
              ∧ (well_formed (file_text Sample.long_file) = true →
                 keeps_pairs T (file_text Sample.long_file) = true →
                 join (c_content <$> chunks_of Sample.doc1 db')
                 = file_text Sample.long_file)).
Proof.
  intros form T.
  destruct (first_file_only Sample.env 7 Sample.task1 Sample.doc1 Sample.vec1
              None None None Sample.long_file [Sample.empty_file] empty_db
              ltac:(simpl; lia)) as (Hsame & _ & Hstored).
  split.
  - apply (Hsame [Sample.short_file]). reflexivity.
  - apply Hstored.
    + reflexivity.
    + apply not_in_empty_table.
    + apply not_in_empty_table.
    + apply not_in_empty_table.
    + apply fk_file_chunks_empty_db.
Defined.

(** The first of two files is long: its 2500 letters are in three chunks
    and come back joined; the second file is nowhere. *)
Example first_file_only_long :
  let db' := (post_convert_file Sample.env 7 Sample.task1 Sample.doc1 Sample.vec1
                (Sample.form_of [Sample.long_file; Sample.short_file]) empty_db).1 in
  length <$> (c_content <$> file_chunks db') = [1000; 1000; 500]
  ∧ join (c_content <$> file_chunks db') = file_text Sample.long_file
  ∧ d_content <$> documents db' = [None]
  ∧ d_pages <$> documents db' = [2].
Proof. vm_compute. done. Qed.

(** Scenario A of the specification: one URL, ingested synchronously. *)
Example scenario_A :
  let '(db', r) := post_convert_source 1 Sample.task1 Sample.doc1 Sample.one_url empty_db in
  r = Json {| cdr_task_id := Sample.task1; cdr_status := completed;
              cdr_message := Some (lit "Document conversion started");
              cdr_progress := None; cdr_error := None;
              cdr_result := Some {| res_document_id := Sample.doc1; res_pages := 1;
                                    res_format := lit "json"; res_content := None |} |}
  ∧ s_url <$> sources db' = [lit "https://a/b.pdf"].
Proof. vm_compute. done. Qed.

Lemma url_sync_placeholder_content_witness :
  ∃ db' body d,
    post_convert_source 1 Sample.task1 Sample.doc1 Sample.one_url empty_db
      = (db', Json body)
    ∧ documents_with_id Sample.doc1 db' = [d]
    ∧ d_content d = Some url_placeholder
    ∧ ∃ r res,
        get_result (cdr_task_id body) db' = (db', Json r)
        ∧ cdr_result r = Some res
        ∧ res_document_id res = Sample.doc1
        ∧ res_content res = Some url_placeholder.
Proof.
  apply (url_sync_placeholder_content 1 Sample.task1 Sample.doc1 Sample.one_url empty_db).
  - discriminate.
  - vm_compute. discriminate.
  - apply not_in_empty_table.
  - apply not_in_empty_table.
Defined.

(** ** Reasoning about statements in sequence *)

Lemma hoare_ret {A} (P : Db → Prop) (a : A) (Q : A → Db → Prop) E :
  (∀ db, P db → Q a db) → hoare P (mret a) Q E.
Proof. intros HPQ db HP. by apply HPQ. Qed.

Lemma hoare_bind {A B} (P : Db → Prop) (m : M A) (R : A → Db → Prop)
    (f : A → M B) (Q : B → Db → Prop) E :
  hoare P m R E → (∀ a, hoare (R a) (f a) Q E) → hoare P (m ≫= f) Q E.
Proof.
  intros Hm Hf db HP. rewrite run_bind. specialize (Hm db HP).
  destruct (m db) as [db' [a|e]]; [by apply Hf | done].
Qed.

Lemma hoare_weaken {A} (P P' : Db → Prop) (m : M A) (Q Q' : A → Db → Prop) E :
  hoare P' m Q' E → (∀ db, P db → P' db) → (∀ a db, Q' a db → Q a db) →
  hoare P m Q E.
Proof.
  intros Hm HP HQ db Hdb. specialize (Hm db (HP db Hdb)).
  destruct (m db) as [db' [a|e]]; [by apply HQ | done].
Qed.

Lemma hoare_for_each {A} (J : Db → Prop) (body : A → M unit) (l : list A) E :
  (∀ x, hoare J (body x) (λ _, J) E) → hoare J (for_each body l) (λ _, J) E.
Proof.
  intros Hbody. induction l as [|x l IH]; [by apply hoare_ret|].
  cbn [for_each]. eapply hoare_bind; [apply Hbody|]. intros ?. apply IH.
Qed.

Lemma hoare_catch {A} (P : Db → Prop) label (body : M (response A))
    (Q : response A → Db → Prop) (E : Db → Prop) db :
  hoare P body Q E → P db →
  match body db with
  | (db', Returned r) => catch label body db = (db', r) ∧ Q r db'
  | (db', Thrown e) => catch label body db = (db', ErrorJson 500 label (Some e)) ∧ E db'
  end.
Proof.
  intros Hbody HP. specialize (Hbody db HP). unfold catch.
  by destruct (body db) as [db' [r|e]].
Qed.

(** A statement that cannot throw and returns what [Q] holds of. *)
Lemma hoare_pure {A} (P : Db → Prop) (m : M A) (Q : A → Db → Prop) E :
  (∀ db, P db → ∃ a, m db = (db, Returned a) ∧ Q a db) → hoare P m Q E.
Proof. intros Hm db HP. by destruct (Hm db HP) as (a & -> & HQ). Qed.

Lemma hoare_true {A} (m : M A) : hoare (λ _, True) m (λ _ _, True) (λ _, True).
Proof. intros db _. by destruct (m db) as [db' [a|e]]. Qed.

(** A route body made of statements followed by [return json] answers
    200 when no statement throws. *)
Ltac answers_json :=
  repeat (eapply (hoare_bind _ _ (λ _ _, True)); [apply hoare_true | intros ?]);
  apply hoare_ret; intros; reflexivity.

Lemma catch_json_or_500 {A} label (body : M (response A)) db :
  hoare (λ _, True) body (λ r _, status_of r = 200) (λ _, True) →
  status_of (catch label body db).2 = 200 ∨ status_of (catch label body db).2 = 500.
Proof.
  intros Hbody. pose proof (hoare_catch _ label body _ _ db Hbody I) as Hc.
  destruct (body db) as [db' [r|e]]; destruct Hc as [-> Hr]; [by left | by right].
Qed.

(** ** Rejections *)

(** X1. Whatever the request, a route that answers 400 or 404 has written
    nothing; the two read routes never write. *)
Theorem rejections_write_nothing db :
  (∀ now taskId documentId data,
     let r := post_convert_source now taskId documentId data db in
     status_of r.2 = 400 ∨ status_of r.2 = 404 → r.1 = db)
  ∧ (∀ env now taskId documentId vectorizerUuid form,
       let r := post_convert_file env now taskId documentId vectorizerUuid form db in
       status_of r.2 = 400 ∨ status_of r.2 = 404 → r.1 = db)
  ∧ (∀ env now taskId documentId vectorizerUuid data,
       let r := post_convert_source_async env now taskId documentId vectorizerUuid data db in
       status_of r.2 = 400 ∨ status_of r.2 = 404 → r.1 = db)
  ∧ (∀ now data,
       let r := post_callback_task_progress now data db in
       status_of r.2 = 400 ∨ status_of r.2 = 404 → r.1 = db)
  ∧ (∀ taskId, (get_status_poll taskId db).1 = db)
  ∧ (∀ taskId, (get_result taskId db).1 = db).
Proof.
  split_and!.
  - intros now t d data r Hr. subst r. unfold post_convert_source in *.
    case_decide; [done|].
    match type of Hr with context [catch ?l ?b db] =>
      destruct (catch_json_or_500 l b db) as [H200|H500]; [answers_json| |]
    end; destruct Hr as [Hr|Hr]; congruence.
  - intros env now t d u form r Hr. subst r. unfold post_convert_file in *.
    destruct (fd_files form) as [|[file|text] rest]; [done| |done]. cbv zeta in *.
    destruct (exceeds_size_limit file); [done|].
    match type of Hr with context [catch ?l ?b db] =>
      destruct (catch_json_or_500 l b db) as [H200|H500]; [answers_json| |]
    end; destruct Hr as [Hr|Hr]; congruence.
  - intros env now t d u data r Hr. subst r. unfold post_convert_source_async in *.
    case_decide; [done|]. cbv zeta in *.
    match type of Hr with context [catch ?l ?b db] =>
      destruct (catch_json_or_500 l b db) as [H200|H500]; [answers_json| |]
    end; destruct Hr as [Hr|Hr]; congruence.
  - intros now data r Hr. subst r. unfold post_callback_task_progress in *.
    destruct (negb _); [done|]. destruct (pc_progress data) as [progress|]; [|done].
    unfold catch in *. rewrite run_bind in *. unfold update_task_progress in *.
    cbv beta iota in *.
    destruct (decide (length (filter (λ t, t_id t = pc_task_id data) (tasks db)) = 0))
      as [Hnone|Hsome].
    + rewrite run_ret. cbn [fst].
      rewrite (fmap_unchanged (λ t, t_id t = pc_task_id data))
        by (by apply length_zero_iff_nil).
      unfold set_tasks. by rewrite set_same_db.
    + rewrite run_ret in Hr. cbn in Hr. by destruct Hr.
  - intros taskId. unfold get_status_poll. destruct (negb _); [done|].
    unfold catch. rewrite run_bind. unfold select_task at 1. cbv beta iota.
    by destruct (head _).
  - intros taskId. unfold get_result. destruct (negb _); [done|].
    unfold catch. rewrite run_bind. unfold select_task_document at 1. cbv beta iota.
    destruct (head _) as [[t d]|]; [|done].
    rewrite run_bind. destruct (negb _ && _); [|by rewrite run_ret].
    rewrite run_bind. unfold select_chunk_contents at 1. cbv beta iota.
    by rewrite run_ret.
Qed.

(** ** Well-formed databases *)

Lemma db_wf_empty : db_wf empty_db.
Proof. by split; try constructor. Qed.

Lemma Forall_more {A} (f : A → jsstring) (ids ids' : list jsstring) (l : list A) :
  Forall (λ x, f x ∈ ids) l → Forall (λ x, f x ∈ ids ++ ids') l.
Proof.
  intros Hl. eapply Forall_impl; [exact Hl|]. intros x Hx. apply elem_of_app. by left.
Qed.

Lemma NoDup_snoc_fresh {A} (f : A → jsstring) (l : list A) (x : A) :
  NoDup (f <$> l) → f x ∉ f <$> l → NoDup (f <$> l ++ [x]).
Proof.
  intros Hl Hx. rewrite fmap_app. apply NoDup_app. split; [done|].
  split; [|by apply NoDup_singleton].
  intros y Hy ->%list_elem_of_singleton. done.
Qed.

Lemma wf_insert_document db row :
  db_wf db →
  d_id row ∉ d_id <$> documents db →
  (∀ v, d_vectorizer_id row = Some v → v ∈ v_id <$> vectorizers db) →
  (∀ s, d_content row = Some s → length s ≤ CHUNK_SIZE_TOKENS) →
  db_wf (set_documents (documents db ++ [row]) db).
Proof.
  intros [] Hfresh Hvid Hbound. split; unfold chunks_of, fk_file_chunks in *; db_simpl;
    try done.
  - by apply NoDup_snoc_fresh.
  - rewrite fmap_app. by apply Forall_more.
  - rewrite fmap_app. by apply Forall_more.
  - rewrite fmap_app. by apply Forall_more.
  - apply Forall_app. split; [done|]. by constructor.
  - apply Forall_app. split; [done|]. constructor; [|done]. intros _.
    by apply (no_chunks_of_fresh_document (d_id row) db).
  - apply Forall_app. split; [done|]. by constructor.
Qed.

Lemma wf_insert_task db row :
  db_wf db →
  t_id row ∉ t_id <$> tasks db →
  t_document_id row ∈ d_id <$> documents db →
  db_wf (set_tasks (tasks db ++ [row]) db).
Proof.
  intros [] Hfresh Hdoc. split; unfold chunks_of, fk_file_chunks in *; db_simpl;
    try done.
  - by apply NoDup_snoc_fresh.
  - apply Forall_app. split; [done|]. by constructor.
Qed.

Lemma wf_insert_sources db documentId rows :
  db_wf db →
  Forall (λ r, s_document_id r = documentId) rows →
  documentId ∈ d_id <$> documents db →
  db_wf (set_sources (sources db ++ rows) db).
Proof.
  intros [] Hrows Hdoc. split; unfold chunks_of, fk_file_chunks in *; db_simpl;
    try done.
  apply Forall_app. split; [done|]. eapply Forall_impl; [exact Hrows|].
  by intros r ->.
Qed.

Lemma wf_insert_vectorizer db row :
  db_wf db →
  v_id row ∉ v_id <$> vectorizers db →
  db_wf (set_vectorizers (vectorizers db ++ [row]) db).
Proof.
  intros [] Hfresh. split; unfold chunks_of, fk_file_chunks in *; db_simpl;
    try done.
  - by apply NoDup_snoc_fresh.
  - eapply Forall_impl; [exact wf_documents_fk0|]. intros d Hd v Hv.
    rewrite fmap_app. apply elem_of_app. left. by apply Hd.
Qed.

Lemma wf_update_tasks db (g : task_row → task_row) (P : task_row → Prop)
    `{!∀ t, Decision (P t)} :
  (∀ t, t_id (g t) = t_id t ∧ t_document_id (g t) = t_document_id t) →
  db_wf db →
  db_wf (set_tasks ((λ t, if decide (P t) then g t else t) <$> tasks db) db).
Proof.
  intros Hg []. split; unfold chunks_of, fk_file_chunks in *; db_simpl; try done.
  - rewrite <-list_fmap_compose.
    erewrite list_fmap_ext; [exact wf_tasks_pk0|].
    intros i t _. cbn. case_decide; [apply Hg|done].
  - apply Forall_fmap. eapply Forall_impl; [exact wf_tasks_fk0|].
    intros t Ht. cbn. case_decide; [|done]. by rewrite (proj2 (Hg t)).
Qed.

Lemma wf_update_document_vectorizer db vid id :
  db_wf db →
  vid ∈ v_id <$> vectorizers db →
  db_wf (update_document_vectorizer vid id db).1.
Proof.
  intros [] Hvid.
  assert (d_id <$> ((update_document_vectorizer vid id db).1).(documents)
          = d_id <$> documents db) as Hids
    by apply update_document_vectorizer_chunks.
  unfold update_document_vectorizer in *. cbn [fst] in *.
  split; unfold chunks_of, fk_file_chunks in *; db_simpl; rewrite ?Hids; try done.
  - apply Forall_fmap. eapply Forall_impl; [exact wf_documents_fk0|].
    intros d Hd v. cbn. case_decide; [|by apply Hd]. cbn. by intros [= <-].
  - apply Forall_fmap. eapply Forall_impl; [exact wf_exclusive0|].
    intros d Hd. cbn. by case_decide.
  - apply Forall_fmap. eapply Forall_impl; [exact wf_inline_bound0|].
    intros d Hd. cbn. by case_decide.
Qed.

Lemma filter_none {A} (P : A → Prop) `{!∀ x, Decision (P x)} (l : list A) :
  Forall (λ x, ¬ P x) l → filter P l = [].
Proof.
  induction 1 as [|x l Hx _ IH]; [done|]. by rewrite filter_cons, decide_False.
Qed.

(** The chunks of other documents are not touched by the rows written
    for [documentId]. *)
Lemma chunks_of_other now documentId g base idx d db :
  d ≠ documentId →
  chunks_of d (set_file_chunks
    (file_chunks db ++ chunk_rows now documentId g base idx) db) = chunks_of d db.
Proof.
  intros Hd. unfold chunks_of. db_simpl. rewrite filter_app.
  rewrite (filter_none _ (chunk_rows _ _ _ _ _)), app_nil_r; [done|].
  eapply Forall_impl; [apply chunk_rows_document|]. intros c -> ->. done.
Qed.

Lemma chunks_of_new now documentId g base idx db :
  chunks_of documentId db = [] →
  chunks_of documentId (set_file_chunks
    (file_chunks db ++ chunk_rows now documentId g base idx) db)
  = chunk_rows now documentId g base idx.
Proof.
  intros Hnone. unfold chunks_of in *. db_simpl. rewrite filter_app, Hnone.
  apply filter_all, chunk_rows_document.
Qed.

Lemma wf_insert_chunks now documentId (contentText : jsstring) base db :
  db_wf db →
  documentId ∈ d_id <$> documents db →
  chunks_of documentId db = [] →
  Forall (λ r, d_id r = documentId → d_content r = None) (documents db) →
  CHUNK_SIZE_TOKENS < length contentText →
  db_wf (set_file_chunks (file_chunks db ++
    chunk_rows now documentId (stored_chunk CHUNK_SIZE_TOKENS contentText) base
      (seq 0 (Math_ceil_div (length contentText) CHUNK_SIZE_TOKENS))) db).
Proof.
  intros [] Hdoc Hnone Hcontent Hlong.
  pose proof CHUNK_SIZE_TOKENS_pos as HT.
  pose proof (Math_ceil_div_bounds _ HT (length contentText)) as [Hlt Hle].
  split; try done.
  - unfold fk_file_chunks in *. db_simpl. apply Forall_app. split; [done|].
    eapply Forall_impl; [apply chunk_rows_document|]. by intros c ->.
  - intros d. destruct (decide (d = documentId)) as [->|Hd].
    + rewrite chunks_of_new by done.
      by rewrite chunk_rows_index, length_chunk_rows, length_seq.
    + rewrite chunks_of_other by done. apply wf_chunk_indices0.
  - intros d i c. destruct (decide (d = documentId)) as [->|Hd].
    + rewrite chunks_of_new by done. rewrite length_chunk_rows, length_seq.
      intros Hc.
      assert (i < Math_ceil_div (length contentText) CHUNK_SIZE_TOKENS) as Hi.
      { apply lookup_lt_Some in Hc. by rewrite length_chunk_rows, length_seq in Hc. }
      destruct (chunk_rows_lookup now documentId
                  (stored_chunk CHUNK_SIZE_TOKENS contentText) base
                  (seq 0 (Math_ceil_div (length contentText) CHUNK_SIZE_TOKENS)) i i)
        as (c' & Hc' & _ & _ & Hcontent'); [by apply lookup_seq_lt|].
      rewrite Hc in Hc'. injection Hc' as <-. rewrite Hcontent'. unfold stored_chunk.
      pose proof (length_to_text (chunk_at CHUNK_SIZE_TOKENS contentText i)) as Hmore.
      rewrite length_chunk_at in Hmore by nia. split; [nia|]. intros HS. nia.
    + rewrite chunks_of_other by done. apply wf_chunk_lengths0.
  - intros d. destruct (decide (d = documentId)) as [->|Hd].
    + rewrite chunks_of_new by done. rewrite length_chunk_rows, length_seq. nia.
    + rewrite chunks_of_other by done. apply wf_chunk_count0.
  - db_simpl. apply Forall_forall. intros d Hin.
    pose proof (proj1 (Forall_forall _ _) wf_exclusive0 d Hin) as Hd1.
    pose proof (proj1 (Forall_forall _ _) Hcontent d Hin) as Hd2.
    cbv beta in Hd1, Hd2. intros Hsome.
    destruct (decide (d_id d = documentId)) as [Heq|Hne].
    + rewrite (Hd2 Heq) in Hsome. by destruct Hsome.
    + rewrite chunks_of_other by done. by apply Hd1.
Qed.

(** *** The statements of the routes, on a well-formed database *)

Lemma wf_hoare_insert_document now id name format pages content vid :
  (∀ s, content = Some s → length s ≤ CHUNK_SIZE_TOKENS) →
  hoare (λ db, db_wf db ∧ ∀ v, vid = Some v → v ∈ v_id <$> vectorizers db)
    (insert_document now id name format pages content vid)
    (λ _ db, db_wf db ∧ id ∈ d_id <$> documents db ∧ chunks_of id db = []
             ∧ Forall (λ r, d_id r = id → d_content r = content) (documents db))
    db_wf.
Proof.
  intros Hbound db [Hwf Hvid]. unfold insert_document. case_decide as Hin; [done|].
  split_and!.
  - by apply wf_insert_document.
  - db_simpl. rewrite fmap_app. apply elem_of_app. right. by left.
  - apply (no_chunks_of_fresh_document id db); [apply Hwf | done].
  - db_simpl. apply Forall_app. split; [|by constructor].
    apply Forall_forall. intros r Hr Hid. exfalso. apply Hin.
    rewrite <-Hid. by apply list_elem_of_fmap_2.
Qed.

Lemma wf_hoare_insert_task now id status document_id message :
  hoare (λ db, db_wf db ∧ document_id ∈ d_id <$> documents db)
    (insert_task now id status document_id message)
    (λ _ db, db_wf db ∧ document_id ∈ d_id <$> documents db) db_wf.
Proof.
  intros db [Hwf Hdoc]. unfold insert_task. case_decide; [done|].
  split; [by apply wf_insert_task | done].
Qed.

Lemma wf_hoare_sources now documentId (l : list source_value) :
  hoare (λ db, db_wf db ∧ documentId ∈ d_id <$> documents db)
    (for_each (λ source, insert_source now documentId (source_url source)) l)
    (λ _, db_wf) db_wf.
Proof.
  intros db [Hwf Hdoc].
  destruct (for_each_insert_source_run now documentId l db)
    as (rows & o & -> & Hrows & _).
  destruct o; by apply (wf_insert_sources db documentId).
Qed.

Lemma wf_hoare_vectorizer (J : list jsstring → Prop) now uuid modelName ocr :
  hoare (λ db, db_wf db ∧ J (d_id <$> documents db))
    (lookup_or_insert_vectorizer now uuid modelName ocr)
    (λ vid db, db_wf db ∧ J (d_id <$> documents db) ∧ vid ∈ v_id <$> vectorizers db)
    db_wf.
Proof.
  intros db [Hwf HJ]. unfold lookup_or_insert_vectorizer.
  rewrite run_bind. unfold select_vectorizer_id at 1. cbv beta iota.
  destruct (filter _ (vectorizers db)) as [|v l] eqn:Hf;
    cbn [head fmap option_fmap option_map].
  - rewrite run_bind. unfold insert_vectorizer. case_decide; [done|].
    rewrite run_ret. split_and!; [by apply wf_insert_vectorizer | done |].
    db_simpl. rewrite fmap_app. apply elem_of_app. right. by left.
  - rewrite run_ret. split_and!; [done..|].
    apply list_elem_of_fmap_2.
    assert (v ∈ filter (λ v, v_model_name v = modelName) (vectorizers db)) as Hv
      by (rewrite Hf; left).
    by apply list_elem_of_filter in Hv as [_ Hv].
Qed.

Lemma wf_hoare_chunk_loop now documentId (contentText : jsstring) :
  hoare (λ db, db_wf db ∧ documentId ∈ d_id <$> documents db
               ∧ chunks_of documentId db = []
               ∧ Forall (λ r, d_id r = documentId →
                              d_content r =
                                if decide (length contentText ≤ CHUNK_SIZE_TOKENS)
                                then Some contentText else None) (documents db))
    (if decide (CHUNK_SIZE_TOKENS < length contentText)
     then for_each (λ i, insert_file_chunk now documentId i
            (substring contentText (i * CHUNK_SIZE_TOKENS)
               (((i + 1) * CHUNK_SIZE_TOKENS) `min` length contentText)))
            (seq 0 (Math_ceil_div (length contentText) CHUNK_SIZE_TOKENS))
     else mret tt)
    (λ _ db, db_wf db ∧ documentId ∈ d_id <$> documents db) db_wf.
Proof.
  intros db (Hwf & Hdoc & Hnone & Hcontent). rewrite chunk_loop_run by done.
  destruct (decide (CHUNK_SIZE_TOKENS < length contentText)) as [HL|HL].
  - split; [|done]. apply wf_insert_chunks; try done.
    rewrite decide_False in Hcontent by lia. done.
  - rewrite app_nil_r. unfold set_file_chunks. by rewrite set_same_db.
Qed.

Lemma wf_hoare_update_document_vectorizer vid id :
  hoare (λ db, db_wf db ∧ vid ∈ v_id <$> vectorizers db)
    (update_document_vectorizer vid id) (λ _, db_wf) db_wf.
Proof.
  intros db [Hwf Hvid].
  pose proof (wf_update_document_vectorizer db vid id Hwf Hvid) as Hwf'.
  by unfold update_document_vectorizer in *.
Qed.

Lemma wf_catch {A} label (body : M (response A)) db :
  hoare db_wf body (λ _, db_wf) db_wf → db_wf db → db_wf (catch label body db).1.
Proof.
  intros Hbody Hwf. specialize (Hbody db Hwf). unfold catch.
  by destruct (body db) as [db' [r|e]].
Qed.

(** Every request leaves a well-formed database well-formed, whether it
    is answered 200, rejected, or stopped by an exception half way. *)
Lemma run_op_wf op db : db_wf db → db_wf (run_op op db).
Proof.
  intros Hwf. destruct op as [now t d data|env now t d u form|env now t d u data
                              |now data|env now u]; cbn [run_op].
  - unfold post_convert_source. case_decide; [done|].
    apply wf_catch; [|done].
    eapply hoare_bind.
    { eapply hoare_weaken; [apply wf_hoare_insert_document| |intros ? ? HQ; exact HQ].
      - intros s [= <-]. unfold CHUNK_SIZE_TOKENS. cbn. lia.
      - intros ? ?. split; [done|]. by intros. }
    intros ?. eapply hoare_bind.
    { eapply hoare_weaken; [apply wf_hoare_insert_task| |intros ? ? HQ; exact HQ].
      intros ? (? & ? & _). done. }
    intros ?. eapply hoare_bind; [apply wf_hoare_sources|].
    intros ?. by apply hoare_ret.
  - unfold post_convert_file. destruct (fd_files form) as [|[file|text] rest]; [done| |done].
    cbv zeta. destruct (exceeds_size_limit file); [done|].
    apply wf_catch; [|done].
    eapply hoare_bind.
    { eapply hoare_weaken; [apply wf_hoare_insert_document| |intros ? ? HQ; exact HQ].
      - intros s Hs. case_decide; [|done]. by injection Hs as <-.
      - intros ? ?. split; [done|]. by intros. }
    intros ?. eapply hoare_bind; [apply wf_hoare_chunk_loop|].
    intros ?. eapply hoare_bind; [apply wf_hoare_insert_task|].
    intros ?. eapply hoare_bind.
    { eapply hoare_weaken; [apply (wf_hoare_vectorizer (λ _, True))|
                            |intros ? ? HQ; exact HQ].
      by intros ? [? _]. }
    intros vid. eapply hoare_bind.
    { eapply hoare_weaken; [apply wf_hoare_update_document_vectorizer|
                            |intros ? ? HQ; exact HQ].
      intros ? (? & _ & ?). done. }
    intros ?. by apply hoare_ret.
  - unfold post_convert_source_async. case_decide; [done|]. cbv zeta.
    apply wf_catch; [|done].
    eapply hoare_bind.
    { eapply hoare_weaken; [apply (wf_hoare_vectorizer (λ _, True))|
                            |intros ? ? HQ; exact HQ].
      by intros. }
    intros vid. eapply hoare_bind.
    { eapply hoare_weaken; [apply wf_hoare_insert_document| |intros ? ? HQ; exact HQ].
      - done.
      - intros ? (? & _ & ?). split; [done|]. by intros ? [= <-]. }
    intros ?. eapply hoare_bind.
    { eapply hoare_weaken; [apply wf_hoare_insert_task| |intros ? ? HQ; exact HQ].
      intros ? (? & ? & _). done. }
    intros ?. eapply hoare_bind; [apply wf_hoare_sources|].
    intros ?. by apply hoare_ret.
  - unfold post_callback_task_progress. destruct (negb _); [done|].
    destruct (pc_progress data) as [progress|]; [|done].
    apply wf_catch; [|done].
    eapply hoare_bind with (R := λ _, db_wf).
    + intros db' Hwf'. unfold update_task_progress.
      by apply (wf_update_tasks db' _ (λ t, t_id t = pc_task_id data)).
    + intros changes. case_decide; by apply hoare_ret.
  - unfold ensureDefaultVectorizer. rewrite run_bind.
    unfold select_vectorizer_id at 1. cbv beta iota.
    destruct (head _) as [v|]; cbn [fmap option_fmap option_map]; [by rewrite run_ret|].
    unfold insert_vectorizer. case_decide; [done|]. cbn [fst].
    by apply wf_insert_vectorizer.
Qed.

Lemma run_ops_wf ops db : db_wf db → db_wf (run_ops ops db).
Proof.
  revert db. induction ops as [|op ops IH]; intros db Hwf; [done|].
  apply IH. by apply run_op_wf.
Qed.

(** ** Which answer a request gets *)

(** The lookup-or-insert block throws only when the model has no row and
    the identifier drawn for the new row is taken. *)
Lemma lookup_or_insert_vectorizer_cases now uuid modelName ocr db :
  (vectorizers_for modelName db = [] ∧ uuid ∈ v_id <$> vectorizers db
   ∧ ∃ e, lookup_or_insert_vectorizer now uuid modelName ocr db = (db, Thrown e))
  ∨ (¬ (vectorizers_for modelName db = [] ∧ uuid ∈ v_id <$> vectorizers db)
     ∧ ∃ vid vs', lookup_or_insert_vectorizer now uuid modelName ocr db
                  = (set_vectorizers vs' db, Returned vid)).
Proof.
  destruct (vectorizers_for modelName db) as [|v l] eqn:Hf.
  - destruct (decide (uuid ∈ v_id <$> vectorizers db)) as [Hin|Hout].
    + left. split_and!; [done..|]. eexists.
      unfold lookup_or_insert_vectorizer. rewrite run_bind.
      unfold select_vectorizer_id, vectorizers_for in *. rewrite Hf.
      cbn [head fmap option_fmap option_map]. rewrite run_bind.
      unfold insert_vectorizer. by rewrite decide_True.
    + right. split; [by intros [_ ?]|].
      destruct (lookup_or_insert_vectorizer_run now uuid modelName ocr db Hout)
        as (vid & vs' & -> & _). eauto.
  - right. split; [by intros [? _]|].
    unfold lookup_or_insert_vectorizer. rewrite run_bind.
    unfold select_vectorizer_id, vectorizers_for in *. rewrite Hf.
    cbn [head fmap option_fmap option_map]. rewrite run_ret.
    exists (v_id v), (vectorizers db). unfold set_vectorizers. by rewrite set_same_db.
Qed.




(** ** What holds of every database the worker can reach *)

(** X3. After any sequence of requests, whatever their answers: the ids of
    documents, tasks and vectorizers are unique, and every reference
    (a task's, a source's or a chunk's document, a document's
    vectorizer) points at a row that exists. *)
Theorem keys_and_references ops :
  let db := run_ops ops empty_db in
  NoDup (d_id <$> documents db)
  ∧ NoDup (t_id <$> tasks db)
  ∧ NoDup (v_id <$> vectorizers db)
  ∧ Forall (λ t, t_document_id t ∈ d_id <$> documents db) (tasks db)
  ∧ Forall (λ s, s_document_id s ∈ d_id <$> documents db) (sources db)
  ∧ Forall (λ c, c_document_id c ∈ d_id <$> documents db) (file_chunks db)
  ∧ Forall (λ d, ∀ v, d_vectorizer_id d = Some v → v ∈ v_id <$> vectorizers db)
      (documents db).
Proof.
  intros db. destruct (run_ops_wf ops empty_db db_wf_empty). by split_and!.
Qed.

(** *** Chunks of exactly [CHUNK_SIZE_TOKENS] code units *)

Lemma preserves_file_chunks_frame {A} (P : list chunk_row → Prop) (m : M A) :
  (∀ db, file_chunks (m db).1 = file_chunks db) →
  preserves (λ db, P (file_chunks db)) m.
Proof. intros Hm db HP. by rewrite Hm. Qed.

Lemma insert_document_file_chunks now id name format pages content vid db :
  file_chunks (insert_document now id name format pages content vid db).1
  = file_chunks db.
Proof. unfold insert_document. by case_decide. Qed.

Ltac preserves_exact :=
  repeat first
    [ apply preserves_ret
    | apply (preserves_file_chunks_frame exact_rows); intros ?;
      first [ apply insert_document_file_chunks | apply insert_task_chunks
            | apply insert_source_chunks
            | apply lookup_or_insert_vectorizer_chunks
            | apply update_document_vectorizer_chunks
            | apply update_task_progress_chunks ]
    | apply preserves_for_each; intros ?
    | apply preserves_bind; [|intros ?]
    | case_decide ].

(** The rows the chunk loop writes for a text that keeps its pairs. *)
Lemma exact_insert_chunks now documentId (contentText : jsstring) base db :
  chunks_exact db →
  chunks_of documentId db = [] →
  well_formed contentText = true →
  keeps_pairs CHUNK_SIZE_TOKENS contentText = true →
  chunks_exact (set_file_chunks (file_chunks db ++
    chunk_rows now documentId (stored_chunk CHUNK_SIZE_TOKENS contentText) base
      (seq 0 (Math_ceil_div (length contentText) CHUNK_SIZE_TOKENS))) db).
Proof.
  intros Hexact Hnone Hwf Hkeep documentId' i c.
  pose proof CHUNK_SIZE_TOKENS_pos as HT.
  pose proof (Math_ceil_div_bounds _ HT (length contentText)) as [Hlt Hle].
  fold (chunks_of documentId' (set_file_chunks (file_chunks db ++
    chunk_rows now documentId (stored_chunk CHUNK_SIZE_TOKENS contentText) base
      (seq 0 (Math_ceil_div (length contentText) CHUNK_SIZE_TOKENS))) db)).
  destruct (decide (documentId' = documentId)) as [->|Hd].
  - rewrite chunks_of_new by done. rewrite length_chunk_rows, length_seq.
    intros Hc.
    assert (i < Math_ceil_div (length contentText) CHUNK_SIZE_TOKENS) as Hi.
    { apply lookup_lt_Some in Hc. by rewrite length_chunk_rows, length_seq in Hc. }
    destruct (chunk_rows_lookup now documentId
                (stored_chunk CHUNK_SIZE_TOKENS contentText) base
                (seq 0 (Math_ceil_div (length contentText) CHUNK_SIZE_TOKENS)) i i)
      as (c' & Hc' & _ & _ & Hcontent'); [by apply lookup_seq_lt|].
    rewrite Hc in Hc'. injection Hc' as <-.
    rewrite Hcontent', stored_chunk_kept, length_chunk_at by (done || nia).
    split; [lia|]. intros HS. nia.
  - rewrite chunks_of_other by done. apply Hexact.
Qed.

Lemma run_op_exact op db :
  fk_file_chunks db → op_keeps_pairs op → chunks_exact db → chunks_exact (run_op op db).
Proof.
  intros Hfk Hop HI. destruct op as [now t d data|env now t d u form|env now t d u data
                                     |now data|env now u]; cbn [run_op].
  - unfold post_convert_source. case_decide; [done|].
    apply preserves_catch; [|done]. preserves_exact.
  - unfold post_convert_file. cbn [op_keeps_pairs] in Hop.
    destruct (fd_files form) as [|[file|text] rest]; [done| |done].
    destruct Hop as [Hwf Hkeep].
    cbv zeta. destruct (exceeds_size_limit file); [done|].
    unfold catch. rewrite run_bind. unfold insert_document at 1.
    case_decide as Hd; [done|]. cbv beta iota.
    rewrite run_bind, chunk_loop_run
      by (apply (no_chunks_of_fresh_document d db Hfk Hd)).
    cbv beta iota.
    match goal with |- chunks_exact (match ?m ?db2 with _ => _ end).1 =>
      assert (chunks_exact (m db2).1) as Hrest;
        [|by destruct (m db2) as [db' [r|e]]]
    end.
    match goal with |- chunks_exact (?m ?db2).1 =>
      assert (preserves chunks_exact m) as Hm by preserves_exact; apply Hm
    end.
    destruct (decide (CHUNK_SIZE_TOKENS < length (file_text file))).
    + apply exact_insert_chunks; try done.
      apply (no_chunks_of_fresh_document d db Hfk Hd).
    + rewrite app_nil_r. unfold set_file_chunks. by rewrite set_same_db.
  - unfold post_convert_source_async. case_decide; [done|].
    apply preserves_catch; [|done]. cbv zeta. preserves_exact.
  - unfold post_callback_task_progress.
    destruct (negb _); [done|]. destruct (pc_progress data) as [progress|]; [|done].
    apply preserves_catch; [|done]. preserves_exact.
  - unfold ensureDefaultVectorizer. rewrite run_bind.
    unfold select_vectorizer_id at 1. cbv beta iota.
    destruct (v_id <$> _); [done|].
    unfold insert_vectorizer. by case_decide.
Qed.

Lemma run_ops_exact ops db :
  fk_file_chunks db → Forall op_keeps_pairs ops → chunks_exact db →
  chunks_exact (run_ops ops db).
Proof.
  intros Hfk Hops. revert db Hfk.
  induction Hops as [|op ops Hop _ IH]; intros db Hfk HI; [done|].
  cbn [run_ops foldl]. apply IH; [by apply run_op_fk | by apply run_op_exact].
Qed.

(** X4. After any sequence of requests, the chunk rows of any document, in
    table order, carry the indices 0, 1, 2, ...; there are none or at
    least two; each holds at least one code unit and all but the last
    hold at least [CHUNK_SIZE_TOKENS].  When every text uploaded is
    well-formed UTF-16 and has no surrogate pair across a multiple of
    [CHUNK_SIZE_TOKENS], each holds at most [CHUNK_SIZE_TOKENS] code
    units and all but the last hold exactly that many. *)
Theorem chunk_layout ops documentId :
  let rows := chunks_of documentId (run_ops ops empty_db) in
  c_chunk_index <$> rows = seq 0 (length rows)
  ∧ length rows ≠ 1
  ∧ (∀ i c, rows !! i = Some c →
       0 < length (c_content c)
       ∧ (S i < length rows → CHUNK_SIZE_TOKENS ≤ length (c_content c)))
  ∧ (Forall op_keeps_pairs ops →
     ∀ i c, rows !! i = Some c →
       length (c_content c) ≤ CHUNK_SIZE_TOKENS
       ∧ (S i < length rows → length (c_content c) = CHUNK_SIZE_TOKENS)).
Proof.
  intros rows. destruct (run_ops_wf ops empty_db db_wf_empty). subst rows.
  split_and!; [done..|apply wf_chunk_lengths0|].
  intros Hops. apply (run_ops_exact ops empty_db); [constructor|done|].
  by intros d i c.
Qed.

Lemma length_join_chunks (T : nat) (l : list jsstring) :
  (∀ i s, l !! i = Some s → 0 < length s ∧ (S i < length l → T ≤ length s)) →
  2 ≤ length l → T < length (join l).
Proof.
  intros Hl Hlen. destruct l as [|a [|b l]]; simpl in Hlen; [lia..|].
  unfold join. cbn [concat]. rewrite !length_app.
  destruct (Hl 0 a eq_refl) as [_ Ha]. destruct (Hl 1 b eq_refl) as [Hb _].
  specialize (Ha ltac:(simpl; lia)). lia.
Qed.

(** X5. After any sequence of requests, a document row either holds its text,
    of at most [CHUNK_SIZE_TOKENS] code units, and has no chunk rows; or
    holds none and has either no chunk rows or chunk rows whose contents
    add up to more than [CHUNK_SIZE_TOKENS] code units. *)
Theorem inline_or_chunked ops :
  let db := run_ops ops empty_db in
  Forall (λ d,
    match d_content d with
    | Some s => length s ≤ CHUNK_SIZE_TOKENS ∧ chunks_of (d_id d) db = []
    | None =>
        chunks_of (d_id d) db = []
        ∨ CHUNK_SIZE_TOKENS < length (join (c_content <$> chunks_of (d_id d) db))
    end) (documents db).
Proof.
  intros db. assert (db_wf db) as [] by apply run_ops_wf, db_wf_empty.
  apply Forall_forall. intros d Hd.
  pose proof (proj1 (Forall_forall _ _) wf_exclusive0 d Hd) as Hex.
  pose proof (proj1 (Forall_forall _ _) wf_inline_bound0 d Hd) as Hbound.
  cbv beta in Hex, Hbound.
  destruct (d_content d) as [s|]; [split; [by apply Hbound | by apply Hex]|].
  destruct (chunks_of (d_id d) db) as [|c rows] eqn:Hrows; [by left|]. right.
  rewrite <-Hrows. apply length_join_chunks.
  - intros i s Hs. rewrite list_lookup_fmap in Hs.
    destruct (chunks_of (d_id d) db !! i) as [c'|] eqn:Hc'; [|done].
    injection Hs as <-. rewrite length_fmap.
    destruct (wf_chunk_lengths0 (d_id d) i c' Hc') as [? ?]. done.
  - rewrite length_fmap. pose proof (wf_chunk_count0 (d_id d)) as Hcount.
    rewrite Hrows in *. destruct rows; simpl in *; [done|lia].
Qed.

Lemma filter_present {A} (f : A → jsstring) (k : jsstring) (l : list A) :
  k ∈ f <$> l → ∃ x l', filter (λ y, f y = k) l = x :: l'.
Proof.
  intros (x & -> & Hx)%list_elem_of_fmap.
  assert (x ∈ filter (λ y, f y = f x) l) as Hin by (by apply list_elem_of_filter).
  destruct (filter _ l) as [|y l']; [by apply elem_of_nil in Hin | eauto].
Qed.

Lemma get_status_poll_run taskId db :
  taskId ≠ [] →
  get_status_poll taskId db =
    (db, match head (tasks_with_id taskId db) with
         | None => ErrorJson 404 (lit "Task not found") None
         | Some t =>
             Json {| tsr_task_id := t_id t; tsr_status := t_status t;
                     tsr_message := t_message t; tsr_progress := t_progress t;
                     tsr_error := t_error t |}
         end).
Proof.
  intros Hne. unfold get_status_poll. rewrite truthy_nonempty by done. cbn [negb].
  unfold catch. rewrite run_bind. unfold select_task at 1. cbv beta iota.
  unfold tasks_with_id. by destruct (head _); rewrite run_ret.
Qed.

(** X6. After any sequence of requests, the status route and the result
    route agree on every task id: both answer 200, with the same task
    fields and a result naming a document that exists, or both answer
    400, or both answer 404. *)
Theorem poll_and_result_agree ops taskId :
  let db := run_ops ops empty_db in
  match (get_status_poll taskId db).2, (get_result taskId db).2 with
  | Json s, Json r =>
      tsr_task_id s = taskId
      ∧ cdr_task_id r = tsr_task_id s ∧ cdr_status r = tsr_status s
      ∧ cdr_message r = tsr_message s ∧ cdr_progress r = tsr_progress s
      ∧ cdr_error r = tsr_error s
      ∧ ∃ res, cdr_result r = Some res
               ∧ res_document_id res ∈ d_id <$> documents db
  | ErrorJson a _ _, ErrorJson b _ _ => a = b ∧ (a = 400 ∨ a = 404)
  | _, _ => False
  end.
Proof.
  intros db. assert (db_wf db) as Hwf by apply run_ops_wf, db_wf_empty.
  destruct (decide (taskId = [])) as [->|Hne]; [by split; [|left]|].
  rewrite get_status_poll_run by done. cbn [snd].
  destruct (tasks_with_id taskId db) as [|t ts] eqn:Ht; cbn [head].
  - unfold get_result. rewrite truthy_nonempty by done. cbn [negb].
    unfold catch. rewrite run_bind. unfold select_task_document at 1.
    unfold tasks_with_id in Ht. rewrite Ht. cbn. by split; [|right].
  - assert (t ∈ tasks db ∧ t_id t = taskId) as [Hin Hid].
    { assert (t ∈ tasks_with_id taskId db) as Hin by (rewrite Ht; left).
      by apply list_elem_of_filter in Hin as [? ?]. }
    pose proof (proj1 (Forall_forall _ _) (wf_tasks_fk db Hwf) t Hin) as Hdoc.
    cbv beta in Hdoc.
    destruct (filter_present d_id _ _ Hdoc) as (d & ds & Hd).
    rewrite (get_result_found taskId db t ts d ds Hne Ht Hd). cbn [snd]. resp_simpl.
    split_and!; try done. eexists. split; [done|]. resp_simpl.
    assert (d ∈ filter (λ y, d_id y = t_document_id t) (documents db)) as Hd'
      by (rewrite Hd; left).
    apply list_elem_of_filter in Hd' as [_ Hd']. by apply list_elem_of_fmap_2.
Qed.

(** ** A result, once served, stays *)

Lemma head_filter_app {A} (P : A → Prop) `{!∀ x, Decision (P x)} (l l' : list A) x :
  head (filter P l) = Some x → head (filter P (l ++ l')) = Some x.
Proof. intros Hx. rewrite filter_app. by destruct (filter P l). Qed.

Lemma filter_fmap_key {A} (f : A → jsstring) (k : jsstring) (g : A → A) (l : list A) :
  (∀ x, f (g x) = f x) →
  filter (λ y, f y = k) (g <$> l) = g <$> filter (λ y, f y = k) l.
Proof.
  intros Hg. induction l as [|x l IH]; [done|].
  rewrite fmap_cons, !filter_cons, Hg. case_decide; by rewrite ?fmap_cons, IH.
Qed.

Lemma serves_frame taskId d0 rows db db' :
  (∀ t, head (tasks_with_id taskId db) = Some t →
        ∃ t', head (tasks_with_id taskId db') = Some t'
              ∧ t_document_id t' = t_document_id t) →
  (∀ d, head (documents_with_id (d_id d0) db) = Some d →
        ∃ d', head (documents_with_id (d_id d0) db') = Some d'
              ∧ d_id d' = d_id d ∧ d_pages d' = d_pages d
              ∧ d_format d' = d_format d ∧ d_content d' = d_content d) →
  chunks_of (d_id d0) db' = chunks_of (d_id d0) db →
  serves taskId d0 rows db → serves taskId d0 rows db'.
Proof.
  intros Htasks Hdocs Hchunks (t & d & Ht & Htd & Hd & ? & ? & ? & ? & ?).
  destruct (Htasks t Ht) as (t' & Ht' & Htd').
  destruct (Hdocs d Hd) as (d' & Hd' & ? & ? & ? & ?).
  exists t', d'. split_and!; congruence.
Qed.

Lemma serves_document taskId d0 rows db :
  serves taskId d0 rows db → d_id d0 ∈ d_id <$> documents db.
Proof.
  intros (_ & d & _ & _ & Hd & Hid & _). rewrite <-Hid.
  apply list_elem_of_fmap_2. unfold documents_with_id in Hd.
  destruct (filter _ (documents db)) as [|x l] eqn:Hf; [done|]. injection Hd as ->.
  assert (d ∈ filter (λ d, d_id d = d_id d0) (documents db)) as Hin
    by (rewrite Hf; left).
  by apply list_elem_of_filter in Hin as [_ ?].
Qed.

Ltac same_head :=
  let x := fresh in let Hx := fresh in intros x Hx; exists x; by split_and!.

Section served.
Context (taskId : jsstring) (d0 : document_row) (rows : list chunk_row).
Let K := serves taskId d0 rows.

Lemma serves_insert_document now id name format pages content vid :
  hoare K (insert_document now id name format pages content vid)
    (λ _ db, K db ∧ id ≠ d_id d0) K.
Proof.
  intros db HK. unfold insert_document. case_decide as Hin; [done|]. split.
  - revert HK. apply serves_frame; unfold tasks_with_id, documents_with_id, chunks_of;
      db_simpl; [same_head| |done].
    intros d Hd. exists d. split; [by apply head_filter_app | done].
  - intros ->. by apply Hin, (serves_document taskId d0 rows).
Qed.

Lemma serves_insert_file_chunk now id i content :
  hoare (λ db, K db ∧ id ≠ d_id d0) (insert_file_chunk now id i content)
    (λ _ db, K db ∧ id ≠ d_id d0) K.
Proof.
  intros db [HK Hid]. unfold insert_file_chunk. case_decide; [done|].
  split; [|done]. revert HK.
  apply serves_frame; unfold tasks_with_id, documents_with_id, chunks_of;
    db_simpl; [same_head..|].
  rewrite filter_app, filter_cons, decide_False by done. apply app_nil_r.
Qed.

Lemma serves_insert_task now id status document_id message :
  hoare K (insert_task now id status document_id message) (λ _, K) K.
Proof.
  intros db HK. unfold insert_task. case_decide; [done|]. revert HK.
  apply serves_frame; unfold tasks_with_id, documents_with_id, chunks_of;
    db_simpl; [|same_head|done].
  intros t Ht. exists t. split; [by apply head_filter_app | done].
Qed.

Lemma serves_insert_source now document_id url :
  hoare K (insert_source now document_id url) (λ _, K) K.
Proof.
  intros db HK. unfold insert_source. destruct url as [url|]; [|done]. revert HK.
  apply serves_frame; unfold tasks_with_id, documents_with_id, chunks_of;
    db_simpl; first [same_head | done].
Qed.

Lemma serves_lookup_or_insert_vectorizer now uuid modelName ocr :
  hoare K (lookup_or_insert_vectorizer now uuid modelName ocr) (λ _, K) K.
Proof.
  intros db HK.
  destruct (lookup_or_insert_vectorizer_cases now uuid modelName ocr db)
    as [(_ & _ & e & ->)|(_ & vid & vs' & ->)]; [done|].
  revert HK. apply serves_frame; unfold tasks_with_id, documents_with_id, chunks_of;
    db_simpl; first [same_head | done].
Qed.

Lemma serves_update_document_vectorizer vid id :
  hoare K (update_document_vectorizer vid id) (λ _, K) K.
Proof.
  intros db HK. unfold update_document_vectorizer. revert HK.
  apply serves_frame; unfold tasks_with_id, documents_with_id, chunks_of;
    db_simpl; [same_head| |done].
  intros d Hd. rewrite filter_fmap_key by (intros x; by case_decide).
  destruct (filter _ (documents db)) as [|x l]; [done|]. injection Hd as ->.
  eexists. split; [done|]. by case_decide.
Qed.

Lemma serves_update_task_progress now progress message error status id :
  hoare K (update_task_progress now progress message error status id) (λ _, K) K.
Proof.
  intros db HK. unfold update_task_progress. revert HK.
  apply serves_frame; unfold tasks_with_id, documents_with_id, chunks_of;
    db_simpl; [|same_head|done].
  intros t Ht. rewrite filter_fmap_key by (intros x; by case_decide).
  destruct (filter _ (tasks db)) as [|x l]; [done|]. injection Ht as ->.
  eexists. split; [done|]. by case_decide.
Qed.

Lemma serves_catch {A} label (body : M (response A)) db :
  hoare K body (λ _, K) K → K db → K (catch label body db).1.
Proof.
  intros Hbody HK. specialize (Hbody db HK). unfold catch.
  by destruct (body db) as [db' [r|e]].
Qed.

Lemma serves_run_op op db : K db → K (run_op op db).
Proof.
  intros HK. destruct op as [now t d data|env now t d u form|env now t d u data
                             |now data|env now u]; cbn [run_op].
  - unfold post_convert_source. case_decide; [done|].
    apply serves_catch; [|done].
    eapply hoare_bind; [apply serves_insert_document|]. intros ?.
    eapply hoare_bind.
    { eapply hoare_weaken; [apply serves_insert_task| |intros ? ? HQ; exact HQ].
      by intros ? [? _]. }
    intros ?. eapply hoare_bind.
    { apply hoare_for_each. intros ?. apply serves_insert_source. }
    intros ?. by apply hoare_ret.
  - unfold post_convert_file. destruct (fd_files form) as [|[file|text] rest]; [done| |done].
    cbv zeta. destruct (exceeds_size_limit file); [done|].
    apply serves_catch; [|done].
    eapply hoare_bind; [apply serves_insert_document|]. intros ?.
    eapply hoare_bind with (R := λ _, K).
    { case_decide.
      - eapply hoare_weaken;
          [apply hoare_for_each; intros ?; apply serves_insert_file_chunk
          |intros ? HQ; exact HQ | by intros ? ? [? _]].
      - apply hoare_ret. by intros ? [? _]. }
    intros ?. eapply hoare_bind; [apply serves_insert_task|].
    intros ?. eapply hoare_bind; [apply serves_lookup_or_insert_vectorizer|].
    intros vid. eapply hoare_bind; [apply serves_update_document_vectorizer|].
    intros ?. by apply hoare_ret.
  - unfold post_convert_source_async. case_decide; [done|]. cbv zeta.
    apply serves_catch; [|done].
    eapply hoare_bind; [apply serves_lookup_or_insert_vectorizer|]. intros vid.
    eapply hoare_bind with (R := λ _, K).
    { eapply hoare_weaken; [apply serves_insert_document|intros ? HQ; exact HQ|].
      by intros ? ? [? _]. }
    intros ?. eapply hoare_bind; [apply serves_insert_task|].
    intros ?. eapply hoare_bind.
    { apply hoare_for_each. intros ?. apply serves_insert_source. }
    intros ?. by apply hoare_ret.
  - unfold post_callback_task_progress. destruct (negb _); [done|].
    destruct (pc_progress data) as [progress|]; [|done].
    apply serves_catch; [|done].
    eapply hoare_bind; [apply serves_update_task_progress|].
    intros changes. case_decide; by apply hoare_ret.
  - unfold ensureDefaultVectorizer. rewrite run_bind.
    unfold select_vectorizer_id at 1. cbv beta iota.
    destruct (head _) as [v|]; cbn [fmap option_fmap option_map]; [by rewrite run_ret|].
    unfold insert_vectorizer. case_decide; [done|]. cbn [fst]. revert HK.
    apply serves_frame; unfold tasks_with_id, documents_with_id, chunks_of;
      db_simpl; first [same_head | done].
Qed.

Lemma serves_run_ops ops db : K db → K (run_ops ops db).
Proof.
  revert db. induction ops as [|op ops IH]; intros db HK; [done|].
  apply IH. by apply serves_run_op.
Qed.
End served.

Lemma get_result_absent_task taskId db :
  taskId ≠ [] → tasks_with_id taskId db = [] →
  get_result taskId db = (db, ErrorJson 404 (lit "Task or document not found") None).
Proof.
  intros Hne Ht. unfold get_result. rewrite truthy_nonempty by done. cbn [negb].
  unfold catch. rewrite run_bind. unfold select_task_document at 1.
  unfold tasks_with_id in Ht. by rewrite Ht.
Qed.

(** X7. Once the result route has answered 200 for a task, it answers 200
    for it after any further sequence of requests, with the same result:
    the same document id, page count, format and content.  No request
    rewrites or removes what was stored. *)
Theorem result_is_stable ops1 ops2 taskId r :
  (get_result taskId (run_ops ops1 empty_db)).2 = Json r →
  ∃ r', (get_result taskId (run_ops ops2 (run_ops ops1 empty_db))).2 = Json r'
        ∧ cdr_task_id r' = cdr_task_id r ∧ cdr_result r' = cdr_result r.
Proof.
  set (db := run_ops ops1 empty_db). intros Hr.
  assert (db_wf db) as Hwf by apply run_ops_wf, db_wf_empty.
  destruct (decide (taskId = [])) as [->|Hne]; [done|].
  destruct (tasks_with_id taskId db) as [|t ts] eqn:Ht.
  { by rewrite get_result_absent_task in Hr. }
  assert (t ∈ tasks db ∧ t_id t = taskId) as [Hin Hid].
  { assert (t ∈ tasks_with_id taskId db) as Hin by (rewrite Ht; left).
    by apply list_elem_of_filter in Hin as [? ?]. }
  pose proof (proj1 (Forall_forall _ _) (wf_tasks_fk db Hwf) t Hin) as Hdoc.
  cbv beta in Hdoc.
  destruct (filter_present d_id _ _ Hdoc) as (d & ds & Hd).
  assert (d_id d = t_document_id t) as Hdid.
  { assert (d ∈ filter (λ y, d_id y = t_document_id t) (documents db)) as Hd'
      by (rewrite Hd; left).
    by apply list_elem_of_filter in Hd' as [? _]. }
  rewrite (get_result_found taskId db t ts d ds Hne Ht Hd) in Hr.
  cbn [snd] in Hr. injection Hr as <-.
  assert (serves taskId d (chunks_of (d_id d) db) db) as HK.
  { exists t, d. unfold documents_with_id. rewrite Ht, Hdid, Hd. by split_and!. }
  apply (serves_run_ops _ _ _ ops2) in HK.
  destruct HK as (t' & d' & Ht' & Htd' & Hd' & Hid' & Hpages & Hformat & Hcontent & Hrows).
  destruct (tasks_with_id taskId (run_ops ops2 db)) as [|t1 ts'] eqn:Ht1; [done|].
  injection Ht' as ->. rewrite <-Htd' in Hd'.
  destruct (documents_with_id (t_document_id t') (run_ops ops2 db))
    as [|d1 ds'] eqn:Hd1; [done|].
  injection Hd' as ->.
  rewrite (get_result_found taskId _ t' ts' d' ds' Hne Ht1 Hd1). cbn [snd].
  eexists. split; [done|]. resp_simpl. split.
  - assert (t' ∈ tasks_with_id taskId (run_ops ops2 db)) as Hin' by (rewrite Ht1; left).
    apply list_elem_of_filter in Hin' as [-> _]. done.
  - by rewrite Hid', Hpages, Hformat, Hcontent, Hrows.
Qed.

(** ** Sources *)




(** ** Writes that stay behind a failed request *)


(** ** Progress callbacks *)

Lemma updated_task_twice now1 now2 progress message error status t :
  updated_task now2 progress message error status
    (updated_task now1 progress message error status t)
  = updated_task now2 progress message error status t.
Proof.
  unfold updated_task. cbn. f_equal.
  - by destruct status.
  - by destruct message.
  - by destruct error.
Qed.

Lemma post_callback_task_progress_run now data progress db :
  pc_task_id data ≠ [] → pc_progress data = Some progress →
  post_callback_task_progress now data db =
    (set_tasks ((λ t, if decide (t_id t = pc_task_id data)
                      then updated_task now progress (or_null (pc_message data))
                             (or_null (pc_error data)) (pc_status data) t
                      else t) <$> tasks db) db,
     if decide (length (tasks_with_id (pc_task_id data) db) = 0)
     then ErrorJson 404 (lit "Task not found") None
     else Json {| pcr_success := true; pcr_task_id := pc_task_id data;
                  pcr_progress := progress |}).
Proof.
  intros Hid Hp. unfold post_callback_task_progress.
  rewrite truthy_nonempty, Hp by done. cbn [negb]. unfold catch.
  rewrite run_bind. unfold update_task_progress at 1. cbv beta iota.
  unfold tasks_with_id. by case_decide; rewrite run_ret.
Qed.

Lemma post_callback_task_progress_invalid now data db :
  pc_task_id data = [] ∨ pc_progress data = None →
  post_callback_task_progress now data db =
    (db, ErrorJson 400 (lit "Invalid progress data") None).
Proof.
  unfold post_callback_task_progress. intros [->| ->]; [done|].
  by destruct (negb _).
Qed.

(** X11. A callback delivered twice leaves what it leaves delivered once, and
    gets the same answer: the second delivery, at time [now2], has the
    effect and the answer it would have had on its own. *)
Theorem callback_retry_is_harmless now1 now2 data db :
  post_callback_task_progress now2 data (post_callback_task_progress now1 data db).1
  = post_callback_task_progress now2 data db.
Proof.
  destruct (decide (pc_task_id data = [])) as [Hid|Hid].
  { by rewrite (post_callback_task_progress_invalid now1) by (by left). }
  destruct (pc_progress data) as [progress|] eqn:Hp.
  2:{ by rewrite (post_callback_task_progress_invalid now1) by (by right). }
  rewrite (post_callback_task_progress_run now1 data progress) by done.
  cbn [fst]. rewrite !(post_callback_task_progress_run now2 data progress) by done. unfold tasks_with_id. db_simpl.
  rewrite updated_tasks_with_id, length_fmap. f_equal. unfold set_tasks. f_equal.
  rewrite <-list_fmap_compose. apply list_fmap_ext.
  intros i t _. cbn. destruct (decide (t_id t = pc_task_id data)).
  - rewrite decide_True by done. apply updated_task_twice.
  - by rewrite decide_False.
Qed.

(** X12. A callback, whatever it carries and whatever it is answered, leaves
    documents, sources, chunks and vectorizers as they are; in [tasks]
    no row is added or removed, no row changes its id, its document or
    its creation time, and the rows of other tasks do not change at
    all. *)
Theorem callback_touches_only_its_task now data db :
  let db' := (post_callback_task_progress now data db).1 in
  documents db' = documents db ∧ sources db' = sources db
  ∧ file_chunks db' = file_chunks db ∧ vectorizers db' = vectorizers db
  ∧ t_id <$> tasks db' = t_id <$> tasks db
  ∧ t_document_id <$> tasks db' = t_document_id <$> tasks db
  ∧ t_created_at <$> tasks db' = t_created_at <$> tasks db
  ∧ filter (λ t, t_id t ≠ pc_task_id data) (tasks db')
    = filter (λ t, t_id t ≠ pc_task_id data) (tasks db).
Proof.
  intros db'. subst db'.
  destruct (decide (pc_task_id data = [])) as [Hid|Hid].
  { rewrite post_callback_task_progress_invalid by (by left). by split_and!. }
  destruct (pc_progress data) as [progress|] eqn:Hp.
  2:{ rewrite post_callback_task_progress_invalid by (by right). by split_and!. }
  rewrite (post_callback_task_progress_run now data progress) by done.
  cbn [fst]. db_simpl. split_and!; try done.
  - rewrite <-list_fmap_compose. apply list_fmap_ext. intros i t _. cbn.
    by case_decide.
  - rewrite <-list_fmap_compose. apply list_fmap_ext. intros i t _. cbn.
    by case_decide.
  - rewrite <-list_fmap_compose. apply list_fmap_ext. intros i t _. cbn.
    by case_decide.
  - induction (tasks db) as [|t l IH]; [done|].
    rewrite fmap_cons, !filter_cons, IH.
    destruct (decide (t_id t = pc_task_id data)) as [Heq|Hne].
    + cbn [t_id updated_task]. by rewrite !decide_False by (by intros []).
    + done.
Qed.

(** ** The default vectorizer *)

Lemma ensureDefaultVectorizer_present env now vectorizerId db v l :
  vectorizers_for (or_else (DEFAULT_MODEL env) (lit "gpt-4o-mini")) db = v :: l →
  ensureDefaultVectorizer env now vectorizerId db = (db, None).
Proof.
  intros Hv. unfold ensureDefaultVectorizer. rewrite run_bind.
  unfold select_vectorizer_id. unfold vectorizers_for in Hv. by rewrite Hv.
Qed.

Lemma lookup_or_insert_vectorizer_present now uuid modelName ocr db v l :
  vectorizers_for modelName db = v :: l →
  lookup_or_insert_vectorizer now uuid modelName ocr db = (db, Returned (v_id v)).
Proof.
  intros Hv. unfold lookup_or_insert_vectorizer. rewrite run_bind.
  unfold select_vectorizer_id. unfold vectorizers_for in Hv. by rewrite Hv.
Qed.

(** X13. Once [ensureDefaultVectorizer] has run without logging an error,
    the default model has a row; every later run of it changes nothing
    and logs nothing, whatever identifier it draws, and the
    lookup-or-insert block of the routes, asked for the default model,
    inserts nothing and returns the id of the same row. *)
Theorem bootstrap_then_noop env now1 id1 db :
  let modelName := or_else (DEFAULT_MODEL env) (lit "gpt-4o-mini") in
  let r := ensureDefaultVectorizer env now1 id1 db in
  r.2 = None →
  ∃ v, head (vectorizers_for modelName r.1) = Some v
       ∧ (∀ now2 id2, ensureDefaultVectorizer env now2 id2 r.1 = (r.1, None))
       ∧ (∀ now2 id2 ocr,
            lookup_or_insert_vectorizer now2 id2 modelName ocr r.1
            = (r.1, Returned (v_id v))).
Proof.
  intros modelName r Hr.
  assert (∃ v l, vectorizers_for modelName r.1 = v :: l) as (v & l & Hv).
  { subst r. unfold ensureDefaultVectorizer in *. rewrite run_bind in *.
    unfold select_vectorizer_id in *. cbv beta iota in *.
    destruct (vectorizers_for modelName db) as [|v l] eqn:Hf;
      unfold vectorizers_for, modelName in *; rewrite Hf in *;
      cbn [head fmap option_fmap option_map] in *.
    - unfold insert_vectorizer in *.
      destruct (decide (id1 ∈ v_id <$> vectorizers db)); [done|].
      cbn [fst]. db_simpl. rewrite filter_app, Hf, filter_cons, decide_True by done.
      eauto.
    - rewrite run_ret. cbn [fst]. eauto. }
  exists v. rewrite Hv. split; [done|]. split.
  - intros now2 id2. by apply (ensureDefaultVectorizer_present env now2 id2 r.1 v l).
  - intros now2 id2 ocr.
    by apply (lookup_or_insert_vectorizer_present now2 id2 modelName ocr r.1 v l).
Qed.

(** ** Options that are not recorded *)

Lemma bind_ext {A B} (P Q E : Db → Prop) (m : M A) (f g : A → M B) db :
  hoare P m (λ _, Q) E → P db → (∀ a db', Q db' → f a db' = g a db') →
  (m ≫= f) db = (m ≫= g) db.
Proof.
  intros Hm HP Hfg. rewrite !run_bind. specialize (Hm db HP).
  destruct (m db) as [db' [a|e]]; [by apply Hfg | done].
Qed.

Lemma hoare_vectorizers_frame {A} (P : list vectorizer_row → Prop) (m : M A) :
  (∀ db, vectorizers (m db).1 = vectorizers db) →
  hoare (λ db, P (vectorizers db)) m (λ _ db, P (vectorizers db)) (λ _, True).
Proof.
  intros Hm db HP. specialize (Hm db).
  destruct (m db) as [db' [a|e]]; [|done]. cbn in Hm. by rewrite Hm.
Qed.

Lemma lookup_or_insert_vectorizer_known now uuid modelName ocr ocr' db :
  vectorizers_for modelName db ≠ [] →
  lookup_or_insert_vectorizer now uuid modelName ocr db
  = lookup_or_insert_vectorizer now uuid modelName ocr' db.
Proof.
  intros Hv. destruct (vectorizers_for modelName db) as [|v l] eqn:Hf; [done|].
  by rewrite !(lookup_or_insert_vectorizer_present _ _ _ _ _ v l).
Qed.

(** X14. When the model of a request already has a vectorizer row, the OCR
    engine the request asks for changes nothing: the file route and the
    asynchronous route give the same answer and leave the same database
    whatever [ocr_engine] is.  The engine recorded for a model is that
    of the request which created its row. *)
Theorem ocr_engine_ignored_for_known_model db :
  (∀ env now taskId documentId vectorizerUuid form ocr_engine,
     vectorizers_for (or_else (form_model form)
                        (or_else (DEFAULT_MODEL env) (lit "gpt-4o-mini"))) db ≠ [] →
     post_convert_file env now taskId documentId vectorizerUuid
       {| form_files := form_files form; form_format := form_format form;
          form_ocr_engine := ocr_engine; form_model := form_model form |} db
     = post_convert_file env now taskId documentId vectorizerUuid form db)
  ∧ (∀ env now taskId documentId vectorizerUuid data ocr_engine,
       vectorizers_for (or_else (req_options data ≫= opt_model)
                          (or_else (DEFAULT_MODEL env) (lit "gpt-4o-mini"))) db ≠ [] →
       post_convert_source_async env now taskId documentId vectorizerUuid
         {| req_sources := req_sources data;
            req_options := Some {| opt_ocr_engine := ocr_engine;
                                   opt_model := req_options data ≫= opt_model |} |} db
       = post_convert_source_async env now taskId documentId vectorizerUuid data db).
Proof.
  split.
  - intros env now t d u form ocr Hknown. unfold post_convert_file.
    cbn [form_data fd_files fd_format fd_ocr_engine fd_model
         form_files form_format form_ocr_engine form_model].
    destruct (form_files form) as [|file rest]; [done|]. rewrite fmap_cons. cbv zeta.
    destruct (exceeds_size_limit file); [done|].
    unfold catch.
    match goal with |- match ?b1 db with _ => _ end = match ?b2 db with _ => _ end =>
      replace (b1 db) with (b2 db); [done|]
    end.
    set (P := λ vs : list vectorizer_row,
           filter (λ v, v_model_name v
                        = or_else (form_model form)
                            (or_else (DEFAULT_MODEL env) (lit "gpt-4o-mini"))) vs ≠ []).
    eapply (bind_ext (λ db, P (vectorizers db)) (λ db, P (vectorizers db)));
      [apply hoare_vectorizers_frame; intros ?; apply insert_document_vectorizers
      |exact Hknown|].
    intros _ db1 H1.
    eapply (bind_ext (λ db, P (vectorizers db)) (λ db, P (vectorizers db)));
      [|exact H1|].
    { case_decide; [|by apply hoare_ret].
      apply hoare_for_each. intros i. apply hoare_vectorizers_frame. intros ?.
      apply insert_file_chunk_vectorizers. }
    intros _ db2 H2.
    eapply (bind_ext (λ db, P (vectorizers db)) (λ db, P (vectorizers db)));
      [apply hoare_vectorizers_frame; intros ?; apply insert_task_vectorizers
      |exact H2|].
    intros _ db3 H3. rewrite !run_bind.
    by rewrite (lookup_or_insert_vectorizer_known now u _
                  (or_else (Some (or_else (form_ocr_engine form) (lit "easyocr")))
                     (lit "easyocr"))
                  (or_else (Some (or_else ocr (lit "easyocr"))) (lit "easyocr")) db3).
  - intros env now t d u data ocr Hknown. unfold post_convert_source_async.
    cbn [received body_sources body_options
         req_sources req_options mbind option_bind opt_model opt_ocr_engine].
    case_decide; [done|]. cbv zeta. unfold catch.
    rewrite !run_bind.
    by rewrite (lookup_or_insert_vectorizer_known now u _
                  (or_else (req_options data ≫= opt_ocr_engine) (lit "easyocr"))
                  (or_else ocr (lit "easyocr")) db).
Qed.

(** ** An upload stays retrievable *)

Lemma serves_rows taskId d0 rows db :
  serves taskId d0 rows db →
  ∃ t ts d ds,
    tasks_with_id taskId db = t :: ts
    ∧ documents_with_id (t_document_id t) db = d :: ds
    ∧ d_id d = d_id d0 ∧ d_pages d = d_pages d0 ∧ d_format d = d_format d0
    ∧ d_content d = d_content d0 ∧ chunks_of (d_id d) db = rows.
Proof.
  intros (t & d & Ht & Htd & Hd & Hid & Hpages & Hformat & Hcontent & Hrows).
  destruct (tasks_with_id taskId db) as [|t1 ts] eqn:Ht1; [done|]. injection Ht as ->.
  rewrite <-Htd in Hd.
  destruct (documents_with_id (t_document_id t) db) as [|d1 ds] eqn:Hd1; [done|].
  injection Hd as ->. exists t, ts, d, ds. rewrite Hid. by split_and!.
Qed.

(** X8. A file uploaded under new identifiers is there to stay: after any
    further sequence of requests the result route answers 200 for its
    task and returns the document id, the number of files of the upload
    and, for a text that is not empty, the text of the first file as it
    was stored: the text itself when it was stored inline, its chunks
    as D1 holds them, joined, when it was cut.  That is exactly the text
    uploaded when the text is well-formed UTF-16 and has no surrogate
    pair across a multiple of [CHUNK_SIZE_TOKENS]. *)
Theorem upload_is_durable env now taskId documentId vectorizerUuid form file rest db ops :
  form_files form = file :: rest →
  exceeds_size_limit file = false →
  file_text file ≠ [] →
  taskId ≠ [] → documentId ≠ [] →
  documentId ∉ d_id <$> documents db →
  taskId ∉ t_id <$> tasks db →
  vectorizerUuid ∉ v_id <$> vectorizers db →
  fk_file_chunks db →
  let db' := run_ops ops
               (post_convert_file env now taskId documentId vectorizerUuid form db).1 in
  ∃ r res,
    get_result taskId db' = (db', Json r)
    ∧ cdr_task_id r = taskId
    ∧ cdr_result r = Some res
    ∧ res_document_id res = documentId
    ∧ res_pages res = length (form_files form)
    ∧ (well_formed (file_text file) = true →
       keeps_pairs CHUNK_SIZE_TOKENS (file_text file) = true →
       res_content res = Some (file_text file))
    ∧ (length (file_text file) ≤ CHUNK_SIZE_TOKENS →
       res_content res = Some (file_text file))
    ∧ (CHUNK_SIZE_TOKENS < length (file_text file) →
       ∃ n, length (file_text file) ≤ n * CHUNK_SIZE_TOKENS
            ∧ n * CHUNK_SIZE_TOKENS < length (file_text file) + CHUNK_SIZE_TOKENS
            ∧ res_content res
              = Some (join ((λ i, to_text (take CHUNK_SIZE_TOKENS
                                             (drop (i * CHUNK_SIZE_TOKENS)
                                                (file_text file))))
                              <$> seq 0 n))).
Proof.
  intros Hfiles Hsize Hnonempty HtaskId HdocId Hdoc Htask Hvec Hfk db'.
  destruct (post_convert_file_effect_declared env now taskId documentId vectorizerUuid
              form file rest db Hfiles Hsize Hdoc Htask Hvec
              (no_chunks_of_fresh_document _ _ Hfk Hdoc))
    as (vid & db1 & Hrun & Hdocs & Htasks & _ & Hchunks & _).
  subst db'. rewrite Hrun. cbn [fst].
  pose proof CHUNK_SIZE_TOKENS_pos as HT.
  match type of Hdocs with _ = _ ++ [?row] => set (d0 := row) in * end.
  set (rows := if decide (CHUNK_SIZE_TOKENS < length (file_text file))
               then chunk_rows now documentId
                      (stored_chunk CHUNK_SIZE_TOKENS (file_text file))
                      (length (file_chunks db))
                      (seq 0 (Math_ceil_div (length (file_text file)) CHUNK_SIZE_TOKENS))
               else []) in *.
  assert (chunks_of documentId db1 = rows) as Hrows.
  { unfold chunks_of. rewrite Hchunks, filter_app.
    fold (chunks_of documentId db). rewrite no_chunks_of_fresh_document by done.
    rewrite app_nil_l. subst rows. case_decide; [|done].
    apply filter_all, chunk_rows_document. }
  assert (serves taskId d0 rows db1) as HK.
  { eexists _, d0. unfold tasks_with_id, documents_with_id. rewrite Htasks, Hdocs.
    rewrite !filter_app_fresh by done. by split_and!. }
  apply (serves_run_ops _ _ _ ops) in HK.
  destruct (serves_rows _ _ _ _ HK)
    as (t & ts & d & ds & Ht & Hd & Hid & Hpages & Hformat & Hcontent & Hrows').
  assert (t_id t = taskId) as Htid.
  { assert (t ∈ tasks_with_id taskId (run_ops ops db1)) as Hin by (rewrite Ht; left).
    by apply list_elem_of_filter in Hin as [? _]. }
  cbn [d0 d_id d_pages d_format d_content] in Hid, Hpages, Hformat, Hcontent.
  destruct (decide (length (file_text file) ≤ CHUNK_SIZE_TOKENS)) as [Hle|Hgt].
  - rewrite (get_result_inline taskId _ t ts d ds (file_text file)); try done.
    eexists _, _. split; [done|]. resp_simpl. rewrite Htid, Hid, Hpages.
    split_and!; [done..|]. intros ?. lia.
  - subst rows. rewrite decide_True in Hrows' by lia.
    assert (join (c_content <$> chunks_of (d_id d) (run_ops ops db1))
            = join (stored_chunk CHUNK_SIZE_TOKENS (file_text file)
                      <$> seq 0 (Math_ceil_div (length (file_text file))
                                   CHUNK_SIZE_TOKENS)))
      as Hjoin.
    { by rewrite Hrows', chunk_rows_content. }
    destruct (get_result_chunked taskId (run_ops ops db1) t ts d ds
                (Math_ceil_div (length (file_text file)) CHUNK_SIZE_TOKENS))
      as (r & res & Hr & Hres & Hc); try done.
    { by rewrite Hid. }
    { by rewrite Hrows', chunk_rows_index. }
    { apply Math_ceil_div_pos; lia. }
    { rewrite Hjoin. apply join_stored_nonempty. lia. }
    exists r, res. split; [done|].
    rewrite (get_result_found taskId _ t ts d ds HtaskId Ht Hd) in Hr.
    injection Hr as <-. resp_simpl. injection Hres as <-. resp_simpl.
    rewrite Hjoin in Hc.
    pose proof (Math_ceil_div_bounds _ HT (length (file_text file))) as [Hub Hlb].
    split_and!; [done..| | |].
    + intros Hwf Hkeep. rewrite Hc, stored_chunks_kept by done.
      f_equal. by apply join_chunks.
    + intros ?. lia.
    + intros _. exists (Math_ceil_div (length (file_text file)) CHUNK_SIZE_TOKENS).
      split_and!; [done..|]. by rewrite Hc, stored_chunks_take_drop.
Qed.

(** ** The theorems at work on a sample history *)

Lemma rejections_write_nothing_witness :
  (post_convert_source 6 Sample.task2 Sample.doc2 Scenario.no_sources
     Scenario.stored).1 = Scenario.stored
  ∧ (post_callback_task_progress 6 (Sample.callback Sample.task2 (Some 10%Z) None)
       Scenario.stored).1 = Scenario.stored.
Proof.
  destruct (rejections_write_nothing Scenario.stored) as (H1 & _ & _ & H4 & _).
  split.
  - apply H1. left. reflexivity.
  - apply H4. right. reflexivity.
Defined.


Lemma result_is_stable_witness :
  ∃ r', (get_result Sample.task1
           (run_ops Scenario.later (run_ops [Scenario.upload] empty_db))).2 = Json r'
        ∧ cdr_task_id r' = Sample.task1
        ∧ cdr_result r' = Some {| res_document_id := Sample.doc1; res_pages := 1;
                                  res_format := lit "json";
                                  res_content := Some (lit "hello") |}.
Proof.
  apply (result_is_stable [Scenario.upload] Scenario.later Sample.task1
           {| cdr_task_id := Sample.task1; cdr_status := completed;
              cdr_message := Some (lit "Files processed successfully");
              cdr_progress := Some 0%Z; cdr_error := None;
              cdr_result := Some {| res_document_id := Sample.doc1; res_pages := 1;
                                    res_format := lit "json";
                                    res_content := Some (lit "hello") |} |}).
  vm_compute. reflexivity.
Defined.


(** Two sources, the second without a url: the route answers 500 with
    the document, the task and the first source written. *)
Example sources_stop_at_missing_url :
  let r := post_convert_source 6 Sample.task2 Sample.doc2 Surrogates.no_url
             Scenario.stored in
  status_of r.2 = 500
  ∧ s_url <$> sources r.1 = [lit "https://a/b.pdf"]
  ∧ d_id <$> documents r.1 = [Sample.doc1; Sample.doc2]
  ∧ t_id <$> tasks r.1 = [Sample.task1; Sample.task2].
Proof. vm_compute. by split_and!. Qed.

(** A form whose field [file] is a string: the route answers 500 and
    writes nothing. *)
Example text_field_is_an_error :
  post_convert_file Sample.env 6 Sample.task2 Sample.doc2 Sample.vec2
    Surrogates.text_field Scenario.stored
  = (Scenario.stored,
     ErrorJson 500 (lit "Failed to process files") (Some (NotAFunction "file.text"))).
Proof. reflexivity. Qed.


Lemma bootstrap_then_noop_witness :
  let modelName := or_else (DEFAULT_MODEL Sample.env) (lit "gpt-4o-mini") in
  let r := ensureDefaultVectorizer Sample.env 1 Sample.vec1 empty_db in
  ∃ v, head (vectorizers_for modelName r.1) = Some v
       ∧ (∀ now2 id2, ensureDefaultVectorizer Sample.env now2 id2 r.1 = (r.1, None))
       ∧ (∀ now2 id2 ocr,
            lookup_or_insert_vectorizer now2 id2 modelName ocr r.1
            = (r.1, Returned (v_id v))).
Proof.
  apply (bootstrap_then_noop Sample.env 1 Sample.vec1 empty_db). reflexivity.
Defined.

Lemma ocr_engine_ignored_for_known_model_witness :
  post_convert_file Sample.env 6 Sample.task2 Sample.doc2 Sample.vec2
    Scenario.form_tesseract Scenario.stored
  = post_convert_file Sample.env 6 Sample.task2 Sample.doc2 Sample.vec2
      (Sample.form_of [Sample.short_file]) Scenario.stored.
Proof.
  destruct (ocr_engine_ignored_for_known_model Scenario.stored) as [H _].
  apply (H Sample.env 6%N Sample.task2 Sample.doc2 Sample.vec2
           (Sample.form_of [Sample.short_file]) (Some (lit "tesseract"))).
  vm_compute. discriminate.
Defined.

Lemma upload_is_durable_witness :
  let db' := run_ops Scenario.later
               (post_convert_file Sample.env 1 Sample.task1 Sample.doc1 Sample.vec1
                  (Sample.form_of [Surrogates.pair_kept]) empty_db).1 in
  ∃ r res,
    get_result Sample.task1 db' = (db', Json r)
    ∧ cdr_task_id r = Sample.task1
    ∧ cdr_result r = Some res
    ∧ res_document_id res = Sample.doc1
    ∧ res_pages res = 1
    ∧ res_content res = Some (file_text Surrogates.pair_kept).
Proof.
  destruct (upload_is_durable Sample.env 1 Sample.task1 Sample.doc1 Sample.vec1
              (Sample.form_of [Surrogates.pair_kept]) Surrogates.pair_kept [] empty_db
              Scenario.later)
    as (r & res & Hr & Htask & Hres & Hdoc & Hpages & Hcontent & _).
  - reflexivity.
  - reflexivity.
  - discriminate.
  - discriminate.
  - discriminate.
  - apply not_in_empty_table.
  - apply not_in_empty_table.
  - apply not_in_empty_table.
  - apply fk_file_chunks_empty_db.
  - exists r, res. split_and!; [exact Hr|exact Htask|exact Hres|exact Hdoc|exact Hpages|].
    apply Hcontent; vm_compute; reflexivity.
Defined.

Lemma chunk_layout_witness :
  let rows := chunks_of (lit "doc-3")
                (run_ops (Scenario.upload :: Scenario.later) empty_db) in
  c_chunk_index <$> rows = seq 0 (length rows)
  ∧ length rows ≠ 1
  ∧ ∀ i c, rows !! i = Some c →
      0 < length (c_content c) ≤ CHUNK_SIZE_TOKENS
      ∧ (S i < length rows → length (c_content c) = CHUNK_SIZE_TOKENS).
Proof.
  destruct (chunk_layout (Scenario.upload :: Scenario.later) (lit "doc-3"))
    as (Hidx & Hcount & Hlower & Hexact).
  split; [exact Hidx|]. split; [exact Hcount|]. intros i c Hc.
  destruct (Hlower i c Hc) as [Hpos _].
  destruct (Hexact ltac:(repeat (constructor; [first [exact I | split; reflexivity]|]);
                         constructor) i c Hc) as [Hle Hfull].
  split; [split; [exact Hpos | exact Hle] | exact Hfull].
Defined.

(** The invariants on the sample history: the long upload has left three
    chunks, numbered 0, 1, 2, of 1000, 1000 and 500 code units. *)
Lemma chunk_layout_example :
  let rows := chunks_of (lit "doc-3") (run_ops Scenario.later Scenario.stored) in
  c_chunk_index <$> rows = [0; 1; 2]
  ∧ length ∘ c_content <$> rows = [1000; 1000; 500].
Proof. vm_compute. by split. Qed.

(** An upload whose surrogate pair lies across the first cut leaves a
    first chunk of more than [CHUNK_SIZE_TOKENS] code units. *)
Example chunk_layout_split_pair :
  let upload := ConvertFile Sample.env 1 Sample.task1 Sample.doc1 Sample.vec1
                  (Sample.form_of [Surrogates.pair_cut]) in
  let rows := chunks_of Sample.doc1 (run_ops [upload] empty_db) in
  ¬ op_keeps_pairs upload
  ∧ c_chunk_index <$> rows = [0; 1]
  ∧ length ∘ c_content <$> rows = [1002; 4].
Proof. vm_compute. split; [by intros [_ ?]|done]. Qed.
